(** * VIDEO_IMG_AI_CREATOR: the video job poller, the edit session and its
      persistence, the format conversion and the video view.

    A shallow embedding of [services/geminiService.ts],
    [components/ImageEditor.tsx] and [components/VideoGenerator.tsx].
    Asynchronous functions are functions of the browser state (explicit state
    passing); the provider's client library, the network, the image decoder
    and the encoder are oracles of an environment record. *)

From Stdlib Require Import ZArith Lia Ascii String.
From stdpp Require Import base option list strings gmap pretty.

Local Open Scope string_scope.
Local Open Scope list_scope.

Set Warnings "-register-all".

(* ================================================================== *)
(** ** JavaScript string primitives used by the source *)
(* ================================================================== *)

Module Js.

(** [if (s)] on a string: the empty string is falsy. *)
Definition truthy (s : string) : bool :=
  match s with
  | EmptyString => false
  | String _ _ => true
  end.

(** [`${v}`] of a string that may be [undefined]. *)
Definition template (v : option string) : string := default "undefined" v.

(** [if (v)] on [string | null | undefined]. *)
Definition truthy_opt (v : option string) : bool :=
  match v with
  | Some s => truthy s
  | None => false
  end.

(** [s.startsWith(p)]. *)
Fixpoint startsWith (p s : string) : bool :=
  match p, s with
  | EmptyString, _ => true
  | String a p', String b s' => if Ascii.eqb a b then startsWith p' s' else false
  | String _ _, EmptyString => false
  end.

(** [s.includes(needle)]: [needle] starts at some position of [s]. *)
Fixpoint includes (needle s : string) : bool :=
  startsWith needle s ||
  match s with
  | EmptyString => false
  | String _ s' => includes needle s'
  end.

(** [c] occurs in [s]. *)
Fixpoint mem_char (c : ascii) (s : string) : bool :=
  match s with
  | EmptyString => false
  | String b s' => Ascii.eqb c b || mem_char c s'
  end.

(** [s.split(c)] for a one-character separator. *)
Fixpoint split (c : ascii) (s : string) : list string :=
  match s with
  | EmptyString => [EmptyString]
  | String b s' =>
      if Ascii.eqb b c then EmptyString :: split c s'
      else match split c s' with
           | hd :: tl => String b hd :: tl
           | [] => [String b EmptyString]
           end
  end.

End Js.

(* ================================================================== *)
(** ** The 2D canvas *)
(* ================================================================== *)

Module Canvas.

(** One RGBA pixel, each channel in 0..255, colours not premultiplied. *)
Record Pixel := { red : Z; green : Z; blue : Z; alpha : Z }.

Definition transparent_black : Pixel := {| red := 0; green := 0; blue := 0; alpha := 0 |}.

(** A raster of [width * height] pixels, row by row. *)
Record Raster := { width : nat; height : nat; pixels : list Pixel }.

(** [document.createElement('canvas')] sized [w] by [h]: transparent black. *)
Definition create (w h : nat) : Raster :=
  {| width := w; height := h; pixels := replicate (w * h) transparent_black |}.

(** The default compositing operation, source-over. *)
Definition source_over (src dst : Pixel) : Pixel :=
  let ao := (alpha src + alpha dst * (255 - alpha src) / 255)%Z in
  let mix (cs cd : Z) : Z :=
    if (ao =? 0)%Z then 0%Z
    else ((cs * alpha src * 255 + cd * alpha dst * (255 - alpha src)) / (ao * 255))%Z in
  {| red := mix (red src) (red dst);
     green := mix (green src) (green dst);
     blue := mix (blue src) (blue dst);
     alpha := ao |}.

Definition hex_digit (c : ascii) : option Z :=
  let n := Z.of_nat (nat_of_ascii c) in
  if ((48 <=? n) && (n <=? 57))%Z then Some (n - 48)%Z
  else if ((65 <=? n) && (n <=? 70))%Z then Some (n - 55)%Z
  else if ((97 <=? n) && (n <=? 102))%Z then Some (n - 87)%Z
  else None.

(** A [fillStyle] of the form [#RRGGBB]; any other string leaves the style as
    it was. *)
Definition parse_color (style : string) : option Pixel :=
  match style with
  | String "#" (String r1 (String r0 (String g1 (String g0 (String b1 (String b0 EmptyString)))))) =>
      r1 ← hex_digit r1; r0 ← hex_digit r0;
      g1 ← hex_digit g1; g0 ← hex_digit g0;
      b1 ← hex_digit b1; b0 ← hex_digit b0;
      Some {| red := 16 * r1 + r0; green := 16 * g1 + g0; blue := 16 * b1 + b0;
              alpha := 255 |}
  | _ => None
  end.

Definition white : Pixel := {| red := 255; green := 255; blue := 255; alpha := 255 |}.

(** The default [fillStyle], [#000000]. *)
Definition default_fill : Pixel := {| red := 0; green := 0; blue := 0; alpha := 255 |}.

Definition in_rect (x y w h : nat) (width : nat) (i : nat) : bool :=
  let cx := Nat.modulo i width in
  let cy := Nat.div i width in
  bool_decide (x ≤ cx ∧ cx < x + w ∧ y ≤ cy ∧ cy < y + h)%nat.

(** [ctx.fillRect(x, y, w, h)] with fill colour [style]. *)
Definition fillRect (style : Pixel) (x y w h : nat) (c : Raster) : Raster :=
  {| width := width c; height := height c;
     pixels := imap (fun i p => if in_rect x y w h (width c) i
                                then source_over style p else p) (pixels c) |}.

(** [ctx.drawImage(img, dx, dy)]. *)
Definition drawImage (img : Raster) (dx dy : nat) (c : Raster) : Raster :=
  {| width := width c; height := height c;
     pixels := imap (fun i p =>
                 if in_rect dx dy (width img) (height img) (width c) i then
                   match pixels img !! ((Nat.div i (width c) - dy) * width img
                                        + (Nat.modulo i (width c) - dx)) with
                   | Some s => source_over s p
                   | None => p
                   end
                 else p) (pixels c) |}.

(** The calls the source makes on a 2D context. *)
Inductive Cmd : Type :=
  | SetFillStyle (style : string)
  | FillRect (x y w h : nat)
  | DrawImage (img : Raster) (dx dy : nat).

(** A 2D context: its canvas and its current fill colour. *)
Record Context := { canvas : Raster; fillStyle : Pixel }.

Definition getContext (c : Raster) : Context :=
  {| canvas := c; fillStyle := default_fill |}.

Definition exec1 (ctx : Context) (cmd : Cmd) : Context :=
  match cmd with
  | SetFillStyle style =>
      {| canvas := canvas ctx;
         fillStyle := match parse_color style with
                      | Some p => p
                      | None => fillStyle ctx
                      end |}
  | FillRect x y w h =>
      {| canvas := fillRect (fillStyle ctx) x y w h (canvas ctx);
         fillStyle := fillStyle ctx |}
  | DrawImage img dx dy =>
      {| canvas := drawImage img dx dy (canvas ctx); fillStyle := fillStyle ctx |}
  end.

(** Running the calls in the order they are made. *)
Definition exec (cmds : list Cmd) (ctx : Context) : Context :=
  fold_left exec1 cmds ctx.

(** What the page cannot compute itself: decoding an image source (none when
    the [Image] element fires [onerror]), whether a 2D context can be had, and
    the encoder behind [canvas.toDataURL(type, quality)], whose quality is a
    fraction. *)
Record Platform := {
  decode : string -> option Raster;
  getContext2d : bool;
  toDataURL : string -> Z * Z -> Raster -> string;
}.

End Canvas.

(* ================================================================== *)
(** ** Outcomes of asynchronous calls, and the browser state *)
(* ================================================================== *)

(** A value a JavaScript [throw] (or a rejected promise) carries. The source
    only distinguishes [instanceof Error], whose [message] it reads, from
    every other value, of which it takes [JSON.stringify(error)], or
    [String(error)] where that throws: [text] is what this gives. It gives no
    string for [undefined], a function or a symbol, of which
    [JSON.stringify] returns [undefined] without throwing. *)
Inductive Thrown : Type :=
  | ErrorObj (message : string)
  | OtherThrown (text : option string).

(** What awaiting a call gives. [Pending] is a poll loop that has not come to
    an end within the fuel it was given. *)
Inductive Outcome (A : Type) : Type :=
  | Resolved (a : A)
  | Rejected (e : Thrown)
  | Pending.
Arguments Resolved {A} a.
Arguments Rejected {A} e.
Arguments Pending {A}.

Definition Blob : Type := list Byte.byte.

(** ** Wire types of the provider's client library *)

Record InlineData := { data : string; mimeType : string }.

(** One part of the contents of a request. *)
Record Part := { inlineData : option InlineData; text : option string }.

(** The answer of [generateContent]. The client library declares every
    property of it optional, and the source reads them unguarded: none is a
    property that is [undefined]. *)
Record InlineBlob := { blob_data : option string; blob_mimeType : option string }.

Record AnswerPart := { part_inlineData : option InlineBlob; part_text : option string }.

Record Content := { parts : option (list AnswerPart) }.

Record Candidate := { content : option Content }.

Record GenerateContentResponse := { candidates : option (list Candidate) }.

Record GenerateContentParameters := {
  gc_model : string;
  gc_parts : list Part;
  gc_responseModalities : list string;
}.

Inductive AspectRatio : Type := Landscape_16_9 | Portrait_9_16.

Record GenerateVideosParameters := {
  gv_model : string;
  gv_prompt : string;
  gv_image : option InlineData;
  gv_numberOfVideos : nat;
  gv_aspectRatio : AspectRatio;
  gv_resolution : string;
}.

Record Video := { uri : option string }.
Record GeneratedVideo := { video : option Video }.
Record GenerateVideosResponse := { generatedVideos : option (list GeneratedVideo) }.

(** The handle of a long-running video job, refreshed by every status query. *)
Record Operation := {
  op_name : string;
  done : option bool;
  response : option GenerateVideosResponse;
}.

(** The answer of [fetch]. *)
Record Response := {
  ok : bool;
  status : N;
  blob : Thrown + Blob;
}.

(** Calls that leave the program, in the order they are made. *)
Inductive Event : Type :=
  | EGenerateContent (p : GenerateContentParameters)
  | EGenerateVideos (p : GenerateVideosParameters)
  | ESetTimeout (ms : Z)
  | EGetVideosOperation (op : Operation)
  | EFetch (url : string)
  | ECreateObjectURL (b : Blob) (url : string)
  | ERevokeObjectURL (url : string)
  | EConsoleError (msg : string)
  | EImageLoad (src : string)
  | ECanvas (cmd : Canvas.Cmd)
  | EToDataURL (mime : string) (quality : Z * Z).

Definition is_timeout (e : Event) : bool :=
  match e with
  | ESetTimeout _ => true
  | _ => false
  end.

Definition is_fetch (e : Event) : bool :=
  match e with
  | EFetch _ => true
  | _ => false
  end.

Definition is_revoke (e : Event) : bool :=
  match e with
  | ERevokeObjectURL _ => true
  | _ => false
  end.

(** The number of suspensions, of downloads and of revocations a trace shows. *)
Definition suspensions (t : list Event) : nat := length (filter is_timeout t).
Definition fetches (t : list Event) : nat := length (filter is_fetch t).
Definition revocations (t : list Event) : nat := length (filter is_revoke t).

(** The requests for an image edit that a trace shows. *)
Definition requests (t : list Event) : list GenerateContentParameters :=
  omap (fun e => match e with EGenerateContent p => Some p | _ => None end) t.

(** The browser: the outside world [ext] (provider, network, decoder), the
    page's [localStorage], the object URLs that are live ([URL.createObjectURL]
    without a [URL.revokeObjectURL] yet), and the calls made so far. *)
Record Browser (W : Type) := {
  ext : W;
  localStorage : gmap string string;
  objectURLs : list string;
  nextObjectURL : nat;
  trace : list Event;
}.
Arguments ext {W} _.
Arguments localStorage {W} _.
Arguments objectURLs {W} _.
Arguments nextObjectURL {W} _.
Arguments trace {W} _.

(** The outside world's answers. Each oracle may depend on and change the
    world's state. [API_KEY] is [process.env.API_KEY] as a template literal
    prints it. *)
Record Provider (W : Type) := {
  API_KEY : W -> string;
  generateContent : GenerateContentParameters -> W -> (Thrown + GenerateContentResponse) * W;
  generateVideos : GenerateVideosParameters -> W -> (Thrown + Operation) * W;
  getVideosOperation : Operation -> W -> (Thrown + Operation) * W;
  setTimeout : Z -> W -> W;
  fetch : string -> W -> (Thrown + Response) * W;
}.
Arguments API_KEY {W} _ _.
Arguments generateContent {W} _ _ _.
Arguments generateVideos {W} _ _ _.
Arguments getVideosOperation {W} _ _ _.
Arguments setTimeout {W} _ _ _.
Arguments fetch {W} _ _ _.

(** ** A state and error monad over the browser *)

Definition M (W A : Type) : Type := Browser W -> Outcome A * Browser W.

Definition ret {W A} (a : A) : M W A := fun b => (Resolved a, b).

Definition throw {W A} (e : Thrown) : M W A := fun b => (Rejected e, b).

Definition pending {W A} : M W A := fun b => (Pending, b).

Definition bind {W A B} (m : M W A) (k : A -> M W B) : M W B :=
  fun b =>
    match m b with
    | (Resolved a, b') => k a b'
    | (Rejected e, b') => (Rejected e, b')
    | (Pending, b') => (Pending, b')
    end.

(** [try { m } catch (error) { h error }]. *)
Definition try_catch {W A} (m : M W A) (h : Thrown -> M W A) : M W A :=
  fun b =>
    match m b with
    | (Rejected e, b') => h e b'
    | r => r
    end.

Declare Scope js_scope.
Delimit Scope js_scope with js.
Notation "x <- m ;; k" := (bind m (fun x => k))
  (at level 100, m at next level, right associativity) : js_scope.
Notation "m ;;; k" := (bind m (fun _ => k))
  (at level 100, right associativity) : js_scope.

Definition add_trace {W} (es : list Event) (b : Browser W) : Browser W :=
  {| ext := ext b; localStorage := localStorage b; objectURLs := objectURLs b;
     nextObjectURL := nextObjectURL b; trace := trace b ++ es |}.

Definition emit {W} (e : Event) : M W unit :=
  fun b => (Resolved tt, add_trace [e] b).

Definition set_ext {W} (w : W) (b : Browser W) : Browser W :=
  {| ext := w; localStorage := localStorage b; objectURLs := objectURLs b;
     nextObjectURL := nextObjectURL b; trace := trace b |}.

(** Calling an oracle that may throw. *)
Definition call {W A} (f : W -> (Thrown + A) * W) : M W A :=
  fun b =>
    match f (ext b) with
    | (inr a, w) => (Resolved a, set_ext w b)
    | (inl e, w) => (Rejected e, set_ext w b)
    end.

Definition of_sum {W A} (r : Thrown + A) : M W A :=
  match r with
  | inr a => ret a
  | inl e => throw e
  end.

(** The name of the [n]-th object URL the browser hands out. *)
Definition object_url (n : nat) : string := "blob:" +:+ pretty n.

(** [URL.createObjectURL(blob)]: a fresh live URL. *)
Definition createObjectURL {W} (bl : Blob) : M W string :=
  fun b =>
    let url := object_url (nextObjectURL b) in
    (Resolved url,
     {| ext := ext b; localStorage := localStorage b;
        objectURLs := objectURLs b ++ [url];
        nextObjectURL := S (nextObjectURL b);
        trace := trace b ++ [ECreateObjectURL bl url] |}).

(** [URL.revokeObjectURL(url)]: the URL is live no more; revoking a URL that is
    not live does nothing. *)
Definition revokeObjectURL {W} (url : string) (b : Browser W) : Browser W :=
  {| ext := ext b; localStorage := localStorage b;
     objectURLs := filter (fun u => u ≠ url) (objectURLs b);
     nextObjectURL := nextObjectURL b;
     trace := trace b ++ [ERevokeObjectURL url] |}.

(* ================================================================== *)
(** ** services/geminiService.ts *)
(* ================================================================== *)

Module GeminiService.
Section WithProvider.

Context {W : Type} (P : Provider W).

Local Open Scope js_scope.

Definition msg_no_image : string := "No image found in the Gemini API response.".
Definition msg_failed_image : string := "Failed to generate image: ".
Definition msg_no_download_link : string :=
  "Video generation succeeded but no download link was found.".
Definition msg_download_failed : string :=
  "Failed to download the generated video. Status: ".
Definition signature_entity_not_found : string := "Requested entity was not found.".
Definition msg_invalid_key : string :=
  "API key not found or invalid. Please select a valid API key and try again.".
Definition msg_failed_video : string := "Failed to generate video: ".
Definition msg_unexpected_video : string :=
  "An unexpected error occurred while generating the video.".
Definition msg_unexpected_image : string :=
  "An unexpected error occurred while communicating with the Gemini API.".

(** The [TypeError]s of reading a property of [undefined] in
    [response.candidates[0].content.parts] and in
    [part.inlineData.mimeType.startsWith], and of a [for ... of] over
    [undefined] (their texts are the engine's; V8's are given). *)
Definition msg_type_error_index : string :=
  "Cannot read properties of undefined (reading '0')".
Definition msg_type_error_candidates : string :=
  "Cannot read properties of undefined (reading 'content')".
Definition msg_type_error_content : string :=
  "Cannot read properties of undefined (reading 'parts')".
Definition msg_type_error_parts : string :=
  "response.candidates[0].content.parts is not iterable".
Definition msg_type_error_mimeType : string :=
  "Cannot read properties of undefined (reading 'startsWith')".

(** The [for] loop of [editImageWithPrompt]: the first part that holds inline
    data of an [image/] type; an inline data without a type met on the way
    throws. [base64] of the result is [part.inlineData.data] as the template
    literals of the caller, its only readers, print it. *)
Fixpoint find_image_part (ps : list AnswerPart) : Thrown + option InlineData :=
  match ps with
  | [] => inr None
  | part :: rest =>
      match part_inlineData part with
      | Some d =>
          match blob_mimeType d with
          | Some type =>
              if Js.startsWith "image/" type
              then inr (Some {| data := Js.template (blob_data d); mimeType := type |})
              else find_image_part rest
          | None => inl (ErrorObj msg_type_error_mimeType)
          end
      | None => find_image_part rest
      end
  end.

Definition editImage_params (base64Image mime prompt : string) : GenerateContentParameters :=
  {| gc_model := "gemini-2.5-flash-image";
     gc_parts := [ {| inlineData := Some {| data := base64Image; mimeType := mime |};
                      text := None |};
                   {| inlineData := None; text := Some prompt |} ];
     gc_responseModalities := ["IMAGE"] |}.

(** What follows the awaited call inside the [try]: the loop over
    [response.candidates[0].content.parts], and the [throw] after it. *)
Definition read_answer (response : GenerateContentResponse) : Thrown + InlineData :=
  match candidates response with
  | None => inl (ErrorObj msg_type_error_index)
  | Some [] => inl (ErrorObj msg_type_error_candidates)
  | Some (c :: _) =>
      match content c with
      | None => inl (ErrorObj msg_type_error_content)
      | Some ct =>
          match parts ct with
          | None => inl (ErrorObj msg_type_error_parts)
          | Some ps =>
              match find_image_part ps with
              | inl e => inl e
              | inr (Some d) => inr d
              | inr None => inl (ErrorObj msg_no_image)
              end
          end
      end
  end.

Definition editImageWithPrompt (base64Image mime prompt : string) : M W InlineData :=
  try_catch
    (let params := editImage_params base64Image mime prompt in
     emit (EGenerateContent params) ;;;
     response <- call (generateContent P params) ;;
     of_sum (read_answer response))
    (fun error =>
       emit (EConsoleError "Error editing image with Gemini:") ;;;
       match error with
       | ErrorObj m => throw (ErrorObj (msg_failed_image +:+ m))
       | OtherThrown _ => throw (ErrorObj msg_unexpected_image)
       end).

(** [!operation.done] is false only for [done === true]. *)
Definition is_done (operation : Operation) : bool :=
  match done operation with
  | Some true => true
  | _ => false
  end.

(** [operation.response?.generatedVideos?.[0]?.video?.uri]. *)
Definition downloadLink (operation : Operation) : option string :=
  r ← response operation;
  vs ← generatedVideos r;
  v ← head vs;
  vid ← video v;
  uri vid.

Definition poll_interval : Z := 10000.

(** The [while (!operation.done)] loop; [fuel] bounds the number of rounds. *)
Fixpoint poll (fuel : nat) (operation : Operation) : M W Operation :=
  if is_done operation then ret operation
  else
    match fuel with
    | O => pending
    | S fuel' =>
        emit (ESetTimeout poll_interval) ;;;
        (fun b => (Resolved tt, set_ext (setTimeout P poll_interval (ext b)) b)) ;;;
        emit (EGetVideosOperation operation) ;;;
        operation' <- call (getVideosOperation P operation) ;;
        poll fuel' operation'
    end.

(** The browser after one round of the loop that asked for [operation]. *)
Definition after_round (operation : Operation) (w : W) (b : Browser W) : Browser W :=
  {| ext := w; localStorage := localStorage b; objectURLs := objectURLs b;
     nextObjectURL := nextObjectURL b;
     trace := trace b ++ [ESetTimeout poll_interval; EGetVideosOperation operation] |}.

Definition generateVideos_params (prompt : string) (aspectRatio : AspectRatio)
    (startingImage : option InlineData) : GenerateVideosParameters :=
  {| gv_model := "veo-3.1-fast-generate-preview";
     gv_prompt := prompt;
     gv_image := startingImage;
     gv_numberOfVideos := 1;
     gv_aspectRatio := aspectRatio;
     gv_resolution := "720p" |}.

(** What follows the loop inside the [try]: the link, the download, the URL. *)
Definition retrieve (operation : Operation) : M W string :=
  match downloadLink operation with
  | Some link =>
      if Js.truthy link then
        key <- (fun b => (Resolved (API_KEY P (ext b)), b)) ;;
        let url := link +:+ "&key=" +:+ key in
        emit (EFetch url) ;;;
        resp <- call (fetch P url) ;;
        if ok resp then
          videoBlob <- of_sum (blob resp) ;;
          createObjectURL videoBlob
        else throw (ErrorObj (msg_download_failed +:+ pretty (status resp)))
      else throw (ErrorObj msg_no_download_link)
  | None => throw (ErrorObj msg_no_download_link)
  end.

(** The [try] block up to the end of the loop: the final status. *)
Definition await_done (fuel : nat) (prompt : string) (aspectRatio : AspectRatio)
    (startingImage : option InlineData) : M W Operation :=
  let params := generateVideos_params prompt aspectRatio startingImage in
  emit (EGenerateVideos params) ;;;
  operation <- call (generateVideos P params) ;;
  poll fuel operation.

(** The body of the [try] block. *)
Definition generateVideo_try (fuel : nat) (prompt : string) (aspectRatio : AspectRatio)
    (startingImage : option InlineData) : M W string :=
  operation <- await_done fuel prompt aspectRatio startingImage ;;
  retrieve operation.

(** [errorContent] of the [catch] block; none is [undefined]. *)
Definition errorContent (error : Thrown) : option string :=
  match error with
  | ErrorObj m => Some m
  | OtherThrown t => t
  end.

(** Calling [.includes] on an [errorContent] that is [undefined]: a
    [TypeError], raised inside the [catch] block (its text is the engine's;
    V8's is given). *)
Definition msg_type_error_includes : string :=
  "Cannot read properties of undefined (reading 'includes')".

(** The error the [catch] block ends with for [error]: one of its three
    [throw] statements, or the [TypeError] of its first test. *)
Definition classify (error : Thrown) : Thrown :=
  match errorContent error with
  | None => ErrorObj msg_type_error_includes
  | Some content =>
      if Js.includes signature_entity_not_found content then
        ErrorObj msg_invalid_key
      else
        match error with
        | ErrorObj m => ErrorObj (msg_failed_video +:+ m)
        | OtherThrown _ => ErrorObj msg_unexpected_video
        end
  end.

Definition generateVideo_catch (error : Thrown) : M W string :=
  emit (EConsoleError "Error generating video with Veo:") ;;;
  throw (classify error).

Definition generateVideoWithPrompt (fuel : nat) (prompt : string)
    (aspectRatio : AspectRatio) (startingImage : option InlineData) : M W string :=
  try_catch (generateVideo_try fuel prompt aspectRatio startingImage) generateVideo_catch.

End WithProvider.
End GeminiService.

(* ================================================================== *)
(** ** JSON values ([JSON.parse] and [JSON.stringify] are the platform's) *)
(* ================================================================== *)

Module JSON.

Inductive t : Type :=
  | Null
  | Bool (b : bool)
  | Number (lexeme : string)
  | Str (s : string)
  | Array (items : list t)
  | Object (members : list (string * t)).

(** The platform's two functions. [parse s = None] is the [SyntaxError] that
    [JSON.parse(s)] throws. *)
Record Lib := {
  parse : string -> option t;
  stringify : t -> string;
}.

(** [v[k]] on an object; of a repeated key the parser keeps the last. *)
Fixpoint member (k : string) (members : list (string * t)) : option t :=
  match members with
  | [] => None
  | (k', v) :: rest =>
      match member k rest with
      | Some v' => Some v'
      | None => if String.eqb k k' then Some v else None
      end
  end.

Definition string_member (k : string) (v : t) : string :=
  match v with
  | Object ms =>
      match member k ms with
      | Some (Str s) => s
      | _ => EmptyString
      end
  | _ => EmptyString
  end.

End JSON.

(* ================================================================== *)
(** ** types.ts *)
(* ================================================================== *)

(** A [File] the user picked. *)
Record File := { file_name : string; file_type : string; file_bytes : Blob }.

Module ImageFile.

Record t := {
  file : option File;
  base64 : string;
  mimeType : string;
  dataURL : string;
}.

(** The object the editor persists: [{ base64, mimeType, dataURL }]. *)
Definition to_JSON (i : t) : JSON.t :=
  JSON.Object [ ("base64", JSON.Str (base64 i));
                ("mimeType", JSON.Str (mimeType i));
                ("dataURL", JSON.Str (dataURL i)) ].

(** A parsed value read at the type the source declares for it
    ([setOriginalImage(JSON.parse(savedOriginal))]: TypeScript checks nothing
    at run time). An object written by [to_JSON] is read back exactly; [null]
    is no image. Of a value of another shape the record keeps the string
    properties it has. *)
Definition of_JSON (v : JSON.t) : option t :=
  match v with
  | JSON.Object _ =>
      Some {| file := None;
              base64 := JSON.string_member "base64" v;
              mimeType := JSON.string_member "mimeType" v;
              dataURL := JSON.string_member "dataURL" v |}
  | _ => None
  end.

End ImageFile.

(** [string[]] to and from JSON. *)
Definition history_to_JSON (h : list string) : JSON.t :=
  JSON.Array (map JSON.Str h).

Definition history_of_JSON (v : JSON.t) : list string :=
  match v with
  | JSON.Array items =>
      omap (fun x => match x with JSON.Str s => Some s | _ => None end) items
  | _ => []
  end.

(* ================================================================== *)
(** ** The browser's [localStorage] and console *)
(* ================================================================== *)

Definition getItem {W} (k : string) (b : Browser W) : option string :=
  localStorage b !! k.

Definition set_localStorage {W} (ls : gmap string string) (b : Browser W) : Browser W :=
  {| ext := ext b; localStorage := ls; objectURLs := objectURLs b;
     nextObjectURL := nextObjectURL b; trace := trace b |}.

(** [localStorage.setItem(k, v)] in a store that takes the value; under a
    quota the call is [Quota.setItem] below. *)
Definition setItem {W} (k v : string) (b : Browser W) : Browser W :=
  set_localStorage (<[k := v]> (localStorage b)) b.

Definition removeItem {W} (k : string) (b : Browser W) : Browser W :=
  set_localStorage (delete k (localStorage b)) b.

(** [localStorage.clear()]. *)
Definition clear {W} (b : Browser W) : Browser W :=
  set_localStorage ∅ b.

Definition console_error {W} (msg : string) (b : Browser W) : Browser W :=
  add_trace [EConsoleError msg] b.

(* ================================================================== *)
(** ** components/ImageEditor.tsx *)
(* ================================================================== *)

Module ImageEditor.

(** ['image/png' | 'image/jpeg']. *)
Inductive OutputFormat : Type := PNG | JPEG.

Definition mime (f : OutputFormat) : string :=
  match f with
  | PNG => "image/png"
  | JPEG => "image/jpeg"
  end.

(** The component's [useState] cells. *)
Record State := {
  originalImage : option ImageFile.t;
  editedImage : option string;
  prompt : string;
  isLoading : bool;
  error : option string;
  outputFormat : OutputFormat;
  history : list string;
}.

Definition initial : State :=
  {| originalImage := None; editedImage := None; prompt := EmptyString;
     isLoading := false; error := None; outputFormat := PNG; history := [] |}.

Definition setOriginalImage (v : option ImageFile.t) (s : State) : State :=
  {| originalImage := v; editedImage := editedImage s; prompt := prompt s;
     isLoading := isLoading s; error := error s; outputFormat := outputFormat s;
     history := history s |}.

Definition setEditedImage (v : option string) (s : State) : State :=
  {| originalImage := originalImage s; editedImage := v; prompt := prompt s;
     isLoading := isLoading s; error := error s; outputFormat := outputFormat s;
     history := history s |}.

Definition setPrompt (v : string) (s : State) : State :=
  {| originalImage := originalImage s; editedImage := editedImage s; prompt := v;
     isLoading := isLoading s; error := error s; outputFormat := outputFormat s;
     history := history s |}.

Definition setIsLoading (v : bool) (s : State) : State :=
  {| originalImage := originalImage s; editedImage := editedImage s; prompt := prompt s;
     isLoading := v; error := error s; outputFormat := outputFormat s;
     history := history s |}.

Definition setError (v : option string) (s : State) : State :=
  {| originalImage := originalImage s; editedImage := editedImage s; prompt := prompt s;
     isLoading := isLoading s; error := v; outputFormat := outputFormat s;
     history := history s |}.

Definition setOutputFormat (v : OutputFormat) (s : State) : State :=
  {| originalImage := originalImage s; editedImage := editedImage s; prompt := prompt s;
     isLoading := isLoading s; error := error s; outputFormat := v;
     history := history s |}.

Definition setHistory (v : list string) (s : State) : State :=
  {| originalImage := originalImage s; editedImage := editedImage s; prompt := prompt s;
     isLoading := isLoading s; error := error s; outputFormat := outputFormat s;
     history := v |}.

Section WithPlatform.

Context {W : Type} (P : Provider W) (C : Canvas.Platform) (J : JSON.Lib).

Local Open Scope js_scope.

Definition msg_no_context : string := "Could not get canvas context".
Definition msg_image_loading_failed : string :=
  "Image loading failed for conversion: [object Event]".
Definition msg_missing_input : string :=
  "Please upload an image and provide an editing prompt.".
Definition msg_unknown : string := "An unknown error occurred. Please try again.".
Definition msg_load_failed : string := "Failed to load state from localStorage".

(** [`data:${mimeType};base64,${base64}`]. *)
Definition data_url (mimeType base64 : string) : string :=
  "data:" +:+ mimeType +:+ ";base64," +:+ base64.

(** The quality handed to the encoder, 0.9. *)
Definition quality : Z * Z := (9, 10)%Z.

(** The calls of [img.onload] on the context, in source order. *)
Definition onload_commands (toMimeType : OutputFormat) (img : Canvas.Raster) : list Canvas.Cmd :=
  match toMimeType with
  | JPEG => [Canvas.SetFillStyle "#FFFFFF";
             Canvas.FillRect 0 0 (Canvas.width img) (Canvas.height img)]
  | PNG => []
  end ++ [Canvas.DrawImage img 0 0].

(** The canvas as it is when [toDataURL] reads it. *)
Definition rendered (toMimeType : OutputFormat) (img : Canvas.Raster) : Canvas.Raster :=
  Canvas.canvas
    (Canvas.exec (onload_commands toMimeType img)
       (Canvas.getContext (Canvas.create (Canvas.width img) (Canvas.height img)))).

Fixpoint emit_all (es : list Event) : M W unit :=
  match es with
  | [] => ret tt
  | e :: rest => emit e ;;; emit_all rest
  end.

Definition convertImageFormat (base64Data fromMimeType : string)
    (toMimeType : OutputFormat) : M W string :=
  let src := data_url fromMimeType base64Data in
  emit (EImageLoad src) ;;;
  match Canvas.decode C src with
  | None => throw (ErrorObj msg_image_loading_failed)
  | Some img =>
      if Canvas.getContext2d C then
        emit_all (map ECanvas (onload_commands toMimeType img)) ;;;
        emit (EToDataURL (mime toMimeType) quality) ;;;
        ret (Canvas.toDataURL C (mime toMimeType) quality (rendered toMimeType img))
      else throw (ErrorObj msg_no_context)
  end.

(** The [useEffect] that runs once after the first render. Each setter that
    ran before an exception keeps its effect; [inl] is the state reached when
    [JSON.parse] threw. *)
Definition load_original (saved : option string) (st : State) : State + State :=
  match saved with
  | Some s =>
      if Js.truthy s then
        match JSON.parse J s with
        | Some v => inr (setOriginalImage (ImageFile.of_JSON v) st)
        | None => inl st
        end
      else inr st
  | None => inr st
  end.

Definition load_edited (saved : option string) (st : State) : State :=
  if Js.truthy_opt saved then setEditedImage saved st else st.

Definition load_history (saved : option string) (st : State) : State + State :=
  match saved with
  | Some s =>
      if Js.truthy s then
        match JSON.parse J s with
        | Some v => inr (setHistory (history_of_JSON v) st)
        | None => inl st
        end
      else inr st
  | None => inr st
  end.

Definition load_try (savedOriginal savedEdited savedHistory : option string)
    (st : State) : State + State :=
  match load_original savedOriginal st with
  | inl st' => inl st'
  | inr st1 => load_history savedHistory (load_edited savedEdited st1)
  end.

(** [JSON.parse] throws on one of the two keys the effect parses. *)
Definition unparseable (k : string) (b : Browser W) : Prop :=
  exists s, getItem k b = Some s /\ Js.truthy s = true /\ JSON.parse J s = None.

Definition load (page : State * Browser W) : State * Browser W :=
  let '(st, b) := page in
  let savedOriginal := getItem "originalImage" b in
  let savedEdited := getItem "editedImage" b in
  let savedHistory := getItem "editHistory" b in
  match load_try savedOriginal savedEdited savedHistory st with
  | inr st' => (st', b)
  | inl st' => (st', clear (console_error msg_load_failed b))
  end.

(** [handleImageChange], with the [reader.result] that [onloadend] finds. *)
Definition handleImageChange (file : option File) (result : string)
    (page : State * Browser W) : State * Browser W :=
  let '(st, b) := page in
  match file with
  | None => page
  | Some f =>
      let base64String := nth 1 (Js.split "," result) EmptyString in
      let newImage :=
        {| ImageFile.file := Some f; ImageFile.base64 := base64String;
           ImageFile.mimeType := file_type f; ImageFile.dataURL := result |} in
      (setHistory [] (setError None (setEditedImage None
         (setOriginalImage (Some newImage) st))),
       removeItem "editHistory" (removeItem "editedImage"
         (setItem "originalImage" (JSON.stringify J (ImageFile.to_JSON newImage)) b)))
  end.

Definition handleRemoveImage (page : State * Browser W) : State * Browser W :=
  let '(st, b) := page in
  (setHistory [] (setError None (setEditedImage None (setOriginalImage None st))),
   removeItem "editHistory" (removeItem "editedImage" (removeItem "originalImage" b))).

(** Lines 124 to 129 of [handleSubmit]: the generated image in the selected
    output format. *)
Definition normalize (outputFormat : OutputFormat) (generated : InlineData) : M W string :=
  if bool_decide (mimeType generated ≠ mime outputFormat) then
    convertImageFormat (data generated) (mimeType generated) outputFormat
  else ret (data_url (mimeType generated) (data generated)).

(** The two awaited calls of the [try] block, for the render [closure] in
    which the handler was created. *)
Definition produce (closure : State) (original : ImageFile.t) : M W string :=
  generated <- GeminiService.editImageWithPrompt P
                 (ImageFile.base64 original) (ImageFile.mimeType original)
                 (prompt closure) ;;
  normalize (outputFormat closure) generated.

(** [handleSubmit] up to its first [await]. *)
Definition handleSubmit_begin (st : State) : State * option ImageFile.t :=
  match originalImage st with
  | Some original =>
      if Js.truthy (prompt st) then (setError None (setIsLoading true st), Some original)
      else (setError (Some msg_missing_input) st, None)
  | None => (setError (Some msg_missing_input) st, None)
  end.

(** [handleSubmit] from the point where the awaited calls have settled: the
    rest of the [try], or the [catch], then the [finally]. [history] is the
    closure's. *)
Definition handleSubmit_settle (closure : State) (r : Outcome string)
    (page : State * Browser W) : State * Browser W :=
  let '(st, b) := page in
  match r with
  | Resolved finalImageDataUrl =>
      let newHistory := history closure ++ [finalImageDataUrl] in
      (setIsLoading false
         (setHistory newHistory (setEditedImage (Some finalImageDataUrl) st)),
       setItem "editHistory" (JSON.stringify J (history_to_JSON newHistory))
         (setItem "editedImage" finalImageDataUrl b))
  | Rejected err =>
      (setIsLoading false
         (setError (Some match err with
                         | ErrorObj m => m
                         | OtherThrown _ => msg_unknown
                         end) st),
       console_error (match err with
                      | ErrorObj m => m
                      | OtherThrown t => default "undefined" t
                      end) b)
  | Pending => page
  end.

(** A click on Generate with nothing else happening before it settles. *)
Definition handleSubmit (page : State * Browser W) : State * Browser W :=
  let '(st, b) := page in
  match handleSubmit_begin st with
  | (st1, None) => (st1, b)
  | (st1, Some original) =>
      let '(r, b') := produce st original b in
      handleSubmit_settle st r (st1, b')
  end.

Definition handleRevertToHistory (imageDataUrl : string)
    (page : State * Browser W) : State * Browser W :=
  let '(st, b) := page in
  (setEditedImage (Some imageDataUrl) st, setItem "editedImage" imageDataUrl b).

Definition handleClearHistory (page : State * Browser W) : State * Browser W :=
  let '(st, b) := page in
  (setHistory [] st, removeItem "editHistory" b).

(** The durable store holds what the session state holds, key by key. *)
Definition mirrors_original (st : State) (b : Browser W) : Prop :=
  getItem "originalImage" b
  = (fun i => JSON.stringify J (ImageFile.to_JSON i)) <$> originalImage st.

Definition mirrors_edited (st : State) (b : Browser W) : Prop :=
  getItem "editedImage" b = editedImage st.

Definition mirrors_history (st : State) (b : Browser W) : Prop :=
  getItem "editHistory" b
  = match history st with
    | [] => None
    | h => Some (JSON.stringify J (history_to_JSON h))
    end.

Definition mirrors (page : State * Browser W) : Prop :=
  mirrors_original (page.1) (page.2) ∧ mirrors_edited (page.1) (page.2)
  ∧ mirrors_history (page.1) (page.2).

End WithPlatform.
End ImageEditor.

(* ================================================================== *)
(** ** components/ImageEditor.tsx: a store that can refuse, a component that
       can be gone *)
(* ================================================================== *)

(** The handlers of [ImageEditor] above are the handlers as they run in a
    mounted component whose store takes what it is given. Two things can come
    between a setter and the store. [localStorage.setItem] throws when the
    value does not fit the quota: in [handleSubmit] inside the [try], after
    the setters have run; in the other handlers with nothing to catch it.
    And the component can be unmounted by the time a file read ends or an
    awaited call settles: its setters then do nothing, while the store is
    written all the same. The handlers that call [setItem] are given here with
    both. *)
Module Quota.

Import ImageEditor.

(** [refuses ls k v] is what [localStorage.setItem(k, v)] throws when the
    store holds [ls], if it throws. *)
Record Storage := {
  refuses : gmap string string -> string -> string -> option Thrown;
}.

(** A store that takes everything. *)
Definition unlimited : Storage := {| refuses := fun _ _ _ => None |}.

Section WithStorage.

Context {W : Type} (P : Provider W) (C : Canvas.Platform) (J : JSON.Lib) (Q : Storage).

(** [localStorage.setItem(k, v)]. *)
Definition setItem (k v : string) (b : Browser W) : Thrown + Browser W :=
  match refuses Q (localStorage b) k v with
  | Some e => inl e
  | None => inr (set_localStorage (<[k := v]> (localStorage b)) b)
  end.

(** A setter of a component that is [mounted], or not. *)
Definition set_state (mounted : bool) (f : State -> State) (st : State) : State :=
  if mounted then f st else st.

(** [err instanceof Error ? err.message : "An unknown error occurred. ..."]. *)
Definition shown (err : Thrown) : string :=
  match err with
  | ErrorObj m => m
  | OtherThrown _ => msg_unknown
  end.

(** The [catch] and the [finally] of [handleSubmit]. *)
Definition handleSubmit_catch (mounted : bool) (err : Thrown)
    (page : State * Browser W) : State * Browser W :=
  let '(st, b) := page in
  (set_state mounted (setIsLoading false)
     (set_state mounted (setError (Some (shown err))) st),
   console_error (match err with
                  | ErrorObj m => m
                  | OtherThrown t => default "undefined" t
                  end) b).

(** [handleSubmit] from the point where the awaited calls have settled, for
    the render [closure] in which the handler was created. [page] holds the
    state of the component, which the setters reach only if it is [mounted]. *)
Definition handleSubmit_settle (mounted : bool) (closure : State) (r : Outcome string)
    (page : State * Browser W) : State * Browser W :=
  let '(st, b) := page in
  match r with
  | Resolved finalImageDataUrl =>
      let newHistory := history closure ++ [finalImageDataUrl] in
      let st1 := set_state mounted (setHistory newHistory)
                   (set_state mounted (setEditedImage (Some finalImageDataUrl)) st) in
      match setItem "editedImage" finalImageDataUrl b with
      | inl err => handleSubmit_catch mounted err (st1, b)
      | inr b1 =>
          match setItem "editHistory" (JSON.stringify J (history_to_JSON newHistory)) b1 with
          | inl err => handleSubmit_catch mounted err (st1, b1)
          | inr b2 => (set_state mounted (setIsLoading false) st1, b2)
          end
      end
  | Rejected err => handleSubmit_catch mounted err page
  | Pending => page
  end.

(** A click on Generate in a component that stays mounted, with nothing else
    happening before it settles. *)
Definition handleSubmit (page : State * Browser W) : State * Browser W :=
  let '(st, b) := page in
  match handleSubmit_begin st with
  | (st1, None) => (st1, b)
  | (st1, Some original) =>
      let '(r, b') := produce P C st original b in
      handleSubmit_settle true st r (st1, b')
  end.

(** [reader.onloadend] of [handleImageChange]: the exception that leaves the
    callback, if any, and the page. *)
Definition handleImageChange (mounted : bool) (file : option File) (result : string)
    (page : State * Browser W) : option Thrown * (State * Browser W) :=
  let '(st, b) := page in
  match file with
  | None => (None, page)
  | Some f =>
      let base64String := nth 1 (Js.split "," result) EmptyString in
      let newImage :=
        {| ImageFile.file := Some f; ImageFile.base64 := base64String;
           ImageFile.mimeType := file_type f; ImageFile.dataURL := result |} in
      let st1 := set_state mounted (setHistory [])
                   (set_state mounted (setError None)
                      (set_state mounted (setEditedImage None)
                         (set_state mounted (setOriginalImage (Some newImage)) st))) in
      match setItem "originalImage" (JSON.stringify J (ImageFile.to_JSON newImage)) b with
      | inl err => (Some err, (st1, b))
      | inr b1 => (None, (st1, removeItem "editHistory" (removeItem "editedImage" b1)))
      end
  end.

(** [handleRevertToHistory], a click: the exception that leaves it, if any,
    and the page. *)
Definition handleRevertToHistory (imageDataUrl : string)
    (page : State * Browser W) : option Thrown * (State * Browser W) :=
  let '(st, b) := page in
  let st1 := setEditedImage (Some imageDataUrl) st in
  match setItem "editedImage" imageDataUrl b with
  | inl err => (Some err, (st1, b))
  | inr b1 => (None, (st1, b1))
  end.

End WithStorage.
End Quota.

(* ================================================================== *)
(** ** components/VideoGenerator.tsx *)
(* ================================================================== *)

Module VideoGenerator.

(** The component's [useState] cells. *)
Record State := {
  prompt : string;
  aspectRatio : AspectRatio;
  startingImage : option ImageFile.t;
  isLoading : bool;
  loadingMessage : string;
  error : option string;
  videoUrl : option string;
  isKeySelected : bool;
}.

Definition initial : State :=
  {| prompt := EmptyString; aspectRatio := Landscape_16_9; startingImage := None;
     isLoading := false; loadingMessage := EmptyString; error := None;
     videoUrl := None; isKeySelected := false |}.

Definition setPrompt (v : string) (s : State) : State :=
  {| prompt := v; aspectRatio := aspectRatio s; startingImage := startingImage s;
     isLoading := isLoading s; loadingMessage := loadingMessage s; error := error s;
     videoUrl := videoUrl s; isKeySelected := isKeySelected s |}.

Definition setAspectRatio (v : AspectRatio) (s : State) : State :=
  {| prompt := prompt s; aspectRatio := v; startingImage := startingImage s;
     isLoading := isLoading s; loadingMessage := loadingMessage s; error := error s;
     videoUrl := videoUrl s; isKeySelected := isKeySelected s |}.

Definition setStartingImage (v : option ImageFile.t) (s : State) : State :=
  {| prompt := prompt s; aspectRatio := aspectRatio s; startingImage := v;
     isLoading := isLoading s; loadingMessage := loadingMessage s; error := error s;
     videoUrl := videoUrl s; isKeySelected := isKeySelected s |}.

Definition setIsLoading (v : bool) (s : State) : State :=
  {| prompt := prompt s; aspectRatio := aspectRatio s; startingImage := startingImage s;
     isLoading := v; loadingMessage := loadingMessage s; error := error s;
     videoUrl := videoUrl s; isKeySelected := isKeySelected s |}.

Definition setLoadingMessage (v : string) (s : State) : State :=
  {| prompt := prompt s; aspectRatio := aspectRatio s; startingImage := startingImage s;
     isLoading := isLoading s; loadingMessage := v; error := error s;
     videoUrl := videoUrl s; isKeySelected := isKeySelected s |}.

Definition setError (v : option string) (s : State) : State :=
  {| prompt := prompt s; aspectRatio := aspectRatio s; startingImage := startingImage s;
     isLoading := isLoading s; loadingMessage := loadingMessage s; error := v;
     videoUrl := videoUrl s; isKeySelected := isKeySelected s |}.

Definition set_videoUrl (v : option string) (s : State) : State :=
  {| prompt := prompt s; aspectRatio := aspectRatio s; startingImage := startingImage s;
     isLoading := isLoading s; loadingMessage := loadingMessage s; error := error s;
     videoUrl := v; isKeySelected := isKeySelected s |}.

Definition setIsKeySelected (v : bool) (s : State) : State :=
  {| prompt := prompt s; aspectRatio := aspectRatio s; startingImage := startingImage s;
     isLoading := isLoading s; loadingMessage := loadingMessage s; error := error s;
     videoUrl := videoUrl s; isKeySelected := v |}.

Definition msg_no_prompt : string := "Please provide a prompt for the video.".
Definition msg_no_key : string := "Please select an API key before generating a video.".
Definition msg_initiating : string :=
  "Initiating video generation... this may take a few minutes.".
Definition msg_unknown : string := "An unknown error occurred.".
Definition key_error_marker : string := "API key not found".

(** A call of [generateVideoWithPrompt] that has not settled, and the mounted
    component that made it. *)
Record Job := {
  job_instance : nat;
  job_prompt : string;
  job_aspectRatio : AspectRatio;
  job_startingImage : option InlineData;
}.

(** What the user and the network do to the page. *)
Inductive Action : Type :=
  | Mount (hasSelectedApiKey : bool)
  | Unmount
  | TypePrompt (s : string)
  | PickAspectRatio (r : AspectRatio)
  | PickImage (i : option ImageFile.t)
  | SelectKey (aistudio : bool)
  | ClickGenerate
  | Settle (n : nat) (fuel : nat).

Section WithProvider.

Context {W : Type} (P : Provider W).

(** [if (videoUrl) { URL.revokeObjectURL(videoUrl); }]: the statement of
    [handleSubmit], and the cleanup of the effect on [videoUrl] for the value of
    the render that installed it. *)
Definition revoke_if_set (url : option string) (b : Browser W) : Browser W :=
  match url with
  | Some u => if Js.truthy u then revokeObjectURL u b else b
  | None => b
  end.

Definition cleanup (url : option string) (b : Browser W) : Browser W :=
  revoke_if_set url b.

(** [setVideoUrl(v)] with the render it causes: when the value changes, the
    cleanup installed by the previous render runs. (React runs it at its next
    render, before any awaited call settles; the model runs it at the call.) *)
Definition setVideoUrl (v : option string) (view : State * Browser W) : State * Browser W :=
  let '(st, b) := view in
  if decide (videoUrl st = v) then view
  else (set_videoUrl v st, cleanup (videoUrl st) b).

Definition inline_of (i : ImageFile.t) : InlineData :=
  {| data := ImageFile.base64 i; mimeType := ImageFile.mimeType i |}.

(** [handleSubmit] up to its [await]: the new view, and the call it makes. *)
Definition handleSubmit_begin (view : State * Browser W)
    : State * Browser W * option (string * AspectRatio * option InlineData) :=
  let '(st, b) := view in
  if negb (Js.truthy (prompt st)) then ((setError (Some msg_no_prompt) st, b), None)
  else if negb (isKeySelected st) then ((setError (Some msg_no_key) st, b), None)
  else
    let st1 := setError None (setIsLoading true st) in
    let b1 := revoke_if_set (videoUrl st) b in
    let '(st2, b2) := setVideoUrl None (st1, b1) in
    ((setLoadingMessage msg_initiating st2, b2),
     Some (prompt st, aspectRatio st, inline_of <$> startingImage st)).

(** [handleSubmit] once the awaited call has settled: the rest of the [try],
    or the [catch], then the [finally]. *)
Definition handleSubmit_settle (r : Outcome string) (view : State * Browser W)
    : State * Browser W :=
  match r with
  | Resolved generatedUrl =>
      let '(st, b) := setVideoUrl (Some generatedUrl) view in
      (setLoadingMessage EmptyString (setIsLoading false st), b)
  | Rejected err =>
      let '(st, b) := view in
      let errorMessage := match err with
                          | ErrorObj m => m
                          | OtherThrown _ => msg_unknown
                          end in
      let st1 := setError (Some errorMessage) st in
      let st2 := if Js.includes key_error_marker errorMessage
                 then setIsKeySelected false st1 else st1 in
      (setLoadingMessage EmptyString (setIsLoading false st2), b)
  | Pending => view
  end.

(** A click on Generate Video with nothing else happening before the call
    settles. *)
Definition handleSubmit (fuel : nat) (view : State * Browser W) : State * Browser W :=
  match handleSubmit_begin view with
  | (view1, None) => view1
  | ((st1, b1), Some (p, r, i)) =>
      let '(res, b2) := GeminiService.generateVideoWithPrompt P fuel p r i b1 in
      handleSubmit_settle res (st1, b2)
  end.

(** The page: the browser, the mounted [VideoGenerator] (with the number of
    its mount) if the App shows it ([mode === 'video']), and the calls in
    flight. A call in flight is run as a whole when it settles; the setters it
    then calls reach the view that made it only if that view is still mounted
    (a state update on an unmounted component does nothing). *)
Record Page := {
  browser : Browser W;
  view : option (nat * State);
  mounts : nat;
  jobs : list Job;
}.

Definition with_view (st : State) (pg : Page) : Page :=
  match view pg with
  | Some (i, _) =>
      {| browser := browser pg; view := Some (i, st); mounts := mounts pg; jobs := jobs pg |}
  | None => pg
  end.

(** Whether the Generate Video button is shown and enabled. *)
Definition can_generate (st : State) : bool :=
  isKeySelected st && Js.truthy (prompt st) && negb (isLoading st).

Definition step (a : Action) (pg : Page) : Page :=
  match a, view pg with
  | Mount hasKey, None =>
      {| browser := browser pg;
         view := Some (mounts pg, if hasKey then setIsKeySelected true initial else initial);
         mounts := S (mounts pg); jobs := jobs pg |}
  | Mount _, Some _ => pg
  | Unmount, Some (_, st) =>
      {| browser := cleanup (videoUrl st) (browser pg); view := None;
         mounts := mounts pg; jobs := jobs pg |}
  | TypePrompt s, Some (_, st) =>
      if isKeySelected st && negb (isLoading st) then with_view (setPrompt s st) pg else pg
  | PickAspectRatio r, Some (_, st) =>
      if isKeySelected st && negb (isLoading st) then with_view (setAspectRatio r st) pg
      else pg
  | PickImage i, Some (_, st) =>
      if isKeySelected st && (negb (isLoading st) || negb (bool_decide (is_Some i)))
      then with_view (setStartingImage i st) pg else pg
  | SelectKey aistudio, Some (_, st) =>
      if negb (isKeySelected st) && aistudio then with_view (setIsKeySelected true st) pg
      else pg
  | ClickGenerate, Some (i, st) =>
      if can_generate st then
        match handleSubmit_begin (st, browser pg) with
        | ((st', b'), Some (p, r, img)) =>
            {| browser := b'; view := Some (i, st'); mounts := mounts pg;
               jobs := jobs pg ++ [ {| job_instance := i; job_prompt := p;
                                       job_aspectRatio := r;
                                       job_startingImage := img |} ] |}
        | ((st', b'), None) =>
            {| browser := b'; view := Some (i, st'); mounts := mounts pg; jobs := jobs pg |}
        end
      else pg
  | Settle n fuel, v =>
      match jobs pg !! n with
      | None => pg
      | Some job =>
          match GeminiService.generateVideoWithPrompt P fuel (job_prompt job)
                  (job_aspectRatio job) (job_startingImage job) (browser pg) with
          | (Pending, _) => pg
          | (res, b') =>
              match v with
              | Some (i, st) =>
                  if bool_decide (i = job_instance job) then
                    let '(st', b'') := handleSubmit_settle res (st, b') in
                    {| browser := b''; view := Some (i, st'); mounts := mounts pg;
                       jobs := delete n (jobs pg) |}
                  else
                    {| browser := b'; view := v; mounts := mounts pg;
                       jobs := delete n (jobs pg) |}
              | None =>
                  {| browser := b'; view := None; mounts := mounts pg;
                     jobs := delete n (jobs pg) |}
              end
          end
      end
  | _, None => pg
  end.

(** The pages a run goes through, the first one left out. *)
Fixpoint run (acts : list Action) (pg : Page) : list Page :=
  match acts with
  | [] => []
  | a :: rest => step a pg :: run rest (step a pg)
  end.

(** No view is torn down while a call it made is in flight. *)
Fixpoint quiet_teardowns (acts : list Action) (pg : Page) : bool :=
  match acts with
  | [] => true
  | a :: rest =>
      match a, jobs pg with
      | Unmount, _ :: _ => false
      | _, _ => quiet_teardowns rest (step a pg)
      end
  end.

(** The object URL the mounted view holds. *)
Definition held (pg : Page) : list string :=
  match view pg with
  | Some (_, st) =>
      match videoUrl st with
      | Some u => [u]
      | None => []
      end
  | None => []
  end.

Definition start (b : Browser W) : Page :=
  {| browser := b; view := None; mounts := 0; jobs := [] |}.

(** The live object URLs are the one the mounted view holds, if any; a call in
    flight belongs to the mounted view, which is loading and holds no URL. *)
Definition tidy (pg : Page) : Prop :=
  objectURLs (browser pg) = held pg
  /\ (forall u, u ∈ held pg -> Js.truthy u = true)
  /\ match jobs pg with
     | [] => True
     | [job] => exists st, view pg = Some (job_instance job, st)
                           /\ isLoading st = true /\ videoUrl st = None
     | _ :: _ :: _ => False
     end.

End WithProvider.
End VideoGenerator.

(* ================================================================== *)
(** ** A JSON library for byte strings *)
(* ================================================================== *)

Module Ecma.

Definition dquote : ascii := Eval cbv in ascii_of_nat 34.
Definition backslash : ascii := Eval cbv in ascii_of_nat 92.

Definition is_ws (c : ascii) : bool :=
  let n := nat_of_ascii c in
  (n =? 32)%nat || (n =? 9)%nat || (n =? 10)%nat || (n =? 13)%nat.

Fixpoint skip_ws (s : string) : string :=
  match s with
  | String c s' => if is_ws c then skip_ws s' else s
  | EmptyString => s
  end.

Definition is_digit (c : ascii) : bool :=
  let n := nat_of_ascii c in (48 <=? n)%nat && (n <=? 57)%nat.

(** The code point [n] as UTF-8 bytes (a surrogate is written by itself). *)
Definition utf8 (n : Z) : string :=
  let byte (k : Z) := ascii_of_nat (Z.to_nat k) in
  if (n <? 128)%Z then String (byte n) EmptyString
  else if (n <? 2048)%Z then
    String (byte (192 + n / 64)%Z) (String (byte (128 + n mod 64)%Z) EmptyString)
  else
    String (byte (224 + n / 4096)%Z)
      (String (byte (128 + (n / 64) mod 64)%Z) (String (byte (128 + n mod 64)%Z) EmptyString)).

(** The characters of a string literal after its opening quote, and what
    follows the closing quote. *)
Fixpoint string_body (s : string) : option (string * string) :=
  match s with
  | EmptyString => None
  | String c s' =>
      if Ascii.eqb c dquote then Some (EmptyString, s')
      else if Ascii.eqb c backslash then
        match s' with
        | String e s'' =>
            let plain (d : ascii) :=
              match string_body s'' with
              | Some (body, rest) => Some (String d body, rest)
              | None => None
              end in
            if Ascii.eqb e dquote then plain dquote
            else if Ascii.eqb e backslash then plain backslash
            else if Ascii.eqb e "/" then plain "/"%char
            else if Ascii.eqb e "b" then plain (ascii_of_nat 8)
            else if Ascii.eqb e "f" then plain (ascii_of_nat 12)
            else if Ascii.eqb e "n" then plain (ascii_of_nat 10)
            else if Ascii.eqb e "r" then plain (ascii_of_nat 13)
            else if Ascii.eqb e "t" then plain (ascii_of_nat 9)
            else if Ascii.eqb e "u" then
              match s'' with
              | String h3 (String h2 (String h1 (String h0 s3))) =>
                  match Canvas.hex_digit h3, Canvas.hex_digit h2,
                        Canvas.hex_digit h1, Canvas.hex_digit h0, string_body s3 with
                  | Some a, Some b, Some c', Some d, Some (body, rest) =>
                      Some (utf8 (4096 * a + 256 * b + 16 * c' + d)%Z +:+ body, rest)
                  | _, _, _, _, _ => None
                  end
              | _ => None
              end
            else None
        | EmptyString => None
        end
      else if (nat_of_ascii c <? 32)%nat then None
      else
        match string_body s' with
        | Some (body, rest) => Some (String c body, rest)
        | None => None
        end
  end.

Fixpoint digits (s : string) : string * string :=
  match s with
  | String c s' =>
      if is_digit c then let '(d, rest) := digits s' in (String c d, rest)
      else (EmptyString, s)
  | EmptyString => (EmptyString, s)
  end.

(** A number: its lexeme, and what follows it. *)
Definition number (s : string) : option (string * string) :=
  let '(sign, s1) := match s with
                     | String "-" s' => ("-", s')
                     | _ => (EmptyString, s)
                     end in
  let '(int, s2) := digits s1 in
  match int with
  | EmptyString => None
  | String "0" (String _ _) => None
  | _ =>
      let frac :=
        match s2 with
        | String "." s' =>
            let '(f, s3) := digits s' in
            match f with
            | EmptyString => None
            | _ => Some ("." +:+ f, s3)
            end
        | _ => Some (EmptyString, s2)
        end in
      match frac with
      | None => None
      | Some (f, s3) =>
          let exp (e : ascii) (s' : string) :=
            let '(sg, s4) := match s' with
                             | String "+" t => ("+", t)
                             | String "-" t => ("-", t)
                             | _ => (EmptyString, s')
                             end in
            let '(x, s5) := digits s4 in
            match x with
            | EmptyString => None
            | _ => Some (sign +:+ int +:+ f +:+ String e sg +:+ x, s5)
            end in
          match s3 with
          | String "e" s' => exp "e"%char s'
          | String "E" s' => exp "E"%char s'
          | _ => Some (sign +:+ int +:+ f, s3)
          end
      end
  end.

(** [p] at the head of [s]: what follows it. *)
Fixpoint expect (p s : string) : option string :=
  match p, s with
  | EmptyString, _ => Some s
  | String a p', String b s' => if Ascii.eqb a b then expect p' s' else None
  | String _ _, EmptyString => None
  end.

Fixpoint value (fuel : nat) (s : string) : option (JSON.t * string) :=
  match fuel with
  | O => None
  | S fuel' =>
      match skip_ws s with
      | String "n" _ => rest ← expect "null" (skip_ws s); Some (JSON.Null, rest)
      | String "t" _ => rest ← expect "true" (skip_ws s); Some (JSON.Bool true, rest)
      | String "f" _ => rest ← expect "false" (skip_ws s); Some (JSON.Bool false, rest)
      | String "[" s' =>
          match skip_ws s' with
          | String "]" rest => Some (JSON.Array [], rest)
          | _ => '(items, rest) ← elements fuel' s'; Some (JSON.Array items, rest)
          end
      | String "{" s' =>
          match skip_ws s' with
          | String "}" rest => Some (JSON.Object [], rest)
          | _ => '(ms, rest) ← members fuel' s'; Some (JSON.Object ms, rest)
          end
      | String c s' =>
          if Ascii.eqb c dquote then
            '(str, rest) ← string_body s'; Some (JSON.Str str, rest)
          else '(lexeme, rest) ← number (skip_ws s); Some (JSON.Number lexeme, rest)
      | EmptyString => None
      end
  end
with elements (fuel : nat) (s : string) : option (list JSON.t * string) :=
  match fuel with
  | O => None
  | S fuel' =>
      '(v, s1) ← value fuel' s;
      match skip_ws s1 with
      | String "," s2 => '(vs, rest) ← elements fuel' s2; Some (v :: vs, rest)
      | String "]" rest => Some ([v], rest)
      | _ => None
      end
  end
with members (fuel : nat) (s : string) : option (list (string * JSON.t) * string) :=
  match fuel with
  | O => None
  | S fuel' =>
      match skip_ws s with
      | String c s0 =>
          if Ascii.eqb c dquote then
            '(k, s1) ← string_body s0;
            match skip_ws s1 with
            | String ":" s2 =>
                '(v, s3) ← value fuel' s2;
                match skip_ws s3 with
                | String "," s4 => '(ms, rest) ← members fuel' s4; Some ((k, v) :: ms, rest)
                | String "}" rest => Some ([(k, v)], rest)
                | _ => None
                end
            | _ => None
            end
          else None
      | EmptyString => None
      end
  end.

(** [JSON.parse(s)]; [None] is a [SyntaxError]. *)
Definition parse (s : string) : option JSON.t :=
  '(v, rest) ← value (S (String.length s)) s;
  match skip_ws rest with
  | EmptyString => Some v
  | String _ _ => None
  end.

Definition hex_char (n : nat) : ascii :=
  if (n <? 10)%nat then ascii_of_nat (48 + n) else ascii_of_nat (87 + n).

(** A string literal's characters as [JSON.stringify] writes them. *)
Fixpoint escape (s : string) : string :=
  match s with
  | EmptyString => EmptyString
  | String c s' =>
      let n := nat_of_ascii c in
      (if Ascii.eqb c dquote then String backslash (String dquote EmptyString)
       else if Ascii.eqb c backslash then String backslash (String backslash EmptyString)
       else if (n =? 8)%nat then String backslash "b"
       else if (n =? 12)%nat then String backslash "f"
       else if (n =? 10)%nat then String backslash "n"
       else if (n =? 13)%nat then String backslash "r"
       else if (n =? 9)%nat then String backslash "t"
       else if (n <? 32)%nat then
         String backslash ("u00" +:+ String (hex_char (n / 16)%nat)
                                      (String (hex_char (n mod 16)%nat) EmptyString))
       else String c EmptyString) +:+ escape s'
  end.

Definition quoted (s : string) : string :=
  String dquote (escape s +:+ String dquote EmptyString).

Definition join (parts : list string) : string :=
  match parts with
  | [] => EmptyString
  | x :: rest => fold_left (fun acc y => acc +:+ "," +:+ y) rest x
  end.

(** [JSON.stringify(v)]. *)
Fixpoint stringify (v : JSON.t) : string :=
  match v with
  | JSON.Null => "null"
  | JSON.Bool true => "true"
  | JSON.Bool false => "false"
  | JSON.Number lexeme => lexeme
  | JSON.Str s => quoted s
  | JSON.Array items => "[" +:+ join (map stringify items) +:+ "]"
  | JSON.Object ms =>
      "{" +:+ join (map (fun kv => quoted kv.1 +:+ ":" +:+ stringify kv.2) ms) +:+ "}"
  end.

Definition lib : JSON.Lib := {| JSON.parse := parse; JSON.stringify := stringify |}.

End Ecma.

(* ================================================================== *)
(** ** Scripted environments, to run the code on *)
(* ================================================================== *)

Module Scenario.

(** A provider that answers from a script: one answer for an edit, one for a
    video submission, the answers of the successive status queries, and the
    assets the network serves. *)
Record World := {
  key : string;
  edit_answer : Thrown + GenerateContentResponse;
  submit_answer : Thrown + Operation;
  poll_answers : list (Thrown + Operation);
  assets : list (string * Response);
  elapsed : Z;
}.

Definition msg_failed_to_fetch : string := "Failed to fetch".

Fixpoint asset (url : string) (l : list (string * Response)) : Thrown + Response :=
  match l with
  | [] => inl (ErrorObj msg_failed_to_fetch)
  | (u, r) :: rest => if String.eqb u url then inr r else asset url rest
  end.

Definition provider : Provider World :=
  {| API_KEY := key;
     generateContent := fun _ w => (edit_answer w, w);
     generateVideos := fun _ w => (submit_answer w, w);
     getVideosOperation := fun _ w =>
       match poll_answers w with
       | a :: rest =>
           (a, {| key := key w; edit_answer := edit_answer w;
                  submit_answer := submit_answer w; poll_answers := rest;
                  assets := assets w; elapsed := elapsed w |})
       | [] => (inl (ErrorObj "no status"), w)
       end;
     setTimeout := fun ms w =>
       {| key := key w; edit_answer := edit_answer w; submit_answer := submit_answer w;
          poll_answers := poll_answers w; assets := assets w;
          elapsed := (elapsed w + ms)%Z |};
     fetch := fun url w => (asset url (assets w), w) |}.

Definition browser (w : World) (ls : gmap string string) : Browser World :=
  {| ext := w; localStorage := ls; objectURLs := []; nextObjectURL := 0; trace := [] |}.

Definition not_done (name : string) : Operation :=
  {| op_name := name; done := Some false; response := None |}.

Definition done_with (name link : string) : Operation :=
  {| op_name := name; done := Some true;
     response := Some {| generatedVideos :=
                           Some [ {| video := Some {| uri := Some link |} |} ] |} |}.

Definition done_without (name : string) : Operation :=
  {| op_name := name; done := Some true;
     response := Some {| generatedVideos := Some [] |} |}.

Definition served (bytes : Blob) : Response :=
  {| ok := true; status := 200; blob := inr bytes |}.

Definition refused (code : N) : Response :=
  {| ok := false; status := code; blob := inr [] |}.

(** An encoder stand-in: the type, then the channels of every pixel. *)
Definition encode (type : string) (q : Z * Z) (r : Canvas.Raster) : string :=
  "data:" +:+ type +:+ ";px," +:+
  Ecma.join (map (fun p => pretty (Canvas.red p) +:+ "." +:+ pretty (Canvas.green p)
                           +:+ "." +:+ pretty (Canvas.blue p) +:+ "."
                           +:+ pretty (Canvas.alpha p)) (Canvas.pixels r)).

(** A decoder that knows the listed sources. *)
Fixpoint lookup_image (src : string) (l : list (string * Canvas.Raster)) : option Canvas.Raster :=
  match l with
  | [] => None
  | (u, r) :: rest => if String.eqb u src then Some r else lookup_image src rest
  end.

Definition platform (images : list (string * Canvas.Raster)) : Canvas.Platform :=
  {| Canvas.decode := fun src => lookup_image src images;
     Canvas.getContext2d := true;
     Canvas.toDataURL := encode |}.

(** *** The worlds of the examples *)

Definition link : string := "https://videos.example/v1/files/42:download?alt=media".

Definition answers (submit : Thrown + Operation) (polls : list (Thrown + Operation))
    (served_assets : list (string * Response)) : World :=
  {| key := "KEY"; edit_answer := inl (ErrorObj "unavailable");
     submit_answer := submit; poll_answers := polls; assets := served_assets;
     elapsed := 0 |}.

(** Not done at submission, not done at the first query, done with a result
    at the second; the asset is served. *)
Definition two_rounds : World :=
  answers (inr (not_done "op")) [inr (not_done "op"); inr (done_with "op" link)]
    [(link +:+ "&key=KEY", served [Byte.x00; Byte.x01])].

(** The same statuses, but the download is refused. *)
Definition two_rounds_refused : World :=
  answers (inr (not_done "op")) [inr (not_done "op"); inr (done_with "op" link)]
    [(link +:+ "&key=KEY", refused 403)].

(** Done at the first query, with no video in the response. *)
Definition no_result : World :=
  answers (inr (not_done "op")) [inr (done_without "op")] [].

(** Done at submission, the asset served: a call that settles at once. *)
Definition instant : World :=
  answers (inr (done_with "op" link)) [] [(link +:+ "&key=KEY", served [Byte.x00])].

(** The provider rejects the submission. *)
Definition rejecting (e : Thrown) : World := answers (inl e) [] [].

Definition quota_exceeded : Thrown :=
  ErrorObj "Quota exceeded for quota metric.".

(** A view ready to submit. *)
Definition ready : VideoGenerator.State :=
  VideoGenerator.setIsKeySelected true
    (VideoGenerator.setPrompt "a cat" VideoGenerator.initial).

(** An uploaded image and two earlier results. *)
Definition photo : ImageFile.t :=
  {| ImageFile.file := None; ImageFile.base64 := "AAAA";
     ImageFile.mimeType := "image/png";
     ImageFile.dataURL := "data:image/png;base64,AAAA" |}.

Definition first_result : string := "data:image/png;base64,BBBB".
Definition second_result : string := "data:image/png;base64,CCCC".

Definition session : ImageEditor.State :=
  {| ImageEditor.originalImage := Some photo;
     ImageEditor.editedImage := Some second_result;
     ImageEditor.prompt := "add a hat";
     ImageEditor.isLoading := false;
     ImageEditor.error := None;
     ImageEditor.outputFormat := ImageEditor.PNG;
     ImageEditor.history := [first_result; second_result] |}.

(** The store that mirrors [session]. *)
Definition session_store : gmap string string :=
  <["editHistory" := Ecma.stringify (history_to_JSON [first_result; second_result])]>
    (<["editedImage" := second_result]>
       (<["originalImage" := Ecma.stringify (ImageFile.to_JSON photo)]> ∅)).

(** The same store with text under a key that is not JSON. *)
Definition corrupt_original_store : gmap string string :=
  <["originalImage" := "{base64"]> session_store.

Definition corrupt_history_store : gmap string string :=
  <["editHistory" := "[oops"]> session_store.

(** The provider answers an edit with a PNG. *)
Definition editing : World :=
  {| key := "KEY";
     edit_answer := inr {| candidates := Some
       [ {| content := Some {| parts := Some
              [ {| part_inlineData := None; part_text := Some "Here is your image." |};
                {| part_inlineData := Some {| blob_data := Some "DDDD";
                                              blob_mimeType := Some "image/png" |};
                   part_text := None |} ] |} |} ] |};
     submit_answer := inl (ErrorObj "unavailable"); poll_answers := []; assets := [];
     elapsed := 0 |}.

(** A decoded image of two pixels, one of them fully transparent. *)
Definition two_pixels : Canvas.Raster :=
  {| Canvas.width := 2; Canvas.height := 1;
     Canvas.pixels := [ {| Canvas.red := 10; Canvas.green := 20; Canvas.blue := 30;
                           Canvas.alpha := 0 |};
                        {| Canvas.red := 200; Canvas.green := 100; Canvas.blue := 0;
                           Canvas.alpha := 255 |} ] |}.

Definition decoder : Canvas.Platform :=
  platform [("data:image/png;base64,DDDD", two_pixels)].

End Scenario.
(* ================================================================== *)
(** ** services/geminiService.ts: the chat session *)
(* ================================================================== *)

Module ChatService.

(** A [Chat] object of the client library, by the number the library gave it. *)
Definition Chat : Type := nat.

(** What the service does to the outside, in order. *)
Inductive Call : Type :=
  | Create (model : string)
  | Send (session : Chat) (message : string)
  | ConsoleError (msg : string).

Definition is_create (c : Call) : bool :=
  match c with
  | Create _ => true
  | _ => false
  end.

(** The sessions the sends of a log went to. *)
Definition sessions (l : list Call) : list Chat :=
  omap (fun c => match c with Send h _ => Some h | _ => None end) l.

(** The number of sessions a log shows being created. *)
Definition creations (l : list Call) : nat := length (filter is_create l).

(** The library's two calls: [ai.chats.create] and [chat.sendMessage]. *)
Record Backend (W : Type) := {
  create : string -> W -> (Thrown + Chat) * W;
  sendMessage : Chat -> string -> W -> (Thrown + string) * W;
}.
Arguments create {W} _ _ _.
Arguments sendMessage {W} _ _ _ _.

(** The module's state: its variable [chat], the outside world, and the calls
    made so far. *)
Record Service (W : Type) := {
  chat : option Chat;
  world : W;
  calls : list Call;
}.
Arguments chat {W} _.
Arguments world {W} _.
Arguments calls {W} _.

Definition msg_failed_chat : string := "Failed to get chat response: ".
Definition msg_unexpected_chat : string :=
  "An unexpected error occurred while communicating with the Chat API.".
Definition chat_model : string := "gemini-2.5-flash".

Section WithBackend.

Context {W : Type} (B : Backend W).

(** [initializeChat]: the session now in [chat]; an exception of
    [ai.chats.create] leaves [chat] as it was. *)
Definition initializeChat (s : Service W) : Thrown * Service W + Chat * Service W :=
  match create B chat_model (world s) with
  | (inr h, w) =>
      inr (h, {| chat := Some h; world := w; calls := calls s ++ [Create chat_model] |})
  | (inl e, w) =>
      inl (e, {| chat := chat s; world := w; calls := calls s ++ [Create chat_model] |})
  end.

(** The [try] and [catch] of [sendMessageToBot], for the session [h]. *)
Definition send_to (h : Chat) (message : string) (s : Service W)
    : Outcome string * Service W :=
  match sendMessage B h message (world s) with
  | (inr reply, w) =>
      (Resolved reply,
       {| chat := chat s; world := w; calls := calls s ++ [Send h message] |})
  | (inl error, w) =>
      (Rejected (ErrorObj match error with
                          | ErrorObj m => msg_failed_chat +:+ m
                          | OtherThrown _ => msg_unexpected_chat
                          end),
       {| chat := chat s; world := w;
          calls := calls s ++ [Send h message;
                               ConsoleError "Error sending message to bot:"] |})
  end.

Definition sendMessageToBot (message : string) (s : Service W)
    : Outcome string * Service W :=
  match chat s with
  | Some h => send_to h message s
  | None =>
      match initializeChat s with
      | inr (h, s') => send_to h message s'
      | inl (e, s') => (Rejected e, s')
      end
  end.

(** Calls of [sendMessageToBot] one after the other; the outcomes in order. *)
Fixpoint converse (messages : list string) (s : Service W)
    : list (Outcome string) * Service W :=
  match messages with
  | [] => ([], s)
  | m :: rest =>
      let '(r, s1) := sendMessageToBot m s in
      let '(rs, s2) := converse rest s1 in
      (r :: rs, s2)
  end.

End WithBackend.
End ChatService.

(* ================================================================== *)
(** ** components/ChatBot.tsx *)
(* ================================================================== *)

Module ChatBot.

(** [ChatMessage] of types.ts. *)
Inductive Role : Type := user | model.

Record ChatMessage := { role : Role; content : string }.

(** The component's [useState] cells. *)
Record State := {
  messages : list ChatMessage;
  input : string;
  isLoading : bool;
}.

Definition greeting : ChatMessage :=
  {| role := model; content := "Hi there! I'm your AI assistant. Ask me anything!" |}.

Definition fallback : ChatMessage :=
  {| role := model; content := "Sorry, I couldn't get a response. Please try again." |}.

Definition initial : State :=
  {| messages := [greeting]; input := EmptyString; isLoading := false |}.

(** [setMessages(prev => [...prev, m])]. *)
Definition push (m : ChatMessage) (st : State) : State :=
  {| messages := messages st ++ [m]; input := input st; isLoading := isLoading st |}.

Definition setInput (v : string) (st : State) : State :=
  {| messages := messages st; input := v; isLoading := isLoading st |}.

Definition setIsLoading (v : bool) (st : State) : State :=
  {| messages := messages st; input := input st; isLoading := v |}.

(** What the user does, and a call in flight settling. *)
Inductive Action : Type :=
  | Type_ (text : string)
  | Submit
  | Settle.

Section WithBackend.

(** [trim] is the platform's [String.prototype.trim]. *)
Context {W : Type} (B : ChatService.Backend W) (trim : string -> string).

(** [!input.trim() || isLoading]. *)
Definition refused (st : State) : bool :=
  negb (Js.truthy (trim (input st))) || isLoading st.

(** [handleSend] up to its [await]: the new state, and the message it sends. *)
Definition handleSend_begin (st : State) : State * option string :=
  if refused st then (st, None)
  else
    (setIsLoading true
       (setInput EmptyString (push {| role := user; content := input st |} st)),
     Some (input st)).

(** [handleSend] once the call has settled. *)
Definition handleSend_settle (r : Outcome string) (st : State) : State :=
  match r with
  | Resolved response =>
      setIsLoading false (push {| role := model; content := response |} st)
  | Rejected _ => setIsLoading false (push fallback st)
  | Pending => st
  end.

(** The chat panel: its state, the service, the console, and the messages
    of the calls in flight, oldest first. *)
Record Page := {
  view : State;
  service : ChatService.Service W;
  console : list Thrown;
  inflight : list string;
}.

(** The rest of [handleSend] for a call that settled with [r]. *)
Definition settled (r : Outcome string) (s' : ChatService.Service W)
    (rest : list string) (pg : Page) : Page :=
  {| view := handleSend_settle r (view pg);
     service := s';
     console := match r with
                | Rejected e => console pg ++ [e]
                | _ => console pg
                end;
     inflight := rest |}.

(** A send with nothing else happening before it settles. *)
Definition handleSend (pg : Page) : Page :=
  match handleSend_begin (view pg) with
  | (_, None) => pg
  | (st, Some message) =>
      let '(r, s') := ChatService.sendMessageToBot B message (service pg) in
      settled r s' (inflight pg)
        {| view := st; service := service pg; console := console pg;
           inflight := inflight pg |}
  end.

(** One thing happening on the page. The text field is disabled while
    loading. *)
Definition step (a : Action) (pg : Page) : Page :=
  match a with
  | Type_ text =>
      if isLoading (view pg) then pg
      else {| view := setInput text (view pg); service := service pg;
              console := console pg; inflight := inflight pg |}
  | Submit =>
      match handleSend_begin (view pg) with
      | (st, Some message) =>
          {| view := st; service := service pg; console := console pg;
             inflight := inflight pg ++ [message] |}
      | (_, None) => pg
      end
  | Settle =>
      match inflight pg with
      | message :: rest =>
          let '(r, s') := ChatService.sendMessageToBot B message (service pg) in
          settled r s' rest pg
      | [] => pg
      end
  end.

Definition run (acts : list Action) (pg : Page) : Page :=
  fold_left (fun p a => step a p) acts pg.

Definition start (s : ChatService.Service W) : Page :=
  {| view := initial; service := s; console := []; inflight := [] |}.

(** Roles alternate, beginning with [first]. *)
Fixpoint alternates (first : Role) (l : list ChatMessage) : Prop :=
  match l with
  | [] => True
  | m :: rest =>
      role m = first
      /\ alternates (match first with user => model | model => user end) rest
  end.

(** The role of the last message. *)
Definition last_role (l : list ChatMessage) : option Role := role <$> last l.

(** The transcript alternates from the assistant on and ends with the user
    exactly while the panel is loading; the one call in flight, if any, is for
    the last message. *)
Definition orderly (pg : Page) : Prop :=
  alternates model (messages (view pg))
  /\ last_role (messages (view pg))
     = Some (if isLoading (view pg) then user else model)
  /\ match inflight pg with
     | [] => isLoading (view pg) = false
     | [message] =>
         isLoading (view pg) = true
         /\ last (messages (view pg)) = Some {| role := user; content := message |}
     | _ => False
     end.

End WithBackend.
End ChatBot.

(* ================================================================== *)
(** ** Vocabulary for the further properties *)
(* ================================================================== *)

Module Poller.

(** The handles the loop asks about when it starts with [first] and is then
    answered [answers]: every one but the last. *)
Definition asked (first : Operation) (answers : list Operation) : list Operation :=
  take (length answers) (first :: answers).

(** The events of the loop's rounds for the handles it asks about. *)
Definition round_events (handles : list Operation) : list Event :=
  flat_map (fun o => [ESetTimeout GeminiService.poll_interval; EGetVideosOperation o])
    handles.

Section WithProvider.

Context {W : Type} (P : Provider W).

(** From the handle [operation] in the world [w], the successive status
    queries are answered [answers], none of the handles asked about being
    done, and leave the handle [final] in the world [wf]. *)
Fixpoint rounds (operation : Operation) (w : W) (answers : list Operation)
    (final : Operation) (wf : W) : Prop :=
  match answers with
  | [] => operation = final /\ w = wf
  | operation' :: rest =>
      GeminiService.is_done operation = false
      /\ exists w',
           getVideosOperation P operation (setTimeout P GeminiService.poll_interval w)
           = (inr operation', w')
           /\ rounds operation' w' rest final wf
  end.

(** Every status query is answered, and never with a handle that is done. *)
Definition never_done : Prop :=
  forall (operation : Operation) (w : W),
    exists operation' w',
      getVideosOperation P operation w = (inr operation', w')
      /\ GeminiService.is_done operation' = false.

End WithProvider.
End Poller.

(** The test of the [for] loop of [editImageWithPrompt] on one part; none
    where it throws. *)
Definition is_image_part (part : AnswerPart) : option bool :=
  match part_inlineData part with
  | Some d => Js.startsWith "image/" <$> blob_mimeType d
  | None => Some false
  end.

(** The parts the loop of [editImageWithPrompt] goes over, when they are
    there. *)
Definition answer_parts (response : GenerateContentResponse) : option (list AnswerPart) :=
  cs ← candidates response;
  c ← head cs;
  ct ← content c;
  parts ct.

(** A raster has a pixel for every position. *)
Definition raster_complete (r : Canvas.Raster) : Prop :=
  length (Canvas.pixels r) = Canvas.width r * Canvas.height r.

Module VideoPage.

Import VideoGenerator.

(** The calls in flight that the view mounted as number [i] made. *)
Definition calls_of {W} (i : nat) (pg : @Page W) : list Job :=
  filter (fun job => bool_decide (job_instance job = i)) (jobs pg).

(** Every call in flight was made by a view mounted so far, and the mounted
    view has one call in flight while it is loading and none otherwise. *)
Definition exclusive {W} (pg : @Page W) : Prop :=
  (forall job, job ∈ jobs pg -> job_instance job < mounts pg)
  /\ match view pg with
     | Some (i, st) =>
         i < mounts pg
         /\ length (calls_of i pg) = (if isLoading st then 1 else 0)
     | None => True
     end.

End VideoPage.

(* ================================================================== *)
(** ** More scripted environments *)
(* ================================================================== *)

Module Examples.

(** A provider whose jobs are never done. *)
Definition stuck : Provider unit :=
  {| API_KEY := fun _ => "KEY";
     generateContent := fun _ w => (inl (ErrorObj "unavailable"), w);
     generateVideos := fun _ w => (inr (Scenario.not_done "op"), w);
     getVideosOperation := fun _ w => (inr (Scenario.not_done "op"), w);
     setTimeout := fun _ w => w;
     fetch := fun _ w => (inl (ErrorObj "Failed to fetch"), w) |}.

Definition idle : Browser unit :=
  {| ext := tt; localStorage := ∅; objectURLs := []; nextObjectURL := 0; trace := [] |}.

(** Not done at submission and at the first query; the second query throws. *)
Definition failing_query : Scenario.World :=
  Scenario.answers (inr (Scenario.not_done "op"))
    [inr (Scenario.not_done "op"); inl (ErrorObj "503 Service Unavailable")] [].

(** Done at submission, the download refused. *)
Definition refused_download : Scenario.World :=
  Scenario.answers (inr (Scenario.done_with "op" Scenario.link)) []
    [(Scenario.link +:+ "&key=KEY", Scenario.refused 403)].

(** A chat backend that answers from a script. *)
Record ChatWorld := {
  create_answer : Thrown + ChatService.Chat;
  replies : list (Thrown + string);
}.

Definition chat_backend : ChatService.Backend ChatWorld :=
  {| ChatService.create := fun _ w => (create_answer w, w);
     ChatService.sendMessage := fun _ _ w =>
       match replies w with
       | r :: rest => (r, {| create_answer := create_answer w; replies := rest |})
       | [] => (inl (ErrorObj "unavailable"), w)
       end |}.

Definition fresh_service (w : ChatWorld) : ChatService.Service ChatWorld :=
  {| ChatService.chat := None; ChatService.world := w; ChatService.calls := [] |}.

(** A first reply, a failure, a second reply. *)
Definition talkative : ChatWorld :=
  {| create_answer := inr 7;
     replies := [inr "Hello!"; inl (ErrorObj "overloaded"); inr "Still here."] |}.

(** A client library that cannot open a session. *)
Definition unreachable : ChatService.Backend unit :=
  {| ChatService.create := fun _ w => (inl (ErrorObj "network unreachable"), w);
     ChatService.sendMessage := fun _ _ w => (inl (ErrorObj "unavailable"), w) |}.

(** [trim] for texts whose only white space is the space character. *)
Fixpoint trim_left (s : string) : string :=
  match s with
  | String " " s' => trim_left s'
  | _ => s
  end.

Definition trim (s : string) : string :=
  String.rev (trim_left (String.rev (trim_left s))).

(** An edit whose answer has no image in it. *)
Definition text_only : GenerateContentResponse :=
  {| candidates := Some [ {| content := Some {| parts := Some
       [ {| part_inlineData := None;
            part_text := Some "I cannot edit this image." |} ] |} |} ] |}.

(** An answer stopped by the safety filter: a candidate without content. *)
Definition blocked : GenerateContentResponse :=
  {| candidates := Some [ {| content := None |} ] |}.

Definition editing_fails (answer : Thrown + GenerateContentResponse) : Scenario.World :=
  {| Scenario.key := "KEY"; Scenario.edit_answer := answer;
     Scenario.submit_answer := inl (ErrorObj "unavailable");
     Scenario.poll_answers := []; Scenario.assets := []; Scenario.elapsed := 0 |}.

(** A platform that can decode nothing. *)
Definition blind : Canvas.Platform := Scenario.platform [].

(** The characters a store holds, keys and values. *)
Definition held (ls : gmap string string) : nat :=
  map_fold (fun k v n => String.length k + String.length v + n) 0 ls.

Definition msg_quota_exceeded : string :=
  "Failed to execute 'setItem' on 'Storage': the quota has been exceeded.".

(** A store that refuses a write that would make it hold more than [limit]
    characters. *)
Definition bounded (limit : nat) : Quota.Storage :=
  {| Quota.refuses := fun ls k v =>
       if Nat.leb (held (<[k := v]> ls)) limit then None
       else Some (ErrorObj msg_quota_exceeded) |}.


End Examples.

(* ================================================================== *)
(** * Properties *)
(* ================================================================== *)

(** ** Strings *)

(** A needle cannot begin inside a prefix that lacks its first character. *)
Lemma includes_skip_prefix (c : ascii) (needle p s : string) :
  Js.mem_char c p = false ->
  Js.includes (String c needle) (p +:+ s) = Js.includes (String c needle) s.
Proof.
  induction p as [|a p IH]; simpl; [done|].
  intros H. apply orb_false_iff in H as [Hca Hp].
  rewrite Hca. simpl. by apply IH.
Qed.

Lemma split_no_separator (c : ascii) (s : string) :
  Js.mem_char c s = false -> Js.split c s = [s].
Proof.
  induction s as [|a s IH]; simpl; [done|].
  intros H. apply orb_false_iff in H as [Hca Hs].
  rewrite Ascii.eqb_sym, Hca, (IH Hs). done.
Qed.

(** ** The poll loop *)

Section Poller.

Context {W : Type} (P : Provider W).

Import GeminiService.

Lemma poll_done (fuel : nat) (operation : Operation) (b : Browser W) :
  is_done operation = true -> poll P fuel operation b = (Resolved operation, b).
Proof. intros H. destruct fuel; simpl; rewrite H; done. Qed.

Lemma poll_round (fuel : nat) (operation operation' : Operation) (w : W) (b : Browser W) :
  is_done operation = false ->
  getVideosOperation P operation (setTimeout P poll_interval (ext b)) = (inr operation', w) ->
  poll P (S fuel) operation b = poll P fuel operation' (after_round operation w b).
Proof.
  intros Hd Hq. simpl. rewrite Hd.
  unfold bind, emit, call, set_ext; simpl. rewrite Hq. simpl.
  unfold after_round. by rewrite <- app_assoc.
Qed.

Lemma poll_throws (fuel : nat) (operation : Operation) (e : Thrown) (w : W) (b : Browser W) :
  is_done operation = false ->
  getVideosOperation P operation (setTimeout P poll_interval (ext b)) = (inl e, w) ->
  poll P (S fuel) operation b = (Rejected e, after_round operation w b).
Proof.
  intros Hd Hq. simpl. rewrite Hd.
  unfold bind, emit, call, set_ext; simpl. rewrite Hq. simpl.
  unfold after_round. by rewrite <- app_assoc.
Qed.

(** The loop downloads nothing and touches neither the store nor the URLs. *)
Lemma poll_frame (fuel : nat) (operation : Operation) (b : Browser W) :
  let r := poll P fuel operation b in
  fetches (trace r.2) = fetches (trace b)
  /\ localStorage r.2 = localStorage b
  /\ objectURLs r.2 = objectURLs b
  /\ nextObjectURL r.2 = nextObjectURL b.
Proof.
  revert operation b. induction fuel as [|fuel IH]; intros operation b; simpl.
  - destruct (is_done operation); simpl; done.
  - destruct (is_done operation) eqn:Hd; simpl; [done|].
    destruct (getVideosOperation P operation (setTimeout P poll_interval (ext b)))
      as [[e|operation'] w] eqn:Hq.
    + pose proof (poll_throws fuel operation e w b Hd Hq) as Hp.
      simpl in Hp. rewrite Hd in Hp. rewrite Hp. simpl.
      unfold fetches. rewrite filter_app. simpl. rewrite length_app. simpl. done.
    + pose proof (poll_round fuel operation operation' w b Hd Hq) as Hp.
      simpl in Hp. rewrite Hd in Hp. rewrite Hp.
      destruct (IH operation' (after_round operation w b)) as (H1 & H2 & H3 & H4).
      rewrite H1, H2, H3, H4. simpl.
      unfold fetches. rewrite filter_app. simpl. rewrite length_app. simpl. done.
Qed.

(** More fuel does not change a loop that came to an end. *)
Lemma poll_fuel_mono (fuel fuel' : nat) (operation : Operation) (b : Browser W) :
  fuel <= fuel' ->
  (poll P fuel operation b).1 <> Pending ->
  poll P fuel' operation b = poll P fuel operation b.
Proof.
  revert fuel' operation b. induction fuel as [|fuel IH]; intros fuel' operation b Hle Hne.
  - simpl in *. destruct (is_done operation) eqn:Hd; [|done].
    by rewrite poll_done.
  - destruct fuel' as [|fuel']; [lia|].
    destruct (is_done operation) eqn:Hd.
    { by rewrite !poll_done. }
    destruct (getVideosOperation P operation (setTimeout P poll_interval (ext b)))
      as [[e|operation'] w] eqn:Hq.
    + by rewrite !(poll_throws _ operation e w b Hd Hq).
    + rewrite !(poll_round _ operation operation' w b Hd Hq) in *.
      apply IH; [lia|done].
Qed.

End Poller.

Section Service.

Context {W : Type} (P : Provider W).

Import GeminiService.

Lemma poll_resolved_is_done (fuel : nat) (operation final : Operation) (b b' : Browser W) :
  poll P fuel operation b = (Resolved final, b') -> is_done final = true.
Proof.
  revert operation b. induction fuel as [|fuel IH]; intros operation b; simpl.
  - destruct (is_done operation) eqn:Hd; [|done]. intros [= <- _]. done.
  - destruct (is_done operation) eqn:Hd; [intros [= <- _]; done|].
    destruct (getVideosOperation P operation (setTimeout P poll_interval (ext b)))
      as [[e|operation'] w] eqn:Hq.
    + pose proof (poll_throws P fuel operation e w b Hd Hq) as Hp.
      simpl in Hp. rewrite Hd in Hp. rewrite Hp. done.
    + pose proof (poll_round P fuel operation operation' w b Hd Hq) as Hp.
      simpl in Hp. rewrite Hd in Hp. rewrite Hp. apply IH.
Qed.

(** What the [try] block does before the loop. *)
Lemma await_done_submitted (fuel : nat) (prompt : string) (aspectRatio : AspectRatio)
    (startingImage : option InlineData) (b : Browser W) (operation : Operation) (w : W) :
  generateVideos P (generateVideos_params prompt aspectRatio startingImage) (ext b)
  = (inr operation, w) ->
  await_done P fuel prompt aspectRatio startingImage b
  = poll P fuel operation
      {| ext := w; localStorage := localStorage b; objectURLs := objectURLs b;
         nextObjectURL := nextObjectURL b;
         trace := trace b ++ [EGenerateVideos
                                (generateVideos_params prompt aspectRatio startingImage)] |}.
Proof.
  intros H. unfold await_done, bind, emit, call, set_ext. simpl. rewrite H. done.
Qed.

Lemma await_done_frame (fuel : nat) (prompt : string) (aspectRatio : AspectRatio)
    (startingImage : option InlineData) (b : Browser W) :
  let r := await_done P fuel prompt aspectRatio startingImage b in
  fetches (trace r.2) = fetches (trace b)
  /\ localStorage r.2 = localStorage b
  /\ objectURLs r.2 = objectURLs b
  /\ nextObjectURL r.2 = nextObjectURL b.
Proof.
  destruct (generateVideos P (generateVideos_params prompt aspectRatio startingImage) (ext b))
    as [[e|operation] w] eqn:Hs.
  - unfold await_done, bind, emit, call, set_ext. simpl. rewrite Hs. simpl.
    unfold fetches. rewrite filter_app, length_app. simpl. done.
  - rewrite (await_done_submitted _ _ _ _ _ _ _ Hs).
    match goal with |- context [poll P fuel operation ?b1] =>
      destruct (poll_frame P fuel operation b1) as (H1 & H2 & H3 & H4) end.
    simpl. rewrite H1, H2, H3, H4. simpl.
    unfold fetches. rewrite filter_app, length_app. simpl. done.
Qed.

Lemma await_done_is_done (fuel : nat) (prompt : string) (aspectRatio : AspectRatio)
    (startingImage : option InlineData) (b b' : Browser W) (final : Operation) :
  await_done P fuel prompt aspectRatio startingImage b = (Resolved final, b') ->
  is_done final = true.
Proof.
  destruct (generateVideos P (generateVideos_params prompt aspectRatio startingImage) (ext b))
    as [[e|operation] w] eqn:Hs.
  - unfold await_done, bind, emit, call, set_ext. simpl. rewrite Hs. done.
  - rewrite (await_done_submitted _ _ _ _ _ _ _ Hs). apply poll_resolved_is_done.
Qed.

(** C1, as the code has it. A job whose handle is reported not done, not
    done, then done with a link to its result, and whose asset the network
    then serves: the poller suspends exactly twice, for the fixed interval of
    10000, each time before asking for the status of the handle it holds (the
    submitted one, then the refreshed one), downloads from the link of the
    third status, and resolves with the object URL of that asset. *)
Theorem poller_two_suspensions_then_asset
    (fuel : nat) (prompt : string) (aspectRatio : AspectRatio)
    (startingImage : option InlineData) (b : Browser W)
    (op0 op1 op2 : Operation) (w0 w1 w2 w3 : W)
    (link : string) (resp : Response) (bytes : Blob) :
  2 <= fuel ->
  generateVideos P (generateVideos_params prompt aspectRatio startingImage) (ext b)
  = (inr op0, w0) ->
  is_done op0 = false ->
  getVideosOperation P op0 (setTimeout P poll_interval w0) = (inr op1, w1) ->
  is_done op1 = false ->
  getVideosOperation P op1 (setTimeout P poll_interval w1) = (inr op2, w2) ->
  is_done op2 = true ->
  downloadLink op2 = Some link ->
  Js.truthy link = true ->
  fetch P (link +:+ "&key=" +:+ API_KEY P w2) w2 = (inr resp, w3) ->
  ok resp = true ->
  blob resp = inr bytes ->
  let r := generateVideoWithPrompt P fuel prompt aspectRatio startingImage b in
  let url := object_url (nextObjectURL b) in
  r.1 = Resolved url
  /\ trace r.2
     = trace b ++ [ EGenerateVideos (generateVideos_params prompt aspectRatio startingImage);
                    ESetTimeout 10000; EGetVideosOperation op0;
                    ESetTimeout 10000; EGetVideosOperation op1;
                    EFetch (link +:+ "&key=" +:+ API_KEY P w2);
                    ECreateObjectURL bytes url ]
  /\ suspensions (trace r.2) = suspensions (trace b) + 2
  /\ objectURLs r.2 = objectURLs b ++ [url].
Proof.
  intros Hfuel Hs Hd0 Hq0 Hd1 Hq1 Hd2 Hlink Htruthy Hfetch Hok Hblob.
  destruct fuel as [|[|fuel]]; [lia|lia|].
  assert (Hrun : generateVideoWithPrompt P (S (S fuel)) prompt aspectRatio startingImage b
    = (Resolved (object_url (nextObjectURL b)),
       {| ext := w3; localStorage := localStorage b;
          objectURLs := objectURLs b ++ [object_url (nextObjectURL b)];
          nextObjectURL := S (nextObjectURL b);
          trace := trace b ++
            [ EGenerateVideos (generateVideos_params prompt aspectRatio startingImage);
              ESetTimeout 10000; EGetVideosOperation op0;
              ESetTimeout 10000; EGetVideosOperation op1;
              EFetch (link +:+ "&key=" +:+ API_KEY P w2);
              ECreateObjectURL bytes (object_url (nextObjectURL b)) ] |})).
  { unfold generateVideoWithPrompt, try_catch, generateVideo_try.
    unfold bind at 1.
    rewrite (await_done_submitted _ _ _ _ _ _ _ Hs).
    erewrite poll_round; [|exact Hd0|exact Hq0].
    erewrite poll_round; [|exact Hd1|exact Hq1].
    rewrite poll_done by exact Hd2.
    unfold retrieve. rewrite Hlink, Htruthy.
    unfold bind, emit, call, set_ext, after_round, createObjectURL, of_sum, ret; simpl.
    rewrite Hfetch. simpl. rewrite Hok, Hblob. simpl.
    rewrite <- !app_assoc. done. }
  rewrite Hrun. simpl. repeat split.
  unfold suspensions. rewrite filter_app, length_app. done.
Qed.

(** C2. When the final status is done but carries no link to a result, the
    call fails with the message of the missing result, and no download is
    made (neither a fetch nor an object URL). *)
Theorem done_without_link_fails_without_download
    (fuel : nat) (prompt : string) (aspectRatio : AspectRatio)
    (startingImage : option InlineData) (b b' : Browser W) (final : Operation) :
  await_done P fuel prompt aspectRatio startingImage b = (Resolved final, b') ->
  Js.truthy_opt (downloadLink final) = false ->
  let r := generateVideoWithPrompt P fuel prompt aspectRatio startingImage b in
  is_done final = true
  /\ r.1 = Rejected (ErrorObj (msg_failed_video +:+ msg_no_download_link))
  /\ fetches (trace r.2) = fetches (trace b)
  /\ objectURLs r.2 = objectURLs b.
Proof.
  intros Hawait Hlink. split; [by eapply await_done_is_done|].
  destruct (await_done_frame fuel prompt aspectRatio startingImage b) as (Hf & _ & Hu & _).
  rewrite Hawait in Hf, Hu. simpl in Hf, Hu.
  assert (Hret : retrieve P final b' = (Rejected (ErrorObj msg_no_download_link), b')).
  { unfold retrieve. destruct (downloadLink final) as [l|]; [|done].
    simpl in Hlink. rewrite Hlink. done. }
  assert (Hrun : generateVideoWithPrompt P fuel prompt aspectRatio startingImage b
    = (Rejected (ErrorObj (msg_failed_video +:+ msg_no_download_link)),
       console_error "Error generating video with Veo:" b')).
  { unfold generateVideoWithPrompt, try_catch, generateVideo_try.
    unfold bind at 1. rewrite Hawait, Hret. done. }
  rewrite Hrun. simpl. split; [done|]. split; [|done].
  unfold fetches in *. rewrite filter_app, length_app. simpl. lia.
Qed.

End Service.

Section VideoSubmit.

Context {W : Type} (P : Provider W).

Import GeminiService.


Lemma classify_other (e : Thrown) (content : string) :
  errorContent e = Some content ->
  Js.includes signature_entity_not_found content = false ->
  classify e = match e with
               | ErrorObj m => ErrorObj (msg_failed_video +:+ m)
               | OtherThrown _ => ErrorObj msg_unexpected_video
               end.
Proof. intros Hc H. unfold classify. by rewrite Hc, H. Qed.




(** A rejected [try] block ends in the [catch]. *)
Lemma generateVideo_rejected (fuel : nat) (p : string) (r : AspectRatio)
    (i : option InlineData) (b b' : Browser W) (e : Thrown) :
  generateVideo_try P fuel p r i b = (Rejected e, b') ->
  generateVideoWithPrompt P fuel p r i b
  = (Rejected (classify e), console_error "Error generating video with Veo:" b').
Proof.
  intros H. unfold generateVideoWithPrompt, try_catch. rewrite H. done.
Qed.

(** A provider call that throws rejects the [try] block with what it threw. *)
Lemma generateVideo_try_submit_throws (fuel : nat) (p : string) (r : AspectRatio)
    (i : option InlineData) (b : Browser W) (e : Thrown) (w : W) :
  generateVideos P (generateVideos_params p r i) (ext b) = (inl e, w) ->
  (generateVideo_try P fuel p r i b).1 = Rejected e.
Proof.
  intros H. unfold generateVideo_try, await_done, bind, emit, call, set_ext.
  simpl. rewrite H. done.
Qed.


End VideoSubmit.

(** ** The store *)

Section Storage.

Context {W : Type}.
Implicit Types (b : Browser W) (k v : string).

Lemma getItem_setItem k v b : getItem k (setItem k v b) = Some v.
Proof. apply lookup_insert_eq. Qed.

Lemma getItem_setItem_ne k k' v b : k' <> k -> getItem k (setItem k' v b) = getItem k b.
Proof. intros H. by apply lookup_insert_ne. Qed.

Lemma getItem_removeItem k b : getItem k (removeItem k b) = None.
Proof. apply lookup_delete_eq. Qed.

Lemma getItem_removeItem_ne k k' b : k' <> k -> getItem k (removeItem k' b) = getItem k b.
Proof. intros H. by apply lookup_delete_ne. Qed.

Lemma getItem_add_trace k es b : getItem k (add_trace es b) = getItem k b.
Proof. done. Qed.

End Storage.

Create Rewrite HintDb storage.
#[export] Hint Rewrite @getItem_setItem @getItem_removeItem @getItem_add_trace : storage.
#[export] Hint Rewrite @getItem_setItem_ne @getItem_removeItem_ne using discriminate : storage.

(** ** The canvas *)

Lemma in_rect_whole (w h i : nat) : i < w * h -> Canvas.in_rect 0 0 w h w i = true.
Proof.
  intros Hi. unfold Canvas.in_rect. apply bool_decide_eq_true.
  assert (w <> 0) by (intros ->; lia).
  repeat split; try lia.
  - by apply Nat.mod_upper_bound.
  - apply Nat.Div0.div_lt_upper_bound. lia.
Qed.

Lemma parse_color_white : Canvas.parse_color "#FFFFFF" = Some Canvas.white.
Proof. reflexivity. Qed.

(** Filling the whole of a fresh canvas with Canvas.white leaves only Canvas.white. *)
Lemma fillRect_white_whole (w h : nat) :
  Canvas.pixels (Canvas.fillRect Canvas.white 0 0 w h (Canvas.create w h)) = replicate (w * h) Canvas.white.
Proof.
  apply list_eq. intros i. simpl. rewrite list_lookup_imap.
  destruct (decide (i < w * h)) as [Hi|Hi].
  - rewrite !lookup_replicate_2 by done. simpl. by rewrite in_rect_whole.
  - rewrite !(proj1 (lookup_replicate_None _ _ _)) by lia. done.
Qed.

(** Drawing over an opaque pixel gives an opaque pixel. *)
Lemma source_over_opaque (s d : Canvas.Pixel) :
  Canvas.alpha d = 255%Z -> Canvas.alpha (Canvas.source_over s d) = 255%Z.
Proof.
  intros Hd. unfold Canvas.source_over. simpl. rewrite Hd.
  rewrite Z.mul_comm, Z.div_mul by done. lia.
Qed.

Lemma drawImage_opaque (img c : Canvas.Raster) (dx dy : nat) :
  Forall (fun p => Canvas.alpha p = 255%Z) (Canvas.pixels c) ->
  Forall (fun p => Canvas.alpha p = 255%Z) (Canvas.pixels (Canvas.drawImage img dx dy c)).
Proof.
  intros Hc. apply Forall_lookup. intros i p. simpl. rewrite list_lookup_imap.
  destruct (Canvas.pixels c !! i) as [q|] eqn:Hq; [|done]. simpl. intros [= <-].
  pose proof (Forall_lookup_1 _ _ _ _ Hc Hq) as Ha. simpl in Ha.
  destruct (Canvas.in_rect _ _ _ _ _ _); [|done].
  destruct (Canvas.pixels img !! _); [|done].
  by apply source_over_opaque.
Qed.

(** ** The image editor *)

Section Editor.

Context {W : Type} (P : Provider W) (C : Canvas.Platform) (J : JSON.Lib).

Import ImageEditor.

Lemma emit_all_run (es : list Event) (b : Browser W) :
  emit_all es b = (Resolved tt, add_trace es b).
Proof.
  revert b. induction es as [|e es IH]; intros b; simpl.
  - unfold ret, add_trace. rewrite app_nil_r. by destruct b.
  - unfold bind, emit. rewrite IH. unfold add_trace. simpl. by rewrite <- app_assoc.
Qed.

Lemma rendered_jpeg (img : Canvas.Raster) :
  rendered JPEG img
  = Canvas.drawImage img 0 0
      (Canvas.fillRect Canvas.white 0 0 (Canvas.width img) (Canvas.height img)
         (Canvas.create (Canvas.width img) (Canvas.height img))).
Proof. reflexivity. Qed.

(** C8. A conversion to JPEG sets the fill colour to opaque white and fills
    the whole surface before it draws the decoded image, so every pixel the
    encoder reads is opaque; the encoder is called with quality 9/10. *)
Theorem jpeg_conversion_fills_white_first
    (base64Data fromMimeType : string) (img : Canvas.Raster) (b : Browser W) :
  Canvas.decode C (data_url fromMimeType base64Data) = Some img ->
  Canvas.getContext2d C = true ->
  let r := convertImageFormat C base64Data fromMimeType JPEG b in
  let w := Canvas.width img in
  let h := Canvas.height img in
  r.1 = Resolved (Canvas.toDataURL C "image/jpeg" (9, 10)%Z (rendered JPEG img))
  /\ trace r.2 = trace b ++ [ EImageLoad (data_url fromMimeType base64Data);
                              ECanvas (Canvas.SetFillStyle "#FFFFFF");
                              ECanvas (Canvas.FillRect 0 0 w h);
                              ECanvas (Canvas.DrawImage img 0 0);
                              EToDataURL "image/jpeg" (9, 10)%Z ]
  /\ Canvas.parse_color "#FFFFFF" = Some Canvas.white
  /\ Canvas.pixels (Canvas.canvas
       (Canvas.exec [Canvas.SetFillStyle "#FFFFFF"; Canvas.FillRect 0 0 w h]
          (Canvas.getContext (Canvas.create w h))))
     = replicate (w * h) Canvas.white
  /\ length (Canvas.pixels (rendered JPEG img)) = w * h
  /\ Forall (fun p => Canvas.alpha p = 255%Z) (Canvas.pixels (rendered JPEG img)).
Proof.
  intros Hdec Hctx.
  pose proof (fillRect_white_whole (Canvas.width img) (Canvas.height img)) as Hfill.
  cbv zeta. unfold convertImageFormat, bind, emit. rewrite Hdec, Hctx.
  rewrite emit_all_run.
  split; [done|]. split; [by cbn; rewrite <- !app_assoc|]. split; [done|].
  split; [exact Hfill|].
  rewrite rendered_jpeg. split.
  - cbn [Canvas.drawImage Canvas.pixels]. rewrite length_imap, Hfill, length_replicate. done.
  - apply drawImage_opaque. rewrite Hfill. apply Forall_replicate. done.
Qed.

(** C7. When the generated image already has the selected encoding, the
    result is the data URL that wraps the very base64 payload received: the
    browser is left as it was (no image is loaded for decoding, no canvas call
    is made, nothing is encoded), and splitting the URL at its comma gives the
    payload back. *)
Theorem normalize_same_encoding_is_identity
    (format : OutputFormat) (generated : InlineData) (b : Browser W) :
  mimeType generated = mime format ->
  Js.mem_char "," (data generated) = false ->
  normalize C format generated b
  = (Resolved (data_url (mimeType generated) (data generated)), b)
  /\ nth 1 (Js.split "," (data_url (mimeType generated) (data generated))) EmptyString
     = data generated.
Proof.
  intros Hmime Hcomma. split.
  - unfold normalize. rewrite bool_decide_eq_false_2; [done|]. intros H. by apply H.
  - rewrite Hmime. unfold data_url.
    destruct format; simpl;
      change (EmptyString +:+ data generated) with (data generated);
      by rewrite (split_no_separator _ _ Hcomma).
Qed.

(** What the two awaited calls leave untouched, and the one request they make. *)
Lemma editImageWithPrompt_frame (base64Image mime prompt : string) (b : Browser W) :
  let r := GeminiService.editImageWithPrompt P base64Image mime prompt b in
  localStorage r.2 = localStorage b
  /\ requests (trace r.2)
     = requests (trace b) ++ [GeminiService.editImage_params base64Image mime prompt].
Proof.
  unfold GeminiService.editImageWithPrompt, try_catch, bind, emit, call, set_ext. simpl.
  unfold requests.
  destruct (generateContent P _ (ext b)) as [[e|resp] w]; simpl.
  - destruct e; simpl; rewrite !omap_app; simpl; rewrite ?app_nil_r; done.
  - destruct (GeminiService.read_answer resp) as [[m|t]|d]; simpl;
      rewrite !omap_app; simpl; rewrite ?app_nil_r; done.
Qed.

Lemma convertImageFormat_frame (base64Data fromMimeType : string)
    (toMimeType : OutputFormat) (b : Browser W) :
  let r := convertImageFormat C base64Data fromMimeType toMimeType b in
  localStorage r.2 = localStorage b /\ requests (trace r.2) = requests (trace b).
Proof.
  assert (Hload : requests (trace b ++ [EImageLoad (data_url fromMimeType base64Data)])
                  = requests (trace b)).
  { unfold requests. rewrite omap_app. simpl. by rewrite app_nil_r. }
  unfold convertImageFormat, bind, emit.
  destruct (Canvas.decode C _) as [img|]; [|done].
  destruct (Canvas.getContext2d C); [|done].
  rewrite emit_all_run. simpl. split; [done|].
  unfold requests in *. rewrite !omap_app. simpl. rewrite app_nil_r.
  replace (omap _ (map ECanvas (onload_commands toMimeType img)))
    with (@nil GenerateContentParameters); [|by destruct toMimeType].
  rewrite app_nil_r. rewrite omap_app in Hload. exact Hload.
Qed.

Lemma produce_frame (closure : State) (original : ImageFile.t) (b : Browser W) :
  let r := produce P C closure original b in
  localStorage r.2 = localStorage b
  /\ requests (trace r.2)
     = requests (trace b)
       ++ [GeminiService.editImage_params (ImageFile.base64 original)
             (ImageFile.mimeType original) (prompt closure)].
Proof.
  unfold produce, bind.
  pose proof (editImageWithPrompt_frame (ImageFile.base64 original)
                (ImageFile.mimeType original) (prompt closure) b) as [Hs Hr].
  destruct (GeminiService.editImageWithPrompt P _ _ _ b) as [[d|e|] b1]; simpl in *;
    [|done|done].
  unfold normalize. case_bool_decide.
  - pose proof (convertImageFormat_frame (data d) (mimeType d) (outputFormat closure) b1)
      as [Hs' Hr'].
    simpl in *. rewrite Hs', Hr'. done.
  - done.
Qed.


(** C5. A revert leaves the history as it is and only makes the given image
    the current one; the edit that succeeds after it appends its result to the
    end of the whole history, in memory and in the store. *)
Theorem revert_then_append
    (st : State) (b b' : Browser W) (x y : string) (original : ImageFile.t) :
  x ∈ history st ->
  originalImage st = Some original ->
  Js.truthy (prompt st) = true ->
  produce P C (handleRevertToHistory x (st, b)).1 original
    (handleRevertToHistory x (st, b)).2 = (Resolved y, b') ->
  let reverted := handleRevertToHistory x (st, b) in
  let appended := handleSubmit P C J reverted in
  history reverted.1 = history st
  /\ editedImage reverted.1 = Some x
  /\ history appended.1 = history st ++ [y]
  /\ editedImage appended.1 = Some y
  /\ getItem "editHistory" appended.2
     = Some (JSON.stringify J (history_to_JSON (history st ++ [y]))).
Proof.
  intros _ Horig Hprompt Hproduce. simpl in *.
  unfold handleSubmit, handleSubmit_begin. simpl.
  rewrite Horig, Hprompt, Hproduce. simpl.
  repeat split. apply getItem_setItem.
Qed.

Lemma load_original_unparseable (st : State) (b : Browser W) :
  unparseable J "originalImage" b ->
  load_original J (getItem "originalImage" b) st = inl st.
Proof. intros (s & Hs & Ht & Hp). unfold load_original. by rewrite Hs, Ht, Hp. Qed.

Lemma load_history_unparseable (st : State) (b : Browser W) :
  unparseable J "editHistory" b ->
  load_history J (getItem "editHistory" b) st = inl st.
Proof. intros (s & Hs & Ht & Hp). unfold load_history. by rewrite Hs, Ht, Hp. Qed.

Lemma load_original_history (saved : option string) (st st1 : State) :
  load_original J saved st = inr st1 -> history st1 = history st.
Proof. unfold load_original. intros H. repeat case_match; simplify_eq; done. Qed.

(** C4, as the code has it. When [JSON.parse] throws during the start-up
    load, on the original image or on the history, the load itself throws
    nothing: it logs, and empties the store. No setter has run if the throw
    was on the original image, so the state is as it was (empty, at start-up).
    If the throw was on the history, the original and the edited image that
    were read before it stay loaded, and the history stays as it was. *)
Theorem load_failure_resets_store (st : State) (b : Browser W) :
  unparseable J "originalImage" b \/ unparseable J "editHistory" b ->
  let page := load J (st, b) in
  page.2 = clear (console_error msg_load_failed b)
  /\ localStorage page.2 = ∅
  /\ trace page.2 = trace b ++ [EConsoleError msg_load_failed]
  /\ history page.1 = history st
  /\ match load_original J (getItem "originalImage" b) st with
     | inl _ => page.1 = st
     | inr st1 => page.1 = load_edited (getItem "editedImage" b) st1
     end.
Proof.
  intros Hraise. cbv zeta. unfold load, load_try.
  destruct (load_original J (getItem "originalImage" b) st) as [s0|st1] eqn:Ho.
  - assert (s0 = st) as ->.
    { unfold load_original in Ho. repeat case_match; simplify_eq; done. }
    done.
  - destruct Hraise as [Horig|Hhist].
    { by rewrite (load_original_unparseable st b Horig) in Ho. }
    rewrite (load_history_unparseable _ b Hhist). simpl.
    split; [done|]. split; [done|]. split; [done|]. split; [|done].
    rewrite <- (load_original_history _ _ _ Ho).
    unfold load_edited. by case_match.
Qed.

Lemma nonempty_history_key (h : list string) (y : string) :
  match h ++ [y] with
  | [] => None
  | l => Some (JSON.stringify J (history_to_JSON l))
  end = Some (JSON.stringify J (history_to_JSON (h ++ [y]))).
Proof. by destruct h. Qed.

Lemma mirrors_upload (page : State * Browser W) (f : File) (result : string) :
  mirrors J (handleImageChange J (Some f) result page).
Proof.
  destruct page as [st b].
  repeat split; unfold mirrors_original, mirrors_edited, mirrors_history; simpl;
    by autorewrite with storage.
Qed.

Lemma mirrors_removal (page : State * Browser W) : mirrors J (handleRemoveImage page).
Proof.
  destruct page as [st b].
  repeat split; unfold mirrors_original, mirrors_edited, mirrors_history; simpl;
    by autorewrite with storage.
Qed.

Lemma mirrors_settle (closure : State) (r : Outcome string) (page : State * Browser W) :
  mirrors J page -> mirrors J (handleSubmit_settle J closure r page).
Proof.
  destruct page as [st b]. intros (Ho & He & Hh).
  unfold mirrors_original, mirrors_edited, mirrors_history in *. simpl in *.
  destruct r as [y|err|]; repeat split;
    unfold mirrors_original, mirrors_edited, mirrors_history; simpl;
    autorewrite with storage; try done.
  by rewrite nonempty_history_key.
Qed.

Lemma mirrors_storage (st st' : State) (b b' : Browser W) :
  originalImage st' = originalImage st ->
  editedImage st' = editedImage st ->
  history st' = history st ->
  localStorage b' = localStorage b ->
  mirrors J (st, b) -> mirrors J (st', b').
Proof.
  intros Ho He Hh Hs (H1 & H2 & H3).
  unfold mirrors, mirrors_original, mirrors_edited, mirrors_history, getItem in *.
  simpl in *. rewrite Ho, He, Hh, Hs. done.
Qed.

Lemma mirrors_submit (page : State * Browser W) :
  mirrors J page -> mirrors J (handleSubmit P C J page).
Proof.
  destruct page as [st b]. intros Hm.
  unfold handleSubmit, handleSubmit_begin.
  destruct (originalImage st) as [orig|] eqn:Horig;
    [|by apply (mirrors_storage st _ b b)].
  destruct (Js.truthy (prompt st)); [|by apply (mirrors_storage st _ b b)].
  pose proof (produce_frame st orig b) as [Hs _].
  destruct (produce P C st orig b) as [r b1]. simpl in Hs.
  apply mirrors_settle. by apply (mirrors_storage st _ b b1).
Qed.

Lemma mirrors_revert (x : string) (page : State * Browser W) :
  mirrors J page -> mirrors J (handleRevertToHistory x page).
Proof.
  destruct page as [st b]. intros (Ho & He & Hh).
  repeat split; unfold mirrors_original, mirrors_edited, mirrors_history in *; simpl in *;
    by autorewrite with storage.
Qed.

Lemma mirrors_clear (page : State * Browser W) :
  mirrors J page -> mirrors J (handleClearHistory page).
Proof.
  destruct page as [st b]. intros (Ho & He & Hh).
  repeat split; unfold mirrors_original, mirrors_edited, mirrors_history in *; simpl in *;
    by autorewrite with storage.
Qed.

(** Each handler's own keys are right after it, whatever the store held. *)
Lemma handlers_write_their_keys
    (page : State * Browser W) (x y : string) (closure : State) :
  let settled := handleSubmit_settle J closure (Resolved y) page in
  let reverted := handleRevertToHistory x page in
  let cleared := handleClearHistory page in
  mirrors_edited settled.1 settled.2
  /\ mirrors_history J settled.1 settled.2
  /\ mirrors_edited reverted.1 reverted.2
  /\ mirrors_history J cleared.1 cleared.2.
Proof.
  destruct page as [st b].
  unfold mirrors_edited, mirrors_history. simpl. autorewrite with storage.
  by rewrite nonempty_history_key.
Qed.

(** With its writes accepted and the component mounted, a handler under a
    quota is the handler above. *)
Lemma settle_accepted (Q : Quota.Storage) (closure : State) (y : string)
    (page : State * Browser W) :
  Quota.refuses Q (localStorage page.2) "editedImage" y = None ->
  Quota.refuses Q (<["editedImage" := y]> (localStorage page.2)) "editHistory"
    (JSON.stringify J (history_to_JSON (history closure ++ [y]))) = None ->
  Quota.handleSubmit_settle J Q true closure (Resolved y) page
  = handleSubmit_settle J closure (Resolved y) page.
Proof.
  destruct page as [st b]. simpl. intros H1 H2.
  unfold Quota.handleSubmit_settle, Quota.setItem. rewrite H1. simpl. by rewrite H2.
Qed.

Lemma upload_accepted (Q : Quota.Storage) (f : File) (result : string)
    (page : State * Browser W) :
  Quota.refuses Q (localStorage page.2) "originalImage"
    (JSON.stringify J (ImageFile.to_JSON
       {| ImageFile.file := Some f;
          ImageFile.base64 := nth 1 (Js.split "," result) EmptyString;
          ImageFile.mimeType := file_type f; ImageFile.dataURL := result |})) = None ->
  Quota.handleImageChange J Q true (Some f) result page
  = (None, handleImageChange J (Some f) result page).
Proof.
  destruct page as [st b]. simpl. intros H1.
  unfold Quota.handleImageChange, Quota.setItem. by rewrite H1.
Qed.

Lemma revert_accepted (Q : Quota.Storage) (x : string) (page : State * Browser W) :
  Quota.refuses Q (localStorage page.2) "editedImage" x = None ->
  Quota.handleRevertToHistory Q x page = (None, handleRevertToHistory x page).
Proof.
  destruct page as [st b]. simpl. intros H1.
  unfold Quota.handleRevertToHistory, Quota.setItem. by rewrite H1.
Qed.

(** In a store that takes everything, a click under a quota is the click
    above. *)
Lemma handleSubmit_unlimited (page : State * Browser W) :
  Quota.handleSubmit P C J Quota.unlimited page = handleSubmit P C J page.
Proof.
  destruct page as [st b]. unfold Quota.handleSubmit, handleSubmit.
  destruct (handleSubmit_begin st) as [st1 [original|]]; [|done].
  destruct (produce P C st original b) as [[y|err|] b1]; [|done|done].
  by apply (settle_accepted Quota.unlimited st y (st1, b1)).
Qed.

(** C6, as the code has it. In a mounted component, and when the store takes
    the writes (no quota exception), every handler that changes the original
    image, the edited image or the history writes or removes the keys of what
    it changes in the same step. An upload sets the three cells and leaves the
    new image under [originalImage] and nothing under the other two keys; a
    removal empties the three cells and the three keys; an edit that succeeded
    sets the edited image and the history (of the render the handler was
    created in, with the result appended) and writes both keys; a revert sets
    the edited image and writes its key; a clear empties the history and
    removes its key. So the keys a handler touches mirror the state after it,
    and the whole store does if it did before (after an upload and a removal
    it does in any case). *)
Theorem write_through_keeps_the_mirror
    (Q : Quota.Storage) (page : State * Browser W) (f : File) (result x y : string)
    (closure : State) :
  let ls := localStorage page.2 in
  let newImage :=
    {| ImageFile.file := Some f;
       ImageFile.base64 := nth 1 (Js.split "," result) EmptyString;
       ImageFile.mimeType := file_type f; ImageFile.dataURL := result |} in
  let newHistory := history closure ++ [y] in
  let upload := Quota.handleImageChange J Q true (Some f) result page in
  let removed := handleRemoveImage page in
  let settled := Quota.handleSubmit_settle J Q true closure (Resolved y) page in
  let reverted := Quota.handleRevertToHistory Q x page in
  let cleared := handleClearHistory page in
  (Quota.refuses Q ls "originalImage" (JSON.stringify J (ImageFile.to_JSON newImage))
   = None ->
   upload.1 = None
   /\ originalImage upload.2.1 = Some newImage
   /\ editedImage upload.2.1 = None
   /\ history upload.2.1 = []
   /\ localStorage upload.2.2
      = delete "editHistory" (delete "editedImage"
          (<["originalImage" := JSON.stringify J (ImageFile.to_JSON newImage)]> ls))
   /\ mirrors J upload.2)
  /\ (originalImage removed.1 = None
      /\ editedImage removed.1 = None
      /\ history removed.1 = []
      /\ localStorage removed.2
         = delete "editHistory" (delete "editedImage" (delete "originalImage" ls))
      /\ mirrors J removed)
  /\ (Quota.refuses Q ls "editedImage" y = None ->
      Quota.refuses Q (<["editedImage" := y]> ls) "editHistory"
        (JSON.stringify J (history_to_JSON newHistory)) = None ->
      originalImage settled.1 = originalImage page.1
      /\ editedImage settled.1 = Some y
      /\ history settled.1 = newHistory
      /\ localStorage settled.2
         = <["editHistory" := JSON.stringify J (history_to_JSON newHistory)]>
             (<["editedImage" := y]> ls)
      /\ mirrors_edited settled.1 settled.2
      /\ mirrors_history J settled.1 settled.2
      /\ (mirrors J page -> mirrors J settled))
  /\ (Quota.refuses Q ls "editedImage" x = None ->
      reverted.1 = None
      /\ originalImage reverted.2.1 = originalImage page.1
      /\ editedImage reverted.2.1 = Some x
      /\ history reverted.2.1 = history page.1
      /\ localStorage reverted.2.2 = <["editedImage" := x]> ls
      /\ mirrors_edited reverted.2.1 reverted.2.2
      /\ (mirrors J page -> mirrors J reverted.2))
  /\ (originalImage cleared.1 = originalImage page.1
      /\ editedImage cleared.1 = editedImage page.1
      /\ history cleared.1 = []
      /\ localStorage cleared.2 = delete "editHistory" ls
      /\ mirrors_history J cleared.1 cleared.2
      /\ (mirrors J page -> mirrors J cleared)).
Proof.
  cbv zeta.
  pose proof (handlers_write_their_keys page x y closure) as (Hk1 & Hk2 & Hk3 & Hk4).
  split; [|split; [|split; [|split]]].
  - intros Hq. rewrite (upload_accepted Q f result page Hq).
    pose proof (mirrors_upload page f result) as Hm.
    destruct page as [st b]. repeat (split; [reflexivity|]). exact Hm.
  - pose proof (mirrors_removal page) as Hm.
    destruct page as [st b]. repeat (split; [reflexivity|]). exact Hm.
  - intros Hq1 Hq2. rewrite (settle_accepted Q closure y page Hq1 Hq2).
    pose proof (mirrors_settle closure (Resolved y) page) as Hm.
    destruct page as [st b]. repeat (split; [reflexivity|]).
    split; [exact Hk1|]. split; [exact Hk2|exact Hm].
  - intros Hq. rewrite (revert_accepted Q x page Hq).
    pose proof (mirrors_revert x page) as Hm.
    destruct page as [st b]. repeat (split; [reflexivity|]).
    split; [exact Hk3|exact Hm].
  - pose proof (mirrors_clear page) as Hm.
    destruct page as [st b]. repeat (split; [reflexivity|]).
    split; [exact Hk4|exact Hm].
Qed.

End Editor.

(** ** The video view and its object URLs *)

Section Video.

Context {W : Type} (P : Provider W).

Import VideoGenerator.

(** The only object URL a call can make is the one it resolves with. *)
Lemma generateVideoWithPrompt_urls (fuel : nat) (p : string) (r : AspectRatio)
    (i : option InlineData) (b : Browser W) :
  let res := GeminiService.generateVideoWithPrompt P fuel p r i b in
  match res.1 with
  | Resolved url => objectURLs res.2 = objectURLs b ++ [url] /\ Js.truthy url = true
  | _ => objectURLs res.2 = objectURLs b
  end.
Proof.
  cbv zeta.
  unfold GeminiService.generateVideoWithPrompt, try_catch, GeminiService.generateVideo_try.
  unfold bind.
  destruct (await_done_frame P fuel p r i b) as (_ & _ & Hu & _).
  destruct (GeminiService.await_done P fuel p r i b) as [[final|e|] b1]; simpl in *;
    [|done|done].
  unfold GeminiService.retrieve.
  destruct (GeminiService.downloadLink final) as [link|]; [|done].
  destruct (Js.truthy link); [|done].
  unfold bind, emit, call, set_ext, of_sum, createObjectURL, ret, throw. simpl.
  destruct (fetch P _ (ext b1)) as [[e|resp] w]; simpl; [done|].
  destruct (ok resp); [|done].
  destruct (blob resp) as [e|bytes]; simpl; [done|].
  by rewrite Hu.
Qed.

Lemma revoke_only (u : string) (b : Browser W) :
  objectURLs b = [u] -> objectURLs (revokeObjectURL u b) = [].
Proof.
  intros H. simpl. rewrite H. rewrite filter_cons_False; [done|]. intros Hn. by apply Hn.
Qed.

Lemma revoke_none (u : string) (b : Browser W) :
  objectURLs b = [] -> objectURLs (revokeObjectURL u b) = [].
Proof. intros H. simpl. by rewrite H. Qed.

(** Revoking the held URL, if any, leaves no live URL. *)
Lemma revoke_if_set_held (url : option string) (b : Browser W) :
  objectURLs b = match url with Some u => [u] | None => [] end ->
  (forall u, url = Some u -> Js.truthy u = true) ->
  objectURLs (revoke_if_set url b) = [].
Proof.
  intros Hb Ht. destruct url as [u|]; simpl; [|done].
  rewrite (Ht u eq_refl). by apply revoke_only.
Qed.

Lemma revoke_if_set_none (url : option string) (b : Browser W) :
  objectURLs b = [] -> objectURLs (revoke_if_set url b) = [].
Proof.
  intros Hb. destruct url as [u|]; simpl; [|done].
  destruct (Js.truthy u); [by apply revoke_none|done].
Qed.

(** What an accepted click leaves: no URL held, none live. *)
Lemma handleSubmit_begin_accepted (st : State) (b : Browser W) :
  Js.truthy (prompt st) = true ->
  isKeySelected st = true ->
  objectURLs b = match videoUrl st with Some u => [u] | None => [] end ->
  (forall u, videoUrl st = Some u -> Js.truthy u = true) ->
  exists st' b',
    handleSubmit_begin (st, b)
    = ((st', b'), Some (prompt st, aspectRatio st, inline_of <$> startingImage st))
    /\ videoUrl st' = None /\ isLoading st' = true /\ objectURLs b' = []
    /\ (forall u, videoUrl st = Some u -> ERevokeObjectURL u ∈ trace b').
Proof.
  intros Hp Hk Hb Ht. unfold handleSubmit_begin. rewrite Hp, Hk. simpl.
  pose proof (revoke_if_set_held _ b Hb Ht) as Hrev.
  unfold setVideoUrl. simpl. case_decide as Hv.
  - eexists _, _. split; [done|]. simpl. repeat split; try done.
    intros u Hu. by rewrite Hu in Hv.
  - eexists _, _. split; [done|]. simpl. repeat split; try done.
    + unfold cleanup. by apply revoke_if_set_none.
    + intros u Hu. rewrite Hu. simpl. rewrite (Ht u Hu). simpl.
      apply elem_of_app. right. by apply list_elem_of_singleton.
Qed.

Lemma tidy_start (b : Browser W) : objectURLs b = [] -> tidy (start b).
Proof. intros H. repeat split; simpl; [done|]. intros u Hu. by apply not_elem_of_nil in Hu. Qed.

Lemma tidy_at_most_one (pg : @Page W) : tidy pg -> length (objectURLs (browser pg)) <= 1.
Proof.
  intros (H & _). rewrite H. unfold held.
  destruct (view pg) as [[i st]|]; [|simpl; lia].
  destruct (videoUrl st); simpl; lia.
Qed.

(** Changing a cell other than [videoUrl] and [isLoading] keeps a page tidy. *)
Lemma tidy_with_view (pg : @Page W) (i : nat) (st st' : State) :
  view pg = Some (i, st) ->
  videoUrl st' = videoUrl st ->
  isLoading st' = isLoading st ->
  tidy pg -> tidy (with_view st' pg).
Proof.
  intros Hv Hu Hl (H1 & H2 & H3). unfold with_view, tidy, held in *. rewrite Hv in *.
  simpl. rewrite Hu. repeat split; [done..|].
  destruct (jobs pg) as [|job [|]]; [done| |done].
  destruct H3 as (st0 & Hst0 & Hl0 & Hu0). simplify_eq.
  exists st'. rewrite Hu, Hl. done.
Qed.

Lemma step_tidy (a : Action) (pg : Page) :
  tidy pg ->
  (a = Unmount -> jobs pg = []) ->
  tidy (step P a pg).
Proof.
  intros Ht Hquiet. pose proof Ht as (H1 & H2 & H3).
  destruct a as [hasKey| |s|r|i|aistudio| |n fuel]; unfold step.
  - (* Mount *)
    destruct (view pg) as [[i st]|] eqn:Hv; [done|].
    unfold tidy, held in *. rewrite Hv in *. simpl.
    assert (jobs pg = []) as ->.
    { destruct (jobs pg) as [|job [|]]; [done| |done]. by destruct H3 as (? & ? & _). }
    repeat split; [by destruct hasKey|].
    intros u. by destruct hasKey; intros ?%not_elem_of_nil.
  - (* Unmount *)
    destruct (view pg) as [[i st]|] eqn:Hv; [|done].
    unfold tidy, held in *. rewrite Hv in *. simpl.
    rewrite (Hquiet eq_refl). repeat split.
    + unfold cleanup. apply revoke_if_set_held.
      * rewrite H1. by destruct (videoUrl st).
      * intros u Hu. apply H2. rewrite Hu. by apply list_elem_of_singleton.
    + by intros u ?%not_elem_of_nil.
  - (* TypePrompt *)
    destruct (view pg) as [[i st]|] eqn:Hv; [|done].
    destruct (isKeySelected st && negb (isLoading st)); [|done].
    by apply (tidy_with_view pg i st).
  - (* PickAspectRatio *)
    destruct (view pg) as [[i st]|] eqn:Hv; [|done].
    destruct (isKeySelected st && negb (isLoading st)); [|done].
    by apply (tidy_with_view pg i st).
  - (* PickImage *)
    destruct (view pg) as [[j st]|] eqn:Hv; [|done].
    destruct (isKeySelected st && _); [|done].
    by apply (tidy_with_view pg j st).
  - (* SelectKey *)
    destruct (view pg) as [[i st]|] eqn:Hv; [|done].
    destruct (negb (isKeySelected st) && aistudio); [|done].
    by apply (tidy_with_view pg i st).
  - (* ClickGenerate *)
    destruct (view pg) as [[i st]|] eqn:Hv; [|done].
    destruct (can_generate st) eqn:Hcan; [|done].
    unfold can_generate in Hcan.
    apply andb_true_iff in Hcan as [Hcan Hload].
    apply andb_true_iff in Hcan as [Hkey Hprompt].
    apply negb_true_iff in Hload.
    assert (jobs pg = []) as Hjobs.
    { destruct (jobs pg) as [|job [|]]; [done| |done].
      destruct H3 as (st0 & Hst0 & Hl0 & _). simplify_eq. congruence. }
    unfold held in H1, H2. rewrite Hv in H1, H2.
    destruct (handleSubmit_begin_accepted st (browser pg) Hprompt Hkey) as
      (st' & b' & Hbegin & Hu' & Hl' & Hb' & _).
    { rewrite H1. by destruct (videoUrl st). }
    { intros u Hu. apply H2. rewrite Hu. by apply list_elem_of_singleton. }
    rewrite Hbegin, Hjobs. unfold tidy, held. simpl. rewrite Hu'.
    repeat split; [done| |by exists st'].
    by intros u ?%not_elem_of_nil.
  - (* Settle *)
    destruct (jobs pg !! n) as [job|] eqn:Hjob; [|done].
    assert (jobs pg = [job] /\ n = 0) as [Hjobs ->].
    { destruct (jobs pg) as [|job0 [|]]; [done| |done].
      destruct n; simpl in Hjob; by simplify_eq. }
    rewrite Hjobs in H3. destruct H3 as (st & Hv & Hl & Hu).
    unfold held in H1, H2. rewrite Hv, Hu in H1, H2.
    pose proof (generateVideoWithPrompt_urls fuel (job_prompt job)
                  (job_aspectRatio job) (job_startingImage job) (browser pg)) as Hcall.
    simpl in Hcall. rewrite Hv.
    destruct (GeminiService.generateVideoWithPrompt P fuel _ _ _ (browser pg))
      as [[url|e|] b']; simpl in Hcall; [| |done].
    + destruct Hcall as [Hb' Hurl]. rewrite bool_decide_eq_true_2 by done.
      unfold handleSubmit_settle, setVideoUrl. rewrite Hu.
      rewrite decide_False by done. simpl.
      unfold tidy, held. simpl. rewrite Hjobs. simpl. rewrite Hb', H1.
      repeat split. intros u ->%list_elem_of_singleton. done.
    + rewrite bool_decide_eq_true_2 by done.
      unfold tidy, held. simpl.
      destruct (Js.includes key_error_marker _); simpl; rewrite Hjobs, Hu, Hcall, H1;
        simpl; repeat split; by intros u ?%not_elem_of_nil.
Qed.

Lemma run_tidy (acts : list Action) (pg : Page) :
  tidy pg ->
  quiet_teardowns P acts pg = true ->
  Forall tidy (run P acts pg).
Proof.
  revert pg. induction acts as [|a acts IH]; intros pg Ht Hq; simpl; [constructor|].
  assert (tidy (step P a pg)) as Ht'.
  { apply step_tidy; [done|]. intros ->. simpl in Hq.
    by destruct (jobs pg). }
  constructor; [done|]. apply IH; [done|].
  simpl in Hq. destruct a; try done. by destruct (jobs pg).
Qed.

Lemma unmount_tidy (pg : @Page W) :
  tidy pg ->
  jobs pg = [] ->
  objectURLs (browser (step P Unmount pg)) = []
  /\ (forall i st u, view pg = Some (i, st) -> videoUrl st = Some u ->
        ERevokeObjectURL u ∈ trace (browser (step P Unmount pg))).
Proof.
  intros Ht Hjobs. pose proof (step_tidy Unmount pg Ht (fun _ => Hjobs)) as (H1' & _).
  destruct Ht as (H1 & H2 & _). split.
  - rewrite H1'. unfold step, held.
    destruct (view pg) as [[i st]|] eqn:Hv; simpl; [done|by rewrite Hv].
  - intros i st u Hv Hu. unfold step. rewrite Hv. simpl. unfold held in H2.
    rewrite Hv, Hu in H2. unfold cleanup. rewrite Hu. simpl.
    rewrite (H2 u) by (by apply list_elem_of_singleton). simpl.
    apply elem_of_app. right. by apply list_elem_of_singleton.
Qed.

Lemma click_tidy (pg : @Page W) (i : nat) (st : State) :
  tidy pg ->
  view pg = Some (i, st) ->
  can_generate st = true ->
  objectURLs (browser (step P ClickGenerate pg)) = []
  /\ held (step P ClickGenerate pg) = []
  /\ (forall u, videoUrl st = Some u ->
        ERevokeObjectURL u ∈ trace (browser (step P ClickGenerate pg))).
Proof.
  intros (H1 & H2 & _) Hv Hcan. unfold step. rewrite Hv, Hcan.
  unfold can_generate in Hcan.
  apply andb_true_iff in Hcan as [Hcan Hload].
  apply andb_true_iff in Hcan as [Hkey Hprompt].
  unfold held in H1, H2. rewrite Hv in H1, H2.
  destruct (handleSubmit_begin_accepted st (browser pg) Hprompt Hkey) as
    (st' & b' & Hbegin & Hu' & Hl' & Hb' & Htr).
  { rewrite H1. by destruct (videoUrl st). }
  { intros u Hu. apply H2. rewrite Hu. by apply list_elem_of_singleton. }
  rewrite Hbegin. unfold held. simpl. by rewrite Hu'.
Qed.

(** C9, as the code has it. On a page that starts with no live object URL,
    and as long as no view is torn down while a call it made is in flight:
    after every step the live object URLs are exactly the one the mounted view
    holds, so there is never more than one; a new submission revokes the URL
    the view holds before anything replaces it; a teardown revokes it and
    leaves none. *)
Theorem object_url_released_before_replaced (acts : list Action) (b0 : Browser W) :
  objectURLs b0 = [] ->
  quiet_teardowns P acts (start b0) = true ->
  Forall
    (fun pg =>
       (objectURLs (browser pg) = held pg /\ length (objectURLs (browser pg)) <= 1)
       /\ (forall i st, view pg = Some (i, st) -> can_generate st = true ->
             objectURLs (browser (step P ClickGenerate pg)) = []
             /\ held (step P ClickGenerate pg) = []
             /\ (forall u, videoUrl st = Some u ->
                   ERevokeObjectURL u ∈ trace (browser (step P ClickGenerate pg))))
       /\ (jobs pg = [] ->
             objectURLs (browser (step P Unmount pg)) = []
             /\ (forall i st u, view pg = Some (i, st) -> videoUrl st = Some u ->
                   ERevokeObjectURL u ∈ trace (browser (step P Unmount pg)))))
    (start b0 :: run P acts (start b0)).
Proof.
  intros Hb0 Hquiet.
  assert (Forall tidy (start b0 :: run P acts (start b0))) as Htidy.
  { constructor; [by apply tidy_start|]. apply run_tidy; [by apply tidy_start|done]. }
  eapply Forall_impl; [exact Htidy|]. intros pg Ht. split; [|split].
  - split; [by destruct Ht|by apply tidy_at_most_one].
  - intros i st Hv Hcan. by apply (click_tidy pg i st).
  - intros Hjobs. by apply unmount_tidy.
Qed.

End Video.

(* ================================================================== *)
(** * The properties at work on the scripted environments *)
(* ================================================================== *)

Local Open Scope Z_scope.
Local Open Scope nat_scope.
Local Open Scope string_scope.

Lemma poller_two_suspensions_then_asset_witness :
  let b := Scenario.browser Scenario.two_rounds ∅ in
  let r := GeminiService.generateVideoWithPrompt Scenario.provider 2 "a cat"
             Landscape_16_9 None b in
  GeminiService.is_done (Scenario.not_done "op") = false
  /\ GeminiService.downloadLink (Scenario.done_with "op" Scenario.link) = Some Scenario.link
  /\ r.1 = Resolved "blob:0"
  /\ suspensions (trace r.2) = 2
  /\ objectURLs r.2 = ["blob:0"].
Proof.
  split; [reflexivity|]. split; [reflexivity|].
  edestruct (poller_two_suspensions_then_asset Scenario.provider 2 "a cat"
               Landscape_16_9 None (Scenario.browser Scenario.two_rounds ∅))
    as (H1 & _ & H3 & H4).
  - apply le_n.
  - reflexivity.
  - reflexivity.
  - reflexivity.
  - reflexivity.
  - reflexivity.
  - reflexivity.
  - reflexivity.
  - reflexivity.
  - reflexivity.
  - reflexivity.
  - reflexivity.
  - split; [exact H1|]. split; [exact H3|exact H4].
Defined.

(** Against C1 as it is worded: the same three statuses, with a link to the
    result in the third, and the download refused by the server. The two
    suspensions are made all the same, but the call does not resolve: it fails
    with the status of the refusal. *)
Lemma poller_two_suspensions_download_refused :
  let b := Scenario.browser Scenario.two_rounds_refused ∅ in
  let r := GeminiService.generateVideoWithPrompt Scenario.provider 2 "a cat"
             Landscape_16_9 None b in
  (GeminiService.await_done Scenario.provider 0 "a cat" Landscape_16_9 None b).1 = Pending
  /\ (GeminiService.await_done Scenario.provider 1 "a cat" Landscape_16_9 None b).1 = Pending
  /\ (GeminiService.await_done Scenario.provider 2 "a cat" Landscape_16_9 None b).1
     = Resolved (Scenario.done_with "op" Scenario.link)
  /\ GeminiService.downloadLink (Scenario.done_with "op" Scenario.link) = Some Scenario.link
  /\ r.1 = Rejected (ErrorObj
          "Failed to generate video: Failed to download the generated video. Status: 403")
  /\ suspensions (trace r.2) = 2
  /\ fetches (trace r.2) = 1
  /\ objectURLs r.2 = [].
Proof. vm_compute. done. Qed.

Lemma done_without_link_fails_without_download_witness :
  let b := Scenario.browser Scenario.no_result ∅ in
  let r := GeminiService.generateVideoWithPrompt Scenario.provider 1 "a cat"
             Landscape_16_9 None b in
  Js.truthy_opt (GeminiService.downloadLink (Scenario.done_without "op")) = false
  /\ r.1 = Rejected (ErrorObj
             "Failed to generate video: Video generation succeeded but no download link was found.")
  /\ fetches (trace r.2) = 0
  /\ objectURLs r.2 = [].
Proof.
  split; [reflexivity|].
  edestruct (done_without_link_fails_without_download Scenario.provider 1 "a cat"
               Landscape_16_9 None (Scenario.browser Scenario.no_result ∅))
    as (_ & H2 & H3 & H4).
  - reflexivity.
  - reflexivity.
  - split; [exact H2|]. split; [exact H3|exact H4].
Defined.


(** An error of another kind: the generic failure with the provider's message,
    and the flag stays set. *)
Example video_error_quota :
  let view := VideoGenerator.handleSubmit Scenario.provider 1
                (Scenario.ready,
                 Scenario.browser (Scenario.rejecting Scenario.quota_exceeded) ∅) in
  VideoGenerator.error view.1
  = Some "Failed to generate video: Quota exceeded for quota metric."
  /\ VideoGenerator.isKeySelected view.1 = true.
Proof. vm_compute. done. Qed.

(** A rejection with [undefined]: the [catch] block fails on its first test,
    and the view shows that [TypeError]. *)
Example video_error_undefined :
  let view := VideoGenerator.handleSubmit Scenario.provider 1
                (Scenario.ready,
                 Scenario.browser (Scenario.rejecting (OtherThrown None)) ∅) in
  VideoGenerator.error view.1
  = Some "Cannot read properties of undefined (reading 'includes')"
  /\ VideoGenerator.isKeySelected view.1 = true.
Proof. vm_compute. done. Qed.


Lemma load_failure_resets_store_witness :
  let b := Scenario.browser Scenario.editing Scenario.corrupt_original_store in
  let page := ImageEditor.load Ecma.lib (ImageEditor.initial, b) in
  ImageEditor.unparseable Ecma.lib "originalImage" b
  /\ page.1 = ImageEditor.initial
  /\ localStorage page.2 = ∅
  /\ trace page.2 = [EConsoleError "Failed to load state from localStorage"].
Proof.
  assert (ImageEditor.unparseable Ecma.lib "originalImage"
            (Scenario.browser Scenario.editing Scenario.corrupt_original_store)) as Hraise.
  { exists "{base64". repeat split; vm_compute; reflexivity. }
  split; [exact Hraise|].
  destruct (load_failure_resets_store Ecma.lib ImageEditor.initial
              (Scenario.browser Scenario.editing Scenario.corrupt_original_store)
              (or_introl Hraise))
    as (_ & H2 & H3 & _ & H5).
  split; [exact H5|]. split; [exact H2|exact H3].
Defined.

(** Against C4 as it is worded: with the history unparseable and the other
    two keys sound, the load leaves the original and the edited image in the
    session state while the store is emptied. *)
Lemma load_keeps_images_when_history_is_corrupt :
  let b := Scenario.browser Scenario.editing Scenario.corrupt_history_store in
  let page := ImageEditor.load Ecma.lib (ImageEditor.initial, b) in
  ImageEditor.unparseable Ecma.lib "editHistory" b
  /\ ImageEditor.originalImage page.1 = Some Scenario.photo
  /\ ImageEditor.editedImage page.1 = Some Scenario.second_result
  /\ ImageEditor.history page.1 = []
  /\ page.1 <> ImageEditor.initial
  /\ localStorage page.2 = ∅.
Proof.
  cbv zeta. split.
  { exists "[oops". repeat split; vm_compute; reflexivity. }
  repeat split; try (vm_compute; reflexivity).
  vm_compute. discriminate.
Qed.

Lemma revert_then_append_witness :
  let b := Scenario.browser Scenario.editing Scenario.session_store in
  let reverted := ImageEditor.handleRevertToHistory Scenario.first_result
                    (Scenario.session, b) in
  let appended := ImageEditor.handleSubmit Scenario.provider Scenario.decoder Ecma.lib
                    reverted in
  ImageEditor.editedImage reverted.1 = Some Scenario.first_result
  /\ ImageEditor.history appended.1
     = [Scenario.first_result; Scenario.second_result; "data:image/png;base64,DDDD"].
Proof.
  edestruct (revert_then_append Scenario.provider Scenario.decoder Ecma.lib
               Scenario.session (Scenario.browser Scenario.editing Scenario.session_store))
    as (_ & H2 & H3 & _).
  - apply list_elem_of_here.
  - reflexivity.
  - reflexivity.
  - vm_compute. reflexivity.
  - split; [exact H2|exact H3].
Defined.

Lemma write_through_keeps_the_mirror_witness :
  let page := (Scenario.session,
               Scenario.browser Scenario.editing Scenario.session_store) in
  let Q := Examples.bounded 1000 in
  let y := "data:image/png;base64,DDDD" in
  let settled := Quota.handleSubmit_settle Ecma.lib Q true Scenario.session (Resolved y)
                   page in
  let reverted := Quota.handleRevertToHistory Q Scenario.first_result page in
  ImageEditor.mirrors Ecma.lib page
  /\ ImageEditor.history settled.1 = [Scenario.first_result; Scenario.second_result; y]
  /\ getItem "editedImage" settled.2 = Some y
  /\ ImageEditor.mirrors Ecma.lib settled
  /\ reverted.1 = None
  /\ getItem "editedImage" reverted.2.2 = Some Scenario.first_result
  /\ ImageEditor.mirrors Ecma.lib reverted.2
  /\ ImageEditor.mirrors Ecma.lib (ImageEditor.handleClearHistory page).
Proof.
  assert (ImageEditor.mirrors Ecma.lib
            (Scenario.session, Scenario.browser Scenario.editing Scenario.session_store))
    as Hm.
  { repeat split; vm_compute; reflexivity. }
  split; [exact Hm|].
  destruct (write_through_keeps_the_mirror Ecma.lib (Examples.bounded 1000)
              (Scenario.session, Scenario.browser Scenario.editing Scenario.session_store)
              {| file_name := "cat.png"; file_type := "image/png"; file_bytes := [] |}
              "data:image/png;base64,AAAA" Scenario.first_result
              "data:image/png;base64,DDDD" Scenario.session)
    as (_ & _ & Hsettle & Hrevert & Hclear).
  destruct Hsettle as (_ & _ & S3 & S4 & _ & _ & S7);
    [vm_compute; reflexivity|vm_compute; reflexivity|].
  destruct Hrevert as (R1 & _ & _ & _ & R5 & _ & R7); [vm_compute; reflexivity|].
  destruct Hclear as (_ & _ & _ & _ & _ & C6).
  split; [exact S3|].
  split; [unfold getItem; rewrite S4; vm_compute; reflexivity|].
  split; [exact (S7 Hm)|]. split; [exact R1|].
  split; [unfold getItem; rewrite R5; vm_compute; reflexivity|].
  split; [exact (R7 Hm)|exact (C6 Hm)].
Defined.

(** Against C6 as it is worded: the setters of a successful edit run before
    the store is written, inside the [try]. In a store that is full, the
    edited image is written (it takes the room of the one it replaces) and the
    longer history is refused: the result is in the history of the session,
    an error is shown, and the store still holds the history without it. *)
Lemma refused_write_leaves_the_store_behind :
  let page := (Scenario.session,
               Scenario.browser Scenario.editing Scenario.session_store) in
  let y := "data:image/png;base64,DDDD" in
  let after := Quota.handleSubmit Scenario.provider Scenario.decoder Ecma.lib
                 (Examples.bounded 199) page in
  ImageEditor.mirrors Ecma.lib page
  /\ Examples.held Scenario.session_store = 199
  /\ ImageEditor.editedImage after.1 = Some y
  /\ ImageEditor.history after.1 = [Scenario.first_result; Scenario.second_result; y]
  /\ ImageEditor.error after.1 = Some Examples.msg_quota_exceeded
  /\ getItem "editedImage" after.2 = Some y
  /\ getItem "editHistory" after.2
     = Some (Ecma.stringify
               (history_to_JSON [Scenario.first_result; Scenario.second_result]))
  /\ ~ ImageEditor.mirrors Ecma.lib after.
Proof.
  cbv zeta. split; [repeat split; vm_compute; reflexivity|].
  repeat (split; [vm_compute; reflexivity|]).
  intros (_ & _ & Hh). vm_compute in Hh. discriminate.
Qed.

(** The other way the store and the state part: a call that settles after
    its component was unmounted writes the store all the same, over the head
    of the component mounted since, whose state came from the store as it
    was. *)
Example settle_after_remount_leaves_the_state_behind :
  let b := Scenario.browser Scenario.editing Scenario.session_store in
  let y := "data:image/png;base64,DDDD" in
  let remounted := ImageEditor.load Ecma.lib (ImageEditor.initial, b) in
  let after := Quota.handleSubmit_settle Ecma.lib Quota.unlimited false Scenario.session
                 (Resolved y) remounted in
  ImageEditor.mirrors Ecma.lib remounted
  /\ after.1 = remounted.1
  /\ ImageEditor.history after.1 = [Scenario.first_result; Scenario.second_result]
  /\ getItem "editHistory" after.2
     = Some (Ecma.stringify
               (history_to_JSON [Scenario.first_result; Scenario.second_result; y]))
  /\ ~ ImageEditor.mirrors Ecma.lib after.
Proof.
  cbv zeta. split; [repeat split; vm_compute; reflexivity|].
  repeat (split; [vm_compute; reflexivity|]).
  intros (_ & He & _). vm_compute in He. discriminate.
Qed.

Lemma normalize_same_encoding_is_identity_witness :
  let generated := {| data := "DDDD"; mimeType := "image/png" |} in
  let b := Scenario.browser Scenario.editing ∅ in
  ImageEditor.normalize Scenario.decoder ImageEditor.PNG generated b
  = (Resolved "data:image/png;base64,DDDD", b)
  /\ nth 1 (Js.split "," "data:image/png;base64,DDDD") EmptyString = "DDDD".
Proof.
  exact (normalize_same_encoding_is_identity Scenario.decoder ImageEditor.PNG
           {| data := "DDDD"; mimeType := "image/png" |}
           (Scenario.browser Scenario.editing ∅) eq_refl eq_refl).
Defined.

Lemma jpeg_conversion_fills_white_first_witness :
  let r := ImageEditor.convertImageFormat Scenario.decoder "DDDD" "image/png"
             ImageEditor.JPEG (Scenario.browser Scenario.editing ∅) in
  Canvas.decode Scenario.decoder "data:image/png;base64,DDDD" = Some Scenario.two_pixels
  /\ r.1 = Resolved "data:image/jpeg;px,255.255.255.255,200.100.0.255"
  /\ Forall (fun p => Canvas.alpha p = 255%Z)
       (Canvas.pixels (ImageEditor.rendered ImageEditor.JPEG Scenario.two_pixels)).
Proof.
  split; [reflexivity|].
  destruct (jpeg_conversion_fills_white_first Scenario.decoder "DDDD" "image/png"
              Scenario.two_pixels (Scenario.browser Scenario.editing ∅) eq_refl eq_refl)
    as (H1 & _ & _ & _ & _ & H6).
  split; [rewrite H1; vm_compute; reflexivity|exact H6].
Defined.


Lemma object_url_released_before_replaced_witness :
  let acts := [VideoGenerator.Mount true; VideoGenerator.TypePrompt "a cat";
               VideoGenerator.ClickGenerate; VideoGenerator.Settle 0 1;
               VideoGenerator.ClickGenerate; VideoGenerator.Settle 0 1;
               VideoGenerator.Unmount] in
  let pages := VideoGenerator.run Scenario.provider acts
                 (VideoGenerator.start (Scenario.browser Scenario.instant ∅)) in
  map (fun pg => objectURLs (VideoGenerator.browser pg)) pages
  = [[]; []; []; ["blob:0"]; []; ["blob:1"]; []]
  /\ Forall (fun pg => length (objectURLs (VideoGenerator.browser pg)) <= 1) pages.
Proof.
  split; [vm_compute; reflexivity|].
  pose proof (object_url_released_before_replaced Scenario.provider
                [VideoGenerator.Mount true; VideoGenerator.TypePrompt "a cat";
                 VideoGenerator.ClickGenerate; VideoGenerator.Settle 0 1;
                 VideoGenerator.ClickGenerate; VideoGenerator.Settle 0 1;
                 VideoGenerator.Unmount]
                (Scenario.browser Scenario.instant ∅) eq_refl eq_refl) as H.
  apply Forall_cons_1 in H as [_ H].
  eapply Forall_impl; [exact H|]. intros pg ((_ & Hlen) & _). exact Hlen.
Defined.

(** Against C9 as it is worded: the view is torn down while its call is in
    flight; the call then settles and its object URL is held by no view and
    never revoked; after the next mount and submission two object URLs are
    live. *)
Lemma two_live_object_urls_after_teardown_in_flight :
  let acts := [VideoGenerator.Mount true; VideoGenerator.TypePrompt "a cat";
               VideoGenerator.ClickGenerate; VideoGenerator.Unmount;
               VideoGenerator.Settle 0 1;
               VideoGenerator.Mount true; VideoGenerator.TypePrompt "a dog";
               VideoGenerator.ClickGenerate; VideoGenerator.Settle 0 1] in
  let pages := VideoGenerator.run Scenario.provider acts
                 (VideoGenerator.start (Scenario.browser Scenario.instant ∅)) in
  map (fun pg => objectURLs (VideoGenerator.browser pg)) pages
  = [[]; []; []; []; ["blob:0"]; ["blob:0"]; ["blob:0"]; ["blob:0"];
     ["blob:0"; "blob:1"]]
  /\ (VideoGenerator.held <$> pages !! 4) = Some []
  /\ (fun pg => length (objectURLs (VideoGenerator.browser pg))) <$> last pages = Some 2
  /\ (fun pg => revocations (trace (VideoGenerator.browser pg))) <$> last pages = Some 0.
Proof. vm_compute. done. Qed.

(* ================================================================== *)
(** * Further properties *)
(* ================================================================== *)

Local Open Scope list_scope.

(** ** More on strings *)

(** A needle whose first character is absent is not there. *)
Lemma includes_absent (c : ascii) (needle s : string) :
  Js.mem_char c s = false -> Js.includes (String c needle) s = false.
Proof.
  induction s as [|a s IH]; simpl; [done|].
  intros H. apply orb_false_iff in H as [Hca Hs]. rewrite Hca. simpl. by apply IH.
Qed.

Lemma mem_char_pretty_N_go (c : ascii) (x : N) (s : string) :
  (forall d : N, pretty_N_char d <> c) ->
  Js.mem_char c (pretty_N_go x s) = Js.mem_char c s.
Proof.
  intros Hc. revert s. induction (N.lt_wf_0 x) as [x _ IH]. intros s.
  destruct (decide (x = 0%N)) as [->|Hx]; [by rewrite pretty_N_go_0|].
  rewrite pretty_N_go_step by lia.
  rewrite IH by (apply N.div_lt; lia). simpl.
  destruct (Ascii.eqb_spec c (pretty_N_char (x `mod` 10)%N)) as [->|_]; [|done].
  by destruct (Hc (x `mod` 10)%N).
Qed.

(** A printed number has no letter R in it. *)
Lemma no_R_in_number (n : N) : Js.mem_char "R" (pretty n) = false.
Proof.
  unfold pretty, pretty_N. case_decide; [done|].
  rewrite mem_char_pretty_N_go; [done|].
  intros d. unfold pretty_N_char. by repeat case_match.
Qed.

(** The message of a refused download does not look like a bad key. *)
Lemma download_failed_has_no_signature (n : N) :
  Js.includes GeminiService.signature_entity_not_found
    (GeminiService.msg_download_failed +:+ pretty n) = false.
Proof.
  unfold GeminiService.signature_entity_not_found.
  rewrite (includes_skip_prefix "R" _ GeminiService.msg_download_failed) by done.
  apply includes_absent, no_R_in_number.
Qed.




(** ** The poll loop, for any number of rounds *)

Section PollerMore.

Context {W : Type} (P : Provider W).

Import GeminiService.

Lemma suspensions_app (t u : list Event) :
  suspensions (t ++ u) = suspensions t + suspensions u.
Proof. unfold suspensions. by rewrite filter_app, length_app. Qed.

Lemma fetches_app (t u : list Event) : fetches (t ++ u) = fetches t + fetches u.
Proof. unfold fetches. by rewrite filter_app, length_app. Qed.

Lemma suspensions_round_events (handles : list Operation) :
  suspensions (Poller.round_events handles) = length handles.
Proof.
  induction handles as [|o handles IH]; [reflexivity|].
  change (Poller.round_events (o :: handles))
    with ([ESetTimeout poll_interval; EGetVideosOperation o] ++ Poller.round_events handles).
  rewrite suspensions_app, IH. reflexivity.
Qed.

Lemma fetches_round_events (handles : list Operation) :
  fetches (Poller.round_events handles) = 0.
Proof.
  induction handles as [|o handles IH]; [reflexivity|].
  change (Poller.round_events (o :: handles))
    with ([ESetTimeout poll_interval; EGetVideosOperation o] ++ Poller.round_events handles).
  rewrite fetches_app, IH. reflexivity.
Qed.

Lemma asked_cons (first next : Operation) (rest : list Operation) :
  Poller.asked first (next :: rest) = first :: Poller.asked next rest.
Proof. done. Qed.

(** X1. Whatever the number of rounds: when the successive status queries are
    answered with handles that are not done and then with one that is, the
    loop ends with that last handle, having made one suspension and one query
    per answer, each query for the handle the previous one returned. *)
Theorem poll_suspends_once_per_answer
    (fuel : nat) (operation final : Operation) (answers : list Operation)
    (wf : W) (b : Browser W) :
  Poller.rounds P operation (ext b) answers final wf ->
  is_done final = true ->
  length answers <= fuel ->
  let r := poll P fuel operation b in
  r.1 = Resolved final
  /\ trace r.2 = trace b ++ Poller.round_events (Poller.asked operation answers)
  /\ suspensions (trace r.2) = suspensions (trace b) + length answers
  /\ ext r.2 = wf.
Proof.
  revert fuel operation b.
  induction answers as [|next rest IH]; intros fuel operation b Hrounds Hdone Hfuel.
  - destruct Hrounds as [-> <-]. rewrite poll_done by done. simpl.
    rewrite app_nil_r. repeat split. unfold suspensions. simpl. lia.
  - destruct Hrounds as (Hnot & w' & Hq & Hrest).
    destruct fuel as [|fuel]; [simpl in Hfuel; lia|].
    rewrite (poll_round P fuel operation next w' b Hnot Hq).
    destruct (IH fuel next (after_round operation w' b)) as (H1 & H2 & H3 & H4);
      [done|done|simpl in Hfuel; lia|].
    cbv zeta. split; [exact H1|]. split; [|split; [|exact H4]].
    + rewrite H2, asked_cons. unfold Poller.round_events. simpl.
      by rewrite <- app_assoc.
    + rewrite H3. simpl. rewrite suspensions_app.
      change (suspensions [ESetTimeout poll_interval; EGetVideosOperation operation])
        with 1.
      lia.
Qed.

(** X2. The loop has no ceiling: with a provider whose answers are never
    done, it is still running after any number of rounds, having suspended
    once per round, and the call never settles. *)
Theorem poll_never_gives_up
    (fuel : nat) (prompt : string) (aspectRatio : AspectRatio)
    (startingImage : option InlineData) (operation : Operation) (b : Browser W) :
  Poller.never_done P ->
  is_done operation = false ->
  (poll P fuel operation b).1 = Pending
  /\ suspensions (trace (poll P fuel operation b).2) = suspensions (trace b) + fuel
  /\ (forall w,
        generateVideos P (generateVideos_params prompt aspectRatio startingImage) (ext b)
        = (inr operation, w) ->
        (generateVideoWithPrompt P fuel prompt aspectRatio startingImage b).1 = Pending).
Proof.
  intros Hnever Hnot.
  assert (Hloop : forall fuel operation b, is_done operation = false ->
            (poll P fuel operation b).1 = Pending
            /\ suspensions (trace (poll P fuel operation b).2)
               = suspensions (trace b) + fuel).
  { clear -Hnever. intros fuel. induction fuel as [|fuel IH]; intros operation b Hnot.
    - simpl. rewrite Hnot. simpl. split; [done|lia].
    - destruct (Hnever operation (setTimeout P poll_interval (ext b)))
        as (operation' & w' & Hq & Hnot').
      rewrite (poll_round P fuel operation operation' w' b Hnot Hq).
      destruct (IH operation' (after_round operation w' b) Hnot') as [H1 H2].
      split; [done|]. rewrite H2. simpl. rewrite suspensions_app.
      change (suspensions [ESetTimeout poll_interval; EGetVideosOperation operation])
        with 1.
      lia. }
  destruct (Hloop fuel operation b Hnot) as [H1 H2].
  split; [done|]. split; [done|].
  intros w Hs.
  unfold generateVideoWithPrompt, try_catch, generateVideo_try, bind.
  rewrite (await_done_submitted P fuel prompt aspectRatio startingImage b operation w Hs).
  match goal with |- context [poll P fuel operation ?b1] =>
    destruct (Hloop fuel operation b1 Hnot) as [H3 _];
    destruct (poll P fuel operation b1) as [r b2] end.
  simpl in H3. by rewrite H3.
Qed.

End PollerMore.

Section PollerErrors.

Context {W : Type} (P : Provider W).

Import GeminiService.

(** The loop runs through the rounds it is answered. *)
Lemma poll_rounds (fuel : nat) (operation last : Operation) (answers : list Operation)
    (wl : W) (b : Browser W) :
  Poller.rounds P operation (ext b) answers last wl ->
  length answers <= fuel ->
  poll P fuel operation b
  = poll P (fuel - length answers) last
      {| ext := wl; localStorage := localStorage b; objectURLs := objectURLs b;
         nextObjectURL := nextObjectURL b;
         trace := trace b ++ Poller.round_events (Poller.asked operation answers) |}.
Proof.
  revert fuel operation b.
  induction answers as [|next rest IH]; intros fuel operation b Hrounds Hfuel.
  - destruct Hrounds as [-> <-]. simpl. rewrite Nat.sub_0_r, app_nil_r. by destruct b.
  - destruct Hrounds as (Hnot & w' & Hq & Hrest).
    destruct fuel as [|fuel]; [simpl in Hfuel; lia|].
    rewrite (poll_round P fuel operation next w' b Hnot Hq).
    rewrite (IH fuel next (after_round operation w' b)); [|done|simpl in Hfuel; lia].
    rewrite asked_cons. unfold after_round, Poller.round_events. simpl.
    by rewrite <- app_assoc.
Qed.

(** X3. An error thrown by a status query, after any number of rounds, ends
    the call: it is rejected with what the [catch] block makes of the error
    (one of its three errors, or the [TypeError] of its first test for a value
    without a text), after one suspension per query made, and nothing is
    downloaded. *)
Theorem status_query_error_ends_the_call
    (fuel : nat) (prompt : string) (aspectRatio : AspectRatio)
    (startingImage : option InlineData) (b : Browser W)
    (operation last : Operation) (answers : list Operation)
    (w0 wl w' : W) (e : Thrown) :
  generateVideos P (generateVideos_params prompt aspectRatio startingImage) (ext b)
  = (inr operation, w0) ->
  Poller.rounds P operation w0 answers last wl ->
  is_done last = false ->
  getVideosOperation P last (setTimeout P poll_interval wl) = (inl e, w') ->
  length answers < fuel ->
  let r := generateVideoWithPrompt P fuel prompt aspectRatio startingImage b in
  r.1 = Rejected (classify e)
  /\ suspensions (trace r.2) = suspensions (trace b) + length answers + 1
  /\ fetches (trace r.2) = fetches (trace b)
  /\ objectURLs r.2 = objectURLs b.
Proof.
  intros Hs Hrounds Hnot Hq Hfuel.
  assert (Hrun : (generateVideo_try P fuel prompt aspectRatio startingImage b)
    = (Rejected e,
       after_round last w'
         {| ext := wl; localStorage := localStorage b; objectURLs := objectURLs b;
            nextObjectURL := nextObjectURL b;
            trace := (trace b ++ [EGenerateVideos
                        (generateVideos_params prompt aspectRatio startingImage)])
                     ++ Poller.round_events (Poller.asked operation answers) |})).
  { unfold generateVideo_try, bind.
    rewrite (await_done_submitted P fuel prompt aspectRatio startingImage b operation w0 Hs).
    rewrite (poll_rounds fuel operation last answers wl); [|done|simpl; lia].
    simpl.
    destruct (fuel - length answers) as [|k] eqn:Hk; [lia|].
    erewrite poll_throws; [done|done|exact Hq]. }
  cbv zeta. rewrite (generateVideo_rejected P _ _ _ _ _ _ _ Hrun). simpl.
  split; [done|]. split; [|split; [|done]].
  - rewrite !suspensions_app, suspensions_round_events.
    unfold Poller.asked. rewrite length_take. simpl.
    change (suspensions [EGenerateVideos _]) with 0.
    change (suspensions [ESetTimeout poll_interval; EGetVideosOperation last]) with 1.
    change (suspensions [EConsoleError _]) with 0. lia.
  - rewrite !fetches_app, fetches_round_events. simpl.
    change (fetches [EGenerateVideos _]) with 0.
    change (fetches [ESetTimeout poll_interval; EGetVideosOperation last]) with 0.
    change (fetches [EConsoleError _]) with 0. lia.
Qed.

(** X4. When the job is done with a link and the server refuses the download,
    the call fails with the generic failure that carries the download message
    and the status code; one fetch was made and no object URL. *)
Theorem refused_download_fails_with_status
    (fuel : nat) (prompt : string) (aspectRatio : AspectRatio)
    (startingImage : option InlineData) (b b' : Browser W) (final : Operation)
    (link : string) (resp : Response) (w : W) :
  await_done P fuel prompt aspectRatio startingImage b = (Resolved final, b') ->
  downloadLink final = Some link ->
  Js.truthy link = true ->
  fetch P (link +:+ "&key=" +:+ API_KEY P (ext b')) (ext b') = (inr resp, w) ->
  ok resp = false ->
  let r := generateVideoWithPrompt P fuel prompt aspectRatio startingImage b in
  r.1 = Rejected (ErrorObj (msg_failed_video +:+ msg_download_failed
                            +:+ pretty (status resp)))
  /\ fetches (trace r.2) = fetches (trace b) + 1
  /\ objectURLs r.2 = objectURLs b.
Proof.
  intros Hawait Hlink Htruthy Hfetch Hok.
  destruct (await_done_frame P fuel prompt aspectRatio startingImage b) as (Hf & _ & Hu & _).
  rewrite Hawait in Hf, Hu. simpl in Hf, Hu.
  assert (Hrun : generateVideo_try P fuel prompt aspectRatio startingImage b
    = (Rejected (ErrorObj (msg_download_failed +:+ pretty (status resp))),
       set_ext w (add_trace [EFetch (link +:+ "&key=" +:+ API_KEY P (ext b'))] b'))).
  { unfold generateVideo_try, bind. rewrite Hawait.
    unfold retrieve. rewrite Hlink, Htruthy.
    unfold bind, emit, call. simpl. rewrite Hfetch. simpl. by rewrite Hok. }
  cbv zeta. rewrite (generateVideo_rejected P _ _ _ _ _ _ _ Hrun).
  rewrite (classify_other (ErrorObj (msg_download_failed +:+ pretty (status resp))) _
             eq_refl)
    by apply download_failed_has_no_signature.
  simpl. split; [done|]. split; [|done].
  rewrite !fetches_app, Hf.
  change (fetches [EFetch _]) with 1. change (fetches [EConsoleError _]) with 0. lia.
Qed.

(** What the [catch] block throws is always an [Error]. *)
Lemma classify_is_Error (e : Thrown) : exists m, classify e = ErrorObj m.
Proof. unfold classify. repeat case_match; eauto. Qed.

(** X5. Whatever happens, the call leaves [localStorage] alone; it makes an
    object URL only when it resolves, and then just the one it returns; and
    when it fails it fails with an [Error], never with a raw value. *)
Theorem video_call_effects
    (fuel : nat) (prompt : string) (aspectRatio : AspectRatio)
    (startingImage : option InlineData) (b : Browser W) :
  let r := generateVideoWithPrompt P fuel prompt aspectRatio startingImage b in
  localStorage r.2 = localStorage b
  /\ match r.1 with
     | Resolved url =>
         url = object_url (nextObjectURL b)
         /\ objectURLs r.2 = objectURLs b ++ [url]
         /\ fetches (trace r.2) = fetches (trace b) + 1
     | Rejected e =>
         objectURLs r.2 = objectURLs b /\ exists m, e = ErrorObj m
     | Pending => objectURLs r.2 = objectURLs b /\ fetches (trace r.2) = fetches (trace b)
     end.
Proof.
  pose proof classify_is_Error as Hclass.
  cbv zeta.
  unfold generateVideoWithPrompt, try_catch, generateVideo_try, bind.
  destruct (await_done_frame P fuel prompt aspectRatio startingImage b)
    as (Hf & Hs & Hu & Hn).
  destruct (await_done P fuel prompt aspectRatio startingImage b) as [[final|e|] b1];
    simpl in *; [|by eauto|done].
  unfold retrieve.
  destruct (downloadLink final) as [link|]; [|by simpl; eauto].
  destruct (Js.truthy link); [|by simpl; eauto].
  unfold bind, emit, call, set_ext, of_sum, createObjectURL, ret, throw. simpl.
  destruct (fetch P _ (ext b1)) as [[e|resp] w]; simpl; [by eauto|].
  destruct (ok resp); [|by simpl; eauto].
  destruct (blob resp) as [e|bytes]; simpl; [by eauto|].
  rewrite Hs, Hu, Hn. repeat split.
  rewrite !fetches_app, Hf.
  change (fetches [EFetch _]) with 1. change (fetches [ECreateObjectURL _ _]) with 0. lia.
Qed.

End PollerErrors.

(** ** The image edit call *)

Section EditCall.

Context {W : Type} (P : Provider W).

Import GeminiService.

(** What the loop over the parts finds: the first part that passes the test,
    unless a part before it makes the test throw. *)
Lemma find_image_part_first (ps : list AnswerPart) :
  match find_image_part ps with
  | inr (Some d) =>
      exists before part after blob,
        ps = before ++ part :: after
        /\ part_inlineData part = Some blob
        /\ blob_mimeType blob = Some (mimeType d)
        /\ Js.startsWith "image/" (mimeType d) = true
        /\ data d = Js.template (blob_data blob)
        /\ Forall (fun p => is_image_part p = Some false) before
  | inr None => Forall (fun p => is_image_part p = Some false) ps
  | inl e =>
      e = ErrorObj msg_type_error_mimeType
      /\ exists before part after,
           ps = before ++ part :: after
           /\ is_image_part part = None
           /\ Forall (fun p => is_image_part p = Some false) before
  end.
Proof.
  induction ps as [|part ps IH]; [constructor|].
  cbn [find_image_part].
  destruct (part_inlineData part) as [blob|] eqn:Hd.
  - destruct (blob_mimeType blob) as [type|] eqn:Htype.
    + destruct (Js.startsWith "image/" type) eqn:Himg.
      * exists [], part, ps, blob. repeat split; done.
      * assert (is_image_part part = Some false) as Hpart.
        { unfold is_image_part. rewrite Hd, Htype. cbn [fmap option_fmap option_map].
          by rewrite Himg. }
        destruct (find_image_part ps) as [e|[d|]].
        -- destruct IH as (-> & before & part' & after & -> & H1 & H2).
           split; [done|]. exists (part :: before), part', after.
           split; [done|]. split; [done|]. by constructor.
        -- destruct IH as (before & part' & after & blob' & -> & H1 & H2 & H3 & H4 & H5).
           exists (part :: before), part', after, blob'.
           repeat split; try done. by constructor.
        -- by constructor.
    + split; [done|]. exists [], part, ps. split; [done|]. split; [|constructor].
      unfold is_image_part. by rewrite Hd, Htype.
  - assert (is_image_part part = Some false) as Hpart.
    { unfold is_image_part. by rewrite Hd. }
    destruct (find_image_part ps) as [e|[d|]].
    + destruct IH as (-> & before & part' & after & -> & H1 & H2).
      split; [done|]. exists (part :: before), part', after.
      split; [done|]. split; [done|]. by constructor.
    + destruct IH as (before & part' & after & blob' & -> & H1 & H2 & H3 & H4 & H5).
      exists (part :: before), part', after, blob'.
      repeat split; try done. by constructor.
    + by constructor.
Qed.

(** What the call makes of an answer that has parts to go over. *)
Lemma read_answer_parts (resp : GenerateContentResponse) (ps : list AnswerPart) :
  answer_parts resp = Some ps ->
  read_answer resp = match find_image_part ps with
                     | inl e => inl e
                     | inr (Some d) => inr d
                     | inr None => inl (ErrorObj msg_no_image)
                     end.
Proof.
  unfold answer_parts, read_answer.
  destruct (candidates resp) as [[|c cs]|]; simpl; [done| |done].
  destruct (content c) as [ct|]; simpl; [|done].
  destruct (parts ct) as [ps'|]; simpl; [|done]. by intros [= ->].
Qed.

(** An answer without parts to go over is a [TypeError], which is not the
    no-image failure. *)
Lemma read_answer_malformed (resp : GenerateContentResponse) :
  answer_parts resp = None ->
  exists m, read_answer resp = inl (ErrorObj m) /\ m <> msg_no_image.
Proof.
  unfold answer_parts, read_answer.
  destruct (candidates resp) as [[|c cs]|]; simpl; [by eexists| |by eexists].
  destruct (content c) as [ct|]; simpl; [|by eexists].
  destruct (parts ct) as [ps'|]; simpl; [done|by eexists].
Qed.

(** The call, by what it reads in the answer. *)
Lemma editImageWithPrompt_answered
    (base64Image mime prompt : string) (b : Browser W)
    (resp : GenerateContentResponse) (w : W) :
  generateContent P (editImage_params base64Image mime prompt) (ext b) = (inr resp, w) ->
  (editImageWithPrompt P base64Image mime prompt b).1
  = match read_answer resp with
    | inr d => Resolved d
    | inl (ErrorObj m) => Rejected (ErrorObj (msg_failed_image +:+ m))
    | inl (OtherThrown _) => Rejected (ErrorObj msg_unexpected_image)
    end.
Proof.
  intros Hgen. unfold editImageWithPrompt, try_catch, bind, emit, call. simpl.
  rewrite Hgen. simpl. by destruct (read_answer resp) as [[m|t]|d].
Qed.

(** X6. An answered edit reads the parts of the first candidate only. It
    resolves with the first part that holds inline data of an [image/] type,
    whatever parts that pass the test's reads come before it (text, other
    data) or in later candidates. It fails with the no-image message exactly
    when those parts are all there and none holds an image; an answer whose
    candidates, first candidate's content or parts are missing, or with an
    inline data without a type before any image, fails with the failed-to-
    generate prefix and the text of the [TypeError] instead. *)
Theorem edit_returns_first_image
    (base64Image mime prompt : string) (b : Browser W)
    (resp : GenerateContentResponse) (w : W) :
  generateContent P (editImage_params base64Image mime prompt) (ext b) = (inr resp, w) ->
  match (editImageWithPrompt P base64Image mime prompt b).1 with
  | Resolved d =>
      exists before part after blob,
        answer_parts resp = Some (before ++ part :: after)
        /\ part_inlineData part = Some blob
        /\ blob_mimeType blob = Some (mimeType d)
        /\ Js.startsWith "image/" (mimeType d) = true
        /\ data d = Js.template (blob_data blob)
        /\ Forall (fun p => is_image_part p = Some false) before
  | Rejected e =>
      exists m,
        e = ErrorObj (msg_failed_image +:+ m)
        /\ (m = msg_no_image <->
            exists ps, answer_parts resp = Some ps
                       /\ Forall (fun p => is_image_part p = Some false) ps)
        /\ (m <> msg_no_image ->
            answer_parts resp = None
            \/ exists before part after,
                 answer_parts resp = Some (before ++ part :: after)
                 /\ is_image_part part = None
                 /\ Forall (fun p => is_image_part p = Some false) before)
  | Pending => False
  end.
Proof.
  intros Hgen. rewrite (editImageWithPrompt_answered _ _ _ _ _ _ Hgen).
  destruct (answer_parts resp) as [ps|] eqn:Hparts.
  - rewrite (read_answer_parts resp ps Hparts).
    pose proof (find_image_part_first ps) as Hfind.
    destruct (find_image_part ps) as [e|[d|]].
    + destruct Hfind as (-> & before & part & after & -> & Hpart & Hbefore).
      exists msg_type_error_mimeType. split; [done|]. split.
      * split; [done|]. intros (ps' & [= <-] & Hall).
        apply Forall_app in Hall as [_ Hall]. inversion Hall as [|? ? Hp _]; subst.
        by rewrite Hpart in Hp.
      * intros _. right. by exists before, part, after.
    + destruct Hfind as (before & part & after & blob & -> & H1 & H2 & H3 & H4 & H5).
      by exists before, part, after, blob.
    + exists msg_no_image. split; [done|]. split; [|done].
      split; [|done]. intros _. by exists ps.
  - destruct (read_answer_malformed resp Hparts) as (m & -> & Hm).
    exists m. split; [done|]. split.
    + split; [done|]. by intros (ps & Hps & _).
    + intros _. by left.
Qed.



End EditCall.

(** ** More on the image editor *)

Section EditorMore.

Context {W : Type} (P : Provider W) (C : Canvas.Platform) (J : JSON.Lib).

Import ImageEditor.

(** X8. What a click on Generate leaves behind in a mounted editor, by the
    way it ends. The original image, the prompt and the format are never
    changed, and with no image or no prompt nothing is asked of the provider:
    only the message is set. When the provider or the conversion fails, the
    edited image, the history and the store stay as they were, and the error
    is shown. When they give a result, the result is made the edited image and
    appended to the history before anything is stored: if the store then
    refuses a write, the state keeps the result, the error of the refused
    write is shown, and the store holds the edited image only if that write
    came through, and never the new history; otherwise both keys are written
    and no error is shown. *)
Theorem edit_click_outcomes (Q : Quota.Storage) (st : State) (b : Browser W) :
  let page := Quota.handleSubmit P C J Q (st, b) in
  (originalImage page.1 = originalImage st
   /\ prompt page.1 = prompt st
   /\ outputFormat page.1 = outputFormat st)
  /\ match originalImage st with
     | Some original =>
         if Js.truthy (prompt st) then
           let ls := localStorage b in
           match (produce P C st original b).1 with
           | Resolved y =>
               let newHistory := history st ++ [y] in
               let written := JSON.stringify J (history_to_JSON newHistory) in
               editedImage page.1 = Some y
               /\ history page.1 = newHistory
               /\ isLoading page.1 = false
               /\ match Quota.refuses Q ls "editedImage" y with
                  | Some e =>
                      error page.1 = Some (Quota.shown e)
                      /\ localStorage page.2 = ls
                  | None =>
                      match Quota.refuses Q (<["editedImage" := y]> ls)
                              "editHistory" written with
                      | Some e =>
                          error page.1 = Some (Quota.shown e)
                          /\ localStorage page.2 = <["editedImage" := y]> ls
                      | None =>
                          error page.1 = None
                          /\ localStorage page.2
                             = <["editHistory" := written]> (<["editedImage" := y]> ls)
                      end
                  end
           | Rejected e =>
               editedImage page.1 = editedImage st
               /\ history page.1 = history st
               /\ isLoading page.1 = false
               /\ error page.1 = Some (Quota.shown e)
               /\ localStorage page.2 = ls
           | Pending => True
           end
         else page = (setError (Some msg_missing_input) st, b)
     | None => page = (setError (Some msg_missing_input) st, b)
     end.
Proof.
  cbv zeta. unfold Quota.handleSubmit, handleSubmit_begin.
  destruct (originalImage st) as [original|] eqn:Horig; [|done].
  destruct (Js.truthy (prompt st)) eqn:Hprompt; [|done].
  pose proof (produce_frame P C st original b) as [Hs _].
  destruct (produce P C st original b) as [[y|err|] b1]; simpl in Hs; cbn [fst snd].
  - unfold Quota.handleSubmit_settle, Quota.setItem. rewrite Hs.
    destruct (Quota.refuses Q (localStorage b) "editedImage" y) as [e|] eqn:H1.
    { simpl. by rewrite Hs. }
    cbn [localStorage set_localStorage].
    destruct (Quota.refuses Q (<["editedImage" := y]> (localStorage b)) "editHistory" _)
      as [e|] eqn:H2; simpl; done.
  - simpl. by rewrite Hs.
  - done.
Qed.

(** X9. When the generated image has to be converted and cannot be decoded,
    the click fails with the image-loading message; no canvas call is made and
    nothing is appended or stored. The same holds, with its own message, when
    no 2D context can be had. *)
Theorem undecodable_result_fails_the_edit
    (st : State) (b b1 : Browser W) (original : ImageFile.t) (generated : InlineData) :
  originalImage st = Some original ->
  Js.truthy (prompt st) = true ->
  GeminiService.editImageWithPrompt P (ImageFile.base64 original)
    (ImageFile.mimeType original) (prompt st) b = (Resolved generated, b1) ->
  mimeType generated <> mime (outputFormat st) ->
  Canvas.decode C (data_url (mimeType generated) (data generated)) = None
  \/ Canvas.getContext2d C = false ->
  let page := handleSubmit P C J (st, b) in
  error page.1
  = Some (match Canvas.decode C (data_url (mimeType generated) (data generated)) with
          | None => msg_image_loading_failed
          | Some _ => msg_no_context
          end)
  /\ history page.1 = history st
  /\ editedImage page.1 = editedImage st
  /\ localStorage page.2 = localStorage b
  /\ Forall (fun e => match e with ECanvas _ | EToDataURL _ _ => False | _ => True end)
       (drop (length (trace b1)) (trace page.2)).
Proof.
  intros Horig Hprompt Hedit Hmime Hfail. cbv zeta.
  destruct (editImageWithPrompt_frame P (ImageFile.base64 original)
              (ImageFile.mimeType original) (prompt st) b) as [Hs _].
  rewrite Hedit in Hs. simpl in Hs.
  unfold handleSubmit, handleSubmit_begin. rewrite Horig, Hprompt.
  unfold produce, bind. rewrite Hedit.
  unfold normalize. rewrite bool_decide_eq_true_2 by done.
  unfold convertImageFormat, bind, emit.
  destruct (Canvas.decode C _) as [img|] eqn:Hdec.
  - destruct Hfail as [?|Hctx]; [done|]. rewrite Hctx. simpl.
    repeat split; try done.
    rewrite <- app_assoc, drop_app_length. repeat constructor.
  - simpl. repeat split; try done.
    rewrite <- app_assoc, drop_app_length. repeat constructor.
Qed.


(** X11. What the handlers store, the start-up load brings back. If the store
    mirrors a session whose edited image is not the empty string, and the
    platform parses what it printed for the image and the history (printing
    non-empty texts), then loading that store into a fresh component gives the
    same original image (without its [File]), the same edited image and the
    same history, and logs nothing. *)
Theorem reload_restores_the_session
    (st : State) (b b' : Browser W) :
  mirrors J (st, b) ->
  localStorage b' = localStorage b ->
  editedImage st <> Some EmptyString ->
  (forall img, originalImage st = Some img ->
     Js.truthy (JSON.stringify J (ImageFile.to_JSON img)) = true
     /\ JSON.parse J (JSON.stringify J (ImageFile.to_JSON img))
        = Some (ImageFile.to_JSON img)) ->
  (Js.truthy (JSON.stringify J (history_to_JSON (history st))) = true
   /\ JSON.parse J (JSON.stringify J (history_to_JSON (history st)))
      = Some (history_to_JSON (history st))) ->
  let page := load J (initial, b') in
  originalImage page.1
  = (fun img => {| ImageFile.file := None; ImageFile.base64 := ImageFile.base64 img;
                   ImageFile.mimeType := ImageFile.mimeType img;
                   ImageFile.dataURL := ImageFile.dataURL img |}) <$> originalImage st
  /\ editedImage page.1 = editedImage st
  /\ history page.1 = history st
  /\ page.2 = b'.
Proof.
  intros (Ho & He & Hh) Hls Hedited Himg Hhist. cbv zeta.
  unfold mirrors_original, mirrors_edited, mirrors_history in *. simpl in *.
  unfold load, load_try, getItem in *. rewrite Hls, Ho, He, Hh.
  assert (Hback : forall h : list string, history_of_JSON (history_to_JSON h) = h).
  { intros h. unfold history_of_JSON, history_to_JSON.
    induction h as [|x h IH]; simpl; [done|]. f_equal. exact IH. }
  assert (Hload : load_original J
            ((fun i => JSON.stringify J (ImageFile.to_JSON i)) <$> originalImage st)
            initial
          = inr (setOriginalImage
                   ((fun img => {| ImageFile.file := None;
                                   ImageFile.base64 := ImageFile.base64 img;
                                   ImageFile.mimeType := ImageFile.mimeType img;
                                   ImageFile.dataURL := ImageFile.dataURL img |})
                      <$> originalImage st) initial)).
  { destruct (originalImage st) as [img|]; simpl; [|done].
    destruct (Himg img eq_refl) as [Ht Hp]. by rewrite Ht, Hp. }
  rewrite Hload.
  assert (Hedit : forall s0, editedImage (load_edited (editedImage st) s0) 
                             = match editedImage st with
                               | Some _ => editedImage st
                               | None => editedImage s0
                               end
                    /\ originalImage (load_edited (editedImage st) s0) = originalImage s0
                    /\ history (load_edited (editedImage st) s0) = history s0).
  { intros s0. unfold load_edited. destruct (editedImage st) as [[|c s]|]; simpl; done. }
  destruct (Hedit (setOriginalImage
                     ((fun img => {| ImageFile.file := None;
                                     ImageFile.base64 := ImageFile.base64 img;
                                     ImageFile.mimeType := ImageFile.mimeType img;
                                     ImageFile.dataURL := ImageFile.dataURL img |})
                        <$> originalImage st) initial)) as (E1 & E2 & E3).
  destruct (history st) as [|x h] eqn:Hhistory.
  - simpl. rewrite E1, E2, E3. simpl. repeat split. by destruct (editedImage st).
  - destruct Hhist as [Ht Hp]. unfold load_history. rewrite Ht, Hp, Hback. simpl.
    rewrite E1, E2. simpl. repeat split. by destruct (editedImage st).
Qed.


End EditorMore.

(** ** Conversion to PNG *)

Lemma source_over_blank (s : Canvas.Pixel) :
  (0 <= Canvas.alpha s)%Z ->
  Canvas.source_over s Canvas.transparent_black
  = if (Canvas.alpha s =? 0)%Z then Canvas.transparent_black else s.
Proof.
  intros Ha. unfold Canvas.source_over. simpl.
  rewrite Z.add_0_r.
  destruct (Z.eqb_spec (Canvas.alpha s) 0) as [H0|H0].
  - by rewrite H0.
  - assert (forall c : Z, ((c * Canvas.alpha s * 255 + 0) / (Canvas.alpha s * 255) = c)%Z)
      as Hmix.
    { intros c. rewrite Z.add_0_r, <- Z.mul_assoc. apply Z.div_mul. lia. }
    rewrite !Hmix. by destruct s.
Qed.

Lemma index_of_position (w i : nat) :
  (Nat.div i w - 0) * w + (Nat.modulo i w - 0) = i.
Proof.
  rewrite !Nat.sub_0_r. rewrite (Nat.div_mod_eq i w) at 3. lia.
Qed.

Section ConversionToPng.

Context {W : Type} (C : Canvas.Platform).

Import ImageEditor.

(** X13. A conversion to PNG draws the decoded image on the fresh surface
    without filling it first, so transparency is kept: every pixel keeps its
    alpha, an opaque pixel keeps its colour, and a fully transparent one is
    transparent black. (Of the colour of a partly transparent pixel, which a
    canvas that stores premultiplied colour rounds, nothing is stated.) *)
Theorem png_conversion_keeps_transparency
    (base64Data fromMimeType : string) (img : Canvas.Raster) (b : Browser W) :
  Canvas.decode C (data_url fromMimeType base64Data) = Some img ->
  Canvas.getContext2d C = true ->
  raster_complete img ->
  Forall (fun p => (0 <= Canvas.alpha p)%Z) (Canvas.pixels img) ->
  let r := convertImageFormat C base64Data fromMimeType PNG b in
  r.1 = Resolved (Canvas.toDataURL C "image/png" (9, 10)%Z (rendered PNG img))
  /\ trace r.2 = trace b ++ [ EImageLoad (data_url fromMimeType base64Data);
                              ECanvas (Canvas.DrawImage img 0 0);
                              EToDataURL "image/png" (9, 10)%Z ]
  /\ map Canvas.alpha (Canvas.pixels (rendered PNG img))
     = map Canvas.alpha (Canvas.pixels img)
  /\ (forall i p,
        Canvas.pixels img !! i = Some p ->
        (Canvas.alpha p = 255%Z -> Canvas.pixels (rendered PNG img) !! i = Some p)
        /\ (Canvas.alpha p = 0%Z ->
            Canvas.pixels (rendered PNG img) !! i = Some Canvas.transparent_black)).
Proof.
  intros Hdec Hctx Hcomplete Halpha.
  assert (Hpixels : Canvas.pixels (rendered PNG img)
     = map (fun p => if (Canvas.alpha p =? 0)%Z then Canvas.transparent_black else p)
         (Canvas.pixels img)).
  { change (rendered PNG img)
      with (Canvas.drawImage img 0 0
              (Canvas.create (Canvas.width img) (Canvas.height img))).
    apply list_eq. intros i.
    cbn [Canvas.drawImage Canvas.pixels Canvas.create Canvas.width Canvas.height].
    rewrite list_lookup_imap, list_lookup_fmap.
    destruct (decide (i < Canvas.width img * Canvas.height img)) as [Hi|Hi].
    - rewrite lookup_replicate_2 by done. simpl.
      rewrite in_rect_whole by done. rewrite index_of_position.
      destruct (Canvas.pixels img !! i) as [s|] eqn:Hs.
      + pose proof (Forall_lookup_1 _ _ _ _ Halpha Hs) as Hpos. simpl in Hpos.
        simpl. by rewrite source_over_blank.
      + apply lookup_ge_None_1 in Hs. unfold raster_complete in Hcomplete. lia.
    - rewrite (proj1 (lookup_replicate_None _ _ _)) by lia.
      rewrite (lookup_ge_None_2 (Canvas.pixels img) i)
        by (unfold raster_complete in Hcomplete; lia).
      done. }
  cbv zeta. unfold convertImageFormat, bind, emit. rewrite Hdec, Hctx.
  rewrite emit_all_run.
  split; [done|]. split; [by cbn; rewrite <- !app_assoc|]. split.
  - rewrite Hpixels, map_map. apply map_ext. intros p.
    destruct (Z.eqb_spec (Canvas.alpha p) 0) as [H0|_]; [by rewrite H0|done].
  - intros i p Hp. rewrite Hpixels, list_lookup_fmap, Hp. simpl.
    split; intros Ha; by rewrite Ha.
Qed.

End ConversionToPng.

(** ** More on the video view *)

Section VideoMore.

Context {W : Type} (P : Provider W).

Import VideoGenerator.

(** X14. A generation that fails leaves no video to show. The click had
    already revoked and dropped the video on display; after the failure the
    view holds none, that URL is not live, the error is the one the call was
    rejected with, and loading is over. *)
Theorem failed_generation_leaves_no_video
    (fuel : nat) (st : State) (b : Browser W) (e : Thrown) :
  Js.truthy (prompt st) = true ->
  isKeySelected st = true ->
  (GeminiService.generateVideo_try P fuel (prompt st) (aspectRatio st)
     (inline_of <$> startingImage st)
     (handleSubmit_begin (st, b)).1.2).1 = Rejected e ->
  let view := handleSubmit P fuel (st, b) in
  videoUrl view.1 = None
  /\ (forall u, videoUrl st = Some u -> Js.truthy u = true -> u ∉ objectURLs view.2)
  /\ (exists m, GeminiService.classify e = ErrorObj m /\ error view.1 = Some m)
  /\ isLoading view.1 = false
  /\ loadingMessage view.1 = EmptyString.
Proof.
  intros Hprompt Hkey Htry. cbv zeta.
  unfold handleSubmit. unfold handleSubmit_begin in *. rewrite Hprompt, Hkey in *.
  cbn [negb] in *.
  destruct (setVideoUrl None
              (setError None (setIsLoading true st), revoke_if_set (videoUrl st) b))
    as [st2 b2] eqn:Hset.
  cbn [fst snd] in *.
  assert (Hst2 : videoUrl st2 = None
                 /\ (forall u, videoUrl st = Some u -> Js.truthy u = true ->
                       u ∉ objectURLs b2)).
  { unfold setVideoUrl in Hset. simpl in Hset. case_decide as Hv; simplify_eq.
    - split; [done|]. intros u Hu. by rewrite Hu in Hv.
    - split; [done|]. intros u Hu Ht. rewrite Hu. unfold cleanup. simpl. rewrite Ht.
      simpl. rewrite list_elem_of_filter. intros [Hne _]. by apply Hne. }
  destruct Hst2 as [Hnone Hgone].
  destruct (GeminiService.generateVideo_try P fuel (prompt st) (aspectRatio st)
              (inline_of <$> startingImage st) b2) as [r b3] eqn:Hrun.
  simpl in Htry. subst r.
  rewrite (generateVideo_rejected P _ _ _ _ _ _ _ Hrun).
  pose proof (generateVideoWithPrompt_urls P fuel (prompt st) (aspectRatio st)
                (inline_of <$> startingImage st) b2) as Hurls.
  cbv zeta in Hurls.
  rewrite (generateVideo_rejected P _ _ _ _ _ _ _ Hrun) in Hurls. simpl in Hurls.
  destruct (classify_is_Error e) as [m Hm].
  unfold handleSubmit_settle. rewrite Hm. simpl.
  destruct (Js.includes key_error_marker m); simpl;
    (split; [done|]; split; [|split; [by exists m|done]]);
    intros u Hu Ht; rewrite Hurls; by apply Hgone.
Qed.

End VideoMore.

(** ** One call at a time *)

Section VideoExclusion.

Context {W : Type} (P : Provider W).

Import VideoGenerator.

Lemma calls_of_app (i : nat) (pg : @Page W) (job : Job) (b : Browser W)
    (v : option (nat * State)) :
  VideoPage.calls_of i
    {| browser := b; view := v; mounts := mounts pg; jobs := jobs pg ++ [job] |}
  = VideoPage.calls_of i pg
    ++ (if bool_decide (job_instance job = i) then [job] else []).
Proof.
  unfold VideoPage.calls_of. simpl. rewrite filter_app. f_equal.
  case_bool_decide as Hi.
  - rewrite filter_cons_True; [done|]. by apply bool_decide_pack.
  - rewrite filter_cons_False; [done|]. by intros ?%bool_decide_unpack.
Qed.

(** Removing a settled call from the list. *)
Lemma length_filter_delete (i n : nat) (l : list Job) (job : Job) :
  l !! n = Some job ->
  length (filter (fun j => bool_decide (job_instance j = i)) l)
  = length (filter (fun j => bool_decide (job_instance j = i)) (delete n l))
    + (if bool_decide (job_instance job = i) then 1 else 0).
Proof.
  revert n. induction l as [|x l IH]; intros n Hn; [done|].
  destruct n as [|n]; simpl in Hn.
  - simplify_eq. simpl. case_bool_decide as Hi.
    + rewrite filter_cons_True by (by apply bool_decide_pack). simpl. lia.
    + rewrite filter_cons_False by (by intros ?%bool_decide_unpack). lia.
  - simpl. destruct (decide (job_instance x = i)) as [Hx|Hx].
    + rewrite !filter_cons_True by (by apply bool_decide_pack). simpl.
      rewrite (IH n Hn). lia.
    + rewrite !filter_cons_False by (by intros ?%bool_decide_unpack).
      by apply IH.
Qed.

Lemma elem_of_delete (n : nat) (l : list Job) (job : Job) :
  job ∈ delete n l -> job ∈ l.
Proof.
  revert n. induction l as [|x l IH]; intros n; [by destruct n|].
  destruct n as [|n]; simpl.
  - intros H. by right.
  - intros [->|H]%elem_of_cons; [by left|right; by eapply IH].
Qed.

(** The cells an accepted or refused click leaves. *)
Lemma handleSubmit_begin_loading (st st' : State) (b b' : Browser W)
    (call : option (string * AspectRatio * option InlineData)) :
  handleSubmit_begin (st, b) = ((st', b'), call) ->
  isLoading st' = (if call is Some _ then true else isLoading st).
Proof.
  unfold handleSubmit_begin.
  destruct (negb (Js.truthy (prompt st))); [by intros [= <- <- <-]|].
  destruct (negb (isKeySelected st)); [by intros [= <- <- <-]|].
  unfold setVideoUrl. simpl. case_decide; by intros [= <- <- <-].
Qed.

Lemma handleSubmit_settle_loading (r : Outcome string) (st : State) (b : Browser W) :
  r <> Pending -> isLoading (handleSubmit_settle r (st, b)).1 = false.
Proof.
  intros Hr. destruct r as [url|e|]; [| |done]; unfold handleSubmit_settle.
  - unfold setVideoUrl. by case_decide.
  - cbv zeta.
    match goal with |- context [if ?c then _ else _] => by destruct c end.
Qed.

Lemma with_view_exclusive (pg : @Page W) (i : nat) (st st' : State) :
  view pg = Some (i, st) ->
  isLoading st' = isLoading st ->
  VideoPage.exclusive pg -> VideoPage.exclusive (with_view st' pg).
Proof.
  intros Hv Hl [H1 H2]. unfold with_view, VideoPage.exclusive in *. rewrite Hv in *.
  simpl. split; [done|]. by rewrite Hl.
Qed.

Lemma step_exclusive (a : Action) (pg : @Page W) :
  VideoPage.exclusive pg -> VideoPage.exclusive (step P a pg).
Proof.
  intros Hx. pose proof Hx as [H1 H2].
  destruct a as [hasKey| |s|r|img|aistudio| |n fuel]; unfold step.
  - (* Mount *)
    destruct (view pg) as [[i st]|] eqn:Hv; [done|].
    split; simpl.
    + intros job Hjob. specialize (H1 job Hjob). lia.
    + split; [lia|].
      assert (VideoPage.calls_of (mounts pg)
                {| browser := browser pg;
                   view := Some (mounts pg,
                                 if hasKey then setIsKeySelected true initial else initial);
                   mounts := S (mounts pg); jobs := jobs pg |} = []) as ->.
      { unfold VideoPage.calls_of. simpl.
        induction (jobs pg) as [|x l IH]; [done|].
        rewrite filter_cons_False.
        - apply IH. intros job Hjob. apply H1. by right.
        - intros Hx'%bool_decide_unpack.
          specialize (H1 x (list_elem_of_here _ _)). lia. }
      by destruct hasKey.
  - (* Unmount *)
    destruct (view pg) as [[i st]|] eqn:Hv; [|done]. by split.
  - destruct (view pg) as [[i st]|] eqn:Hv; [|done].
    destruct (isKeySelected st && negb (isLoading st)); [|done].
    by apply (with_view_exclusive pg i st).
  - destruct (view pg) as [[i st]|] eqn:Hv; [|done].
    destruct (isKeySelected st && negb (isLoading st)); [|done].
    by apply (with_view_exclusive pg i st).
  - destruct (view pg) as [[i st]|] eqn:Hv; [|done].
    destruct (isKeySelected st && _); [|done].
    by apply (with_view_exclusive pg i st).
  - destruct (view pg) as [[i st]|] eqn:Hv; [|done].
    destruct (negb (isKeySelected st) && aistudio); [|done].
    by apply (with_view_exclusive pg i st).
  - (* ClickGenerate *)
    destruct (view pg) as [[i st]|] eqn:Hv; [|done].
    destruct (can_generate st) eqn:Hcan; [|done].
    assert (isLoading st = false) as Hload.
    { unfold can_generate in Hcan. apply andb_true_iff in Hcan as [_ Hl].
      by apply negb_true_iff in Hl. }
    destruct H2 as [Hi Hcount]. rewrite Hload in Hcount.
    destruct (handleSubmit_begin (st, browser pg)) as [[st' b'] call] eqn:Hbegin.
    pose proof (handleSubmit_begin_loading _ _ _ _ _ Hbegin) as Hl'.
    destruct call as [[[p r] img]|].
    + split.
      * simpl. intros job [Hjob| ->%list_elem_of_singleton]%elem_of_app; [by apply H1|done].
      * cbn [view mounts]. split; [done|].
        rewrite calls_of_app, length_app, Hcount, Hl'. simpl.
        by rewrite bool_decide_eq_true_2.
    + split; [done|]. cbn [view mounts]. split; [done|].
      rewrite Hl', Hload. exact Hcount.
  - (* Settle *)
    destruct (jobs pg !! n) as [job|] eqn:Hjob; [|done].
    destruct (GeminiService.generateVideoWithPrompt P fuel _ _ _ (browser pg))
      as [r b'] eqn:Hcall.
    assert (forall job', job' ∈ delete n (jobs pg) -> job_instance job' < mounts pg)
      as H1'.
    { intros job' Hin. apply H1. by eapply elem_of_delete. }
    assert (r <> Pending ->
            VideoPage.exclusive
              match view pg with
              | Some (i, st) =>
                  if bool_decide (i = job_instance job) then
                    let '(st', b'') := handleSubmit_settle r (st, b') in
                    {| browser := b''; view := Some (i, st'); mounts := mounts pg;
                       jobs := delete n (jobs pg) |}
                  else
                    {| browser := b'; view := view pg; mounts := mounts pg;
                       jobs := delete n (jobs pg) |}
              | None =>
                  {| browser := b'; view := None; mounts := mounts pg;
                     jobs := delete n (jobs pg) |}
              end) as Hsettled.
    { intros Hr. destruct (view pg) as [[i st]|] eqn:Hv; [|by split].
      destruct H2 as [Hi Hcount].
      pose proof (length_filter_delete i n (jobs pg) job Hjob) as Hdel.
      unfold VideoPage.calls_of in Hcount.
      destruct (decide (i = job_instance job)) as [Hmine|Hmine].
      - rewrite (bool_decide_eq_true_2 _ Hmine).
        rewrite bool_decide_eq_true_2 in Hdel by done.
        pose proof (handleSubmit_settle_loading r st b' Hr) as Hl.
        destruct (handleSubmit_settle r (st, b')) as [st' b''].
        simpl in Hl. split; [exact H1'|]. cbn [view mounts]. split; [done|].
        rewrite Hl. unfold VideoPage.calls_of. cbn [jobs].
        destruct (isLoading st); lia.
      - rewrite (bool_decide_eq_false_2 _ Hmine).
        rewrite bool_decide_eq_false_2 in Hdel by (by intros Heq; apply Hmine).
        split; [exact H1'|]. cbn [view mounts]. split; [done|].
        unfold VideoPage.calls_of. cbn [jobs]. lia. }
    destruct r as [url|e|]; [by apply Hsettled|by apply Hsettled|done].
Qed.

(** X15. Whatever the user and the network do, in any order, the mounted
    view never has two generation calls in flight: at every page of the run it
    has exactly one while it is loading and none otherwise, and a click on
    Generate while it is loading changes nothing.  Calls of views torn down
    earlier may still be in flight beside it. *)
Theorem one_generation_at_a_time (acts : list Action) (b : Browser W) :
  Forall (fun pg =>
            forall i st, view pg = Some (i, st) ->
              length (VideoPage.calls_of i pg) = (if isLoading st then 1 else 0)
              /\ (isLoading st = true -> step P ClickGenerate pg = pg))
         (run P acts (start b)).
Proof.
  assert (Forall VideoPage.exclusive (run P acts (start b))) as Hx.
  { assert (VideoPage.exclusive (start b)) as H0.
    { split; [|done]. intros job Hin. by apply elem_of_nil in Hin. }
    revert H0. generalize (start b).
    induction acts as [|a acts IH]; intros pg Hpg; simpl; [constructor|].
    assert (VideoPage.exclusive (step P a pg)) by (by apply step_exclusive).
    constructor; [done|]. by apply IH. }
  eapply Forall_impl; [exact Hx|]. intros pg [_ H2] i st Hv. rewrite Hv in H2.
  destruct H2 as [_ Hcount]. split; [done|].
  intros Hl. unfold step. rewrite Hv. unfold can_generate. rewrite Hl.
  by rewrite andb_false_r.
Qed.

End VideoExclusion.

Section VideoRequests.

Context {W : Type} (P : Provider W).

Import VideoGenerator.

Lemma step_jobs_prompt (a : Action) (pg : @Page W) :
  Forall (fun job => Js.truthy (job_prompt job) = true) (jobs pg) ->
  Forall (fun job => Js.truthy (job_prompt job) = true) (jobs (step P a pg)).
Proof.
  intros Hjobs.
  destruct a as [hasKey| |s|r|img|aistudio| |n fuel]; unfold step.
  - by destruct (view pg) as [[i st]|].
  - by destruct (view pg) as [[i st]|].
  - destruct (view pg) as [[i st]|] eqn:Hv; [|done].
    destruct (_ && _); [|done]. unfold with_view. by rewrite Hv.
  - destruct (view pg) as [[i st]|] eqn:Hv; [|done].
    destruct (_ && _); [|done]. unfold with_view. by rewrite Hv.
  - destruct (view pg) as [[i st]|] eqn:Hv; [|done].
    destruct (_ && _); [|done]. unfold with_view. by rewrite Hv.
  - destruct (view pg) as [[i st]|] eqn:Hv; [|done].
    destruct (_ && _); [|done]. unfold with_view. by rewrite Hv.
  - destruct (view pg) as [[i st]|] eqn:Hv; [|done].
    destruct (can_generate st); [|done].
    unfold handleSubmit_begin.
    destruct (Js.truthy (prompt st)) eqn:Hprompt; simpl; [|done].
    destruct (isKeySelected st); simpl; [|done].
    case_decide; simpl.
    all: apply Forall_app; split; [done|]; by repeat constructor.
  - destruct (jobs pg !! n) as [job|]; [|done].
    destruct (GeminiService.generateVideoWithPrompt P fuel _ _ _ (browser pg))
      as [[url|e|] b']; [| |done].
    + destruct (view pg) as [[i st]|]; [|by apply Forall_delete].
      case_bool_decide; [|by apply Forall_delete].
      destruct (handleSubmit_settle _ _). by apply Forall_delete.
    + destruct (view pg) as [[i st]|]; [|by apply Forall_delete].
      case_bool_decide; [|by apply Forall_delete].
      destruct (handleSubmit_settle _ _). by apply Forall_delete.
Qed.

(** X20. Whatever the user and the network do, in any order, no generation
    call is ever in flight with an empty prompt; and from the handler itself,
    a submission with an empty prompt, or with no key selected, asks nothing of
    the provider and only shows its message. *)
Theorem no_generation_without_a_prompt (acts : list Action) (b : Browser W) :
  Forall (fun pg => Forall (fun job => Js.truthy (job_prompt job) = true) (jobs pg))
    (run P acts (start b))
  /\ (forall fuel st b0,
        Js.truthy (prompt st) = false \/ isKeySelected st = false ->
        exists message,
          handleSubmit P fuel (st, b0) = (setError (Some message) st, b0)).
Proof.
  split.
  - assert (Forall (fun job => Js.truthy (job_prompt job) = true) (jobs (start b)))
      as H0 by constructor.
    revert H0. generalize (start b).
    induction acts as [|a acts IH]; intros pg Hpg; simpl; [constructor|].
    pose proof (step_jobs_prompt a pg Hpg). constructor; [done|]. by apply IH.
  - intros fuel st b0 Hno. unfold handleSubmit, handleSubmit_begin.
    destruct (Js.truthy (prompt st)) eqn:Hprompt; simpl; [|by eexists].
    destruct Hno as [?|Hkey]; [done|]. rewrite Hkey. simpl. by eexists.
Qed.

End VideoRequests.

(** ** The chat session and the chat panel *)

Section Chat.

Context {W : Type} (B : ChatService.Backend W).

Import ChatService.

Lemma creations_app (l1 l2 : list Call) :
  creations (l1 ++ l2) = creations l1 + creations l2.
Proof. unfold creations. by rewrite filter_app, length_app. Qed.

Lemma sessions_app (l1 l2 : list Call) :
  sessions (l1 ++ l2) = sessions l1 ++ sessions l2.
Proof. unfold sessions. by rewrite omap_app. Qed.

(** One send to the session [h]: it settles, leaves [chat] alone, and logs
    the send, followed by nothing but the console. *)
Lemma send_to_log (h : Chat) (message : string) (s : Service W) :
  let r := send_to B h message s in
  r.1 <> Pending
  /\ chat r.2 = chat s
  /\ exists rest, calls r.2 = calls s ++ Send h message :: rest
                  /\ creations rest = 0 /\ sessions rest = [].
Proof.
  unfold send_to. destruct (sendMessage B h message (world s)) as [[e|reply] w]; simpl.
  - split; [done|]. split; [done|]. by eexists.
  - split; [done|]. split; [done|]. by exists [].
Qed.

Lemma sendMessageToBot_settles (message : string) (s : Service W) :
  (sendMessageToBot B message s).1 <> Pending.
Proof.
  unfold sendMessageToBot. destruct (chat s) as [h|].
  - apply send_to_log.
  - destruct (initializeChat B s) as [[e s']|[h s']]; [done|]. apply send_to_log.
Qed.

(** With a session at hand no other is made. *)
Lemma converse_with_session (messages : list string) (s : Service W) (h : Chat) :
  chat s = Some h ->
  let r := converse B messages s in
  chat r.2 = Some h
  /\ length r.1 = length messages
  /\ Forall (fun o => o <> Pending) r.1
  /\ exists new, calls r.2 = calls s ++ new
                 /\ creations new = 0
                 /\ sessions new = replicate (length messages) h.
Proof.
  revert s. induction messages as [|m rest IH]; intros s Hchat; cbv zeta.
  - simpl. repeat split; [done|constructor|]. exists []. by rewrite app_nil_r.
  - simpl. unfold sendMessageToBot. rewrite Hchat.
    pose proof (send_to_log h m s) as (Hsettles & Hkeep & tail & Hcalls & Hnone & Hsent).
    destruct (send_to B h m s) as [o s1]. simpl in *.
    specialize (IH s1 ltac:(congruence)).
    destruct (converse B rest s1) as [os s2]. simpl in *.
    destruct IH as (Hchat2 & Hlen & Hall & new & Hcalls2 & Hnone2 & Hsent2).
    split; [done|]. split; [by rewrite Hlen|]. split; [by constructor|].
    exists (Send h m :: tail ++ new). split; [|split].
    + rewrite Hcalls2, Hcalls. by rewrite <- app_assoc.
    + change (Send h m :: tail ++ new) with ([Send h m] ++ tail ++ new).
      rewrite !creations_app, Hnone, Hnone2. reflexivity.
    + change (Send h m :: tail ++ new) with ([Send h m] ++ tail ++ new).
      rewrite !sessions_app, Hsent, Hsent2. reflexivity.
Qed.

(** X16. The chat session is made at the first message and kept: when the
    module has no session yet and the client library opens one, the messages
    of a conversation, each sent when the call before it has settled, make one
    session, before anything is sent, and every one of them, after a failed
    send as well, goes to that session. *)
Theorem chat_session_is_created_once (messages : list string) (s : Service W)
    (h : Chat) (w : W) :
  chat s = None ->
  create B chat_model (world s) = (inr h, w) ->
  messages <> [] ->
  let r := converse B messages s in
  chat r.2 = Some h
  /\ exists new, calls r.2 = calls s ++ Create chat_model :: new
                 /\ creations new = 0
                 /\ sessions new = replicate (length messages) h.
Proof.
  intros Hnone Hcreate Hmessages. destruct messages as [|m rest]; [done|].
  cbv zeta. simpl. unfold sendMessageToBot, initializeChat. rewrite Hnone, Hcreate.
  set (s0 := {| chat := Some h; world := w; calls := calls s ++ [Create chat_model] |}).
  pose proof (send_to_log h m s0) as (Hsettles & Hkeep & tail & Hcalls & Hnone1 & Hsent).
  destruct (send_to B h m s0) as [o s1]. simpl in Hsettles, Hkeep, Hcalls.
  pose proof (converse_with_session rest s1 h ltac:(by rewrite Hkeep))
    as (Hchat2 & Hlen & Hall & new & Hcalls2 & Hnone2 & Hsent2).
  destruct (converse B rest s1) as [os s2]. simpl in *.
  split; [done|].
  exists (Send h m :: tail ++ new). split; [|split].
  - rewrite Hcalls2, Hcalls. rewrite <- !app_assoc. reflexivity.
  - change (Send h m :: tail ++ new) with ([Send h m] ++ tail ++ new).
    rewrite !creations_app, Hnone1, Hnone2. reflexivity.
  - change (Send h m :: tail ++ new) with ([Send h m] ++ tail ++ new).
    rewrite !sessions_app, Hsent, Hsent2. reflexivity.
Qed.

(** X17. While the client library cannot open a session, every message is
    rejected with the very value [ai.chats.create] threw, not a wrapped one
    (the call is made before the [try]); nothing is sent or logged, the module
    stays without a session, and each message tries to open one again. *)
Theorem failed_session_creation_is_retried (messages : list string) (s : Service W) :
  (forall w, exists e w', create B chat_model w = (inl e, w')) ->
  chat s = None ->
  let r := converse B messages s in
  chat r.2 = None
  /\ calls r.2 = calls s ++ replicate (length messages) (Create chat_model)
  /\ length r.1 = length messages
  /\ Forall (fun o => exists e w, o = Rejected e /\ (create B chat_model w).1 = inl e) r.1.
Proof.
  intros Hfails. revert s. induction messages as [|m rest IH]; intros s Hnone; cbv zeta.
  - simpl. by rewrite app_nil_r.
  - simpl. unfold sendMessageToBot, initializeChat. rewrite Hnone.
    destruct (Hfails (world s)) as (e & w' & Hcreate). rewrite Hcreate.
    set (s1 := {| chat := None; world := w'; calls := calls s ++ [Create chat_model] |}).
    specialize (IH s1 eq_refl). destruct (converse B rest s1) as [os s2].
    simpl in *. destruct IH as (Hchat & Hcalls & Hlen & Hall).
    split; [done|]. split; [by rewrite Hcalls, <- app_assoc|].
    split; [by rewrite Hlen|]. constructor; [|done].
    exists e, (world s). by rewrite Hcreate.
Qed.

End Chat.

Section ChatPanel.

Context {W : Type} (B : ChatService.Backend W) (trim : string -> string).

Import ChatBot.

(** X18. A send the panel accepts adds two messages to the transcript, the
    user's text as typed and then one answer: the reply when the service
    resolves, and the fixed apology whatever the failure is, whose error goes
    to the console only.  The text given to the service is the input as typed,
    not trimmed; afterwards the field is empty and the panel is not loading. *)
Theorem send_appends_question_and_one_answer (pg : @Page W) :
  refused trim (view pg) = false ->
  let r := ChatService.sendMessageToBot B (input (view pg)) (service pg) in
  let pg' := handleSend B trim pg in
  service pg' = r.2
  /\ input (view pg') = EmptyString
  /\ isLoading (view pg') = false
  /\ inflight pg' = inflight pg
  /\ match r.1 with
     | Resolved reply =>
         messages (view pg')
         = messages (view pg) ++ [ {| role := user; content := input (view pg) |};
                                   {| role := model; content := reply |} ]
         /\ console pg' = console pg
     | Rejected e =>
         messages (view pg')
         = messages (view pg) ++ [ {| role := user; content := input (view pg) |};
                                   fallback ]
         /\ console pg' = console pg ++ [e]
     | Pending => False
     end.
Proof.
  intros Hok. cbv zeta. unfold handleSend, handleSend_begin. rewrite Hok.
  pose proof (sendMessageToBot_settles B (input (view pg)) (service pg))
    as Hsettles.
  destruct (ChatService.sendMessageToBot B (input (view pg)) (service pg)) as [r s'].
  destruct r as [reply|e|]; [| |by simpl in Hsettles];
    simpl; rewrite <- app_assoc; repeat split.
Qed.

Lemma alternates_snoc (first : Role) (l : list ChatMessage) (m : ChatMessage) :
  alternates first l ->
  role m = match last_role l with
           | Some user => model
           | Some model => user
           | None => first
           end ->
  alternates first (l ++ [m]).
Proof.
  revert first. induction l as [|x l IH]; intros first Hl Hm.
  - simpl in *. done.
  - destruct Hl as [Hx Hl]. split; [done|]. apply IH; [done|].
    rewrite Hm. unfold last_role. destruct l as [|y l].
    + simpl. rewrite Hx. by destruct first.
    + change (last (x :: y :: l)) with (last (y :: l)).
      destruct (last (y :: l)) as [z|] eqn:Hz; [done|].
      by apply last_None in Hz.
Qed.

Lemma last_role_snoc (l : list ChatMessage) (m : ChatMessage) :
  last_role (l ++ [m]) = Some (role m).
Proof. unfold last_role. by rewrite last_snoc. Qed.

Lemma step_orderly (a : Action) (pg : @Page W) :
  orderly pg -> orderly (step B trim a pg).
Proof.
  intros Hpg. pose proof Hpg as (Halt & Hlast & Hfly).
  destruct a as [text| |]; unfold step.
  - destruct (isLoading (view pg)) eqn:Hl; [exact Hpg|]. unfold orderly. simpl.
    by rewrite Hl.
  - unfold handleSend_begin.
    destruct (refused trim (view pg)) eqn:Href; [exact Hpg|].
    apply orb_false_iff in Href as [_ Hl]. rewrite Hl in Hlast, Hfly.
    destruct (inflight pg) as [|m1 [|m2 rest]] eqn:Hin;
      [|by destruct Hfly|done].
    unfold orderly. simpl. split; [|split].
    + apply alternates_snoc; [done|]. by rewrite Hlast.
    + by rewrite last_role_snoc.
    + split; [done|]. by rewrite last_snoc.
  - destruct (inflight pg) as [|m1 [|m2 rest]] eqn:Hin; [exact Hpg| |done].
    destruct Hfly as [Hl Hasked]. rewrite Hl in Hlast.
    pose proof (sendMessageToBot_settles B m1 (service pg)) as Hsettles.
    destruct (ChatService.sendMessageToBot B m1 (service pg)) as [r s'].
    destruct r as [reply|e|]; [| |by simpl in Hsettles]; unfold orderly; simpl.
    + split; [|split; [|done]].
      * apply alternates_snoc; [done|]. by rewrite Hlast.
      * by rewrite last_role_snoc.
    + split; [|split; [|done]].
      * apply alternates_snoc; [done|]. by rewrite Hlast.
      * by rewrite last_role_snoc.
Qed.

(** X19. Whatever is typed, sent and answered, in any order, the transcript
    of the chat panel starts with the greeting and alternates between the
    assistant and the user; the panel is loading exactly while a call is in
    flight, there is never more than one, its text is the last message of the
    transcript, and a send while loading changes nothing. *)
Theorem chat_transcript_alternates (acts : list Action) (s : ChatService.Service W) :
  let pg := run B trim acts (start s) in
  head (messages (view pg)) = Some greeting
  /\ alternates model (messages (view pg))
  /\ last_role (messages (view pg)) = Some (if isLoading (view pg) then user else model)
  /\ (if isLoading (view pg)
      then exists message,
             inflight pg = [message]
             /\ last (messages (view pg)) = Some {| role := user; content := message |}
             /\ step B trim Submit pg = pg
      else inflight pg = []).
Proof.
  cbv zeta.
  assert (orderly (run B trim acts (start s))
          /\ head (messages (view (run B trim acts (start s)))) = Some greeting)
    as [(Halt & Hlast & Hfly) Hhead].
  { assert (orderly (start s) /\ head (messages (view (start s))) = Some greeting)
      as H0 by (by repeat split).
    revert H0. generalize (start s). unfold run.
    induction acts as [|a acts IH]; intros pg [Hpg Hhead]; [done|].
    simpl. apply IH. split; [by apply step_orderly|].
    destruct a as [text| |]; unfold step.
    - by destruct (isLoading (view pg)).
    - unfold handleSend_begin. destruct (refused trim (view pg)); [done|]. simpl.
      destruct (messages (view pg)); [done|]. done.
    - destruct (inflight pg) as [|m1 rest]; [done|].
      destruct (ChatService.sendMessageToBot B m1 (service pg)) as [r s'].
      destruct r as [reply|e|]; [| |done]; simpl;
        by destruct (messages (view pg)). }
  split; [done|]. split; [done|]. split; [done|].
  destruct (isLoading (view (run B trim acts (start s)))) eqn:Hl.
  - destruct (inflight (run B trim acts (start s))) as [|m1 [|m2 rest]] eqn:Hin;
      [done| |done].
    destruct Hfly as [_ Hasked]. exists m1. split; [done|]. split; [done|].
    unfold step, handleSend_begin, refused. rewrite Hl. by rewrite orb_true_r.
  - destruct (inflight (run B trim acts (start s))) as [|m1 [|m2 rest]] eqn:Hin;
      [done| |done].
    by destruct Hfly.
Qed.

End ChatPanel.

(** ** The properties above, on the scripted environments *)

Lemma poll_suspends_once_per_answer_witness :
  let b := Scenario.browser Scenario.two_rounds ∅ in
  let r := GeminiService.poll Scenario.provider 5 (Scenario.not_done "op") b in
  r.1 = Resolved (Scenario.done_with "op" Scenario.link)
  /\ suspensions (trace r.2) = 2.
Proof.
  destruct (poll_suspends_once_per_answer Scenario.provider 5
               (Scenario.not_done "op") (Scenario.done_with "op" Scenario.link)
               [Scenario.not_done "op"; Scenario.done_with "op" Scenario.link]
               {| Scenario.key := "KEY";
                  Scenario.edit_answer := inl (ErrorObj "unavailable");
                  Scenario.submit_answer := inr (Scenario.not_done "op");
                  Scenario.poll_answers := [];
                  Scenario.assets := [(Scenario.link +:+ "&key=KEY",
                                       Scenario.served [Byte.x00; Byte.x01])];
                  Scenario.elapsed := 20000 |}
               (Scenario.browser Scenario.two_rounds ∅))
    as (H1 & _ & H3 & _).
  - split; [reflexivity|]. eexists. split; [reflexivity|].
    split; [reflexivity|]. eexists. split; [reflexivity|].
    split; reflexivity.
  - reflexivity.
  - simpl. lia.
  - split; [exact H1|exact H3].
Defined.

Lemma poll_never_gives_up_witness :
  (GeminiService.poll Examples.stuck 3 (Scenario.not_done "op") Examples.idle).1 = Pending
  /\ suspensions
       (trace (GeminiService.poll Examples.stuck 3 (Scenario.not_done "op")
                 Examples.idle).2) = 3
  /\ (GeminiService.generateVideoWithPrompt Examples.stuck 3 "a cat" Landscape_16_9 None
        Examples.idle).1 = Pending.
Proof.
  destruct (poll_never_gives_up Examples.stuck 3 "a cat" Landscape_16_9 None
              (Scenario.not_done "op") Examples.idle)
    as (H1 & H2 & H3).
  - intros operation w. by exists (Scenario.not_done "op"), w.
  - reflexivity.
  - split; [exact H1|]. split; [exact H2|]. by apply (H3 tt).
Defined.

Lemma status_query_error_ends_the_call_witness :
  let r := GeminiService.generateVideoWithPrompt Scenario.provider 3 "a cat"
             Landscape_16_9 None (Scenario.browser Examples.failing_query ∅) in
  r.1 = Rejected (ErrorObj "Failed to generate video: 503 Service Unavailable")
  /\ suspensions (trace r.2) = 2
  /\ fetches (trace r.2) = 0
  /\ objectURLs r.2 = [].
Proof.
  edestruct (status_query_error_ends_the_call Scenario.provider 3 "a cat"
               Landscape_16_9 None (Scenario.browser Examples.failing_query ∅)
               (Scenario.not_done "op") (Scenario.not_done "op")
               [Scenario.not_done "op"])
    as (H1 & H2 & H3 & H4).
  - reflexivity.
  - split; [reflexivity|]. eexists. split; [reflexivity|]. split; reflexivity.
  - reflexivity.
  - reflexivity.
  - simpl. lia.
  - split; [exact H1|]. split; [exact H2|]. split; [exact H3|exact H4].
Defined.

Lemma refused_download_fails_with_status_witness :
  let r := GeminiService.generateVideoWithPrompt Scenario.provider 1 "a cat"
             Landscape_16_9 None (Scenario.browser Examples.refused_download ∅) in
  r.1 = Rejected (ErrorObj
          "Failed to generate video: Failed to download the generated video. Status: 403")
  /\ fetches (trace r.2) = 1
  /\ objectURLs r.2 = [].
Proof.
  edestruct (refused_download_fails_with_status Scenario.provider 1 "a cat"
               Landscape_16_9 None (Scenario.browser Examples.refused_download ∅))
    as (H1 & H2 & H3).
  - reflexivity.
  - reflexivity.
  - reflexivity.
  - reflexivity.
  - reflexivity.
  - split; [exact H1|]. split; [exact H2|exact H3].
Defined.

Lemma edit_returns_first_image_witness :
  (GeminiService.editImageWithPrompt Scenario.provider "AAAA" "image/png" "add a hat"
     (Scenario.browser Scenario.editing ∅)).1
  = Resolved {| data := "DDDD"; mimeType := "image/png" |}
  /\ exists before part after blob,
       [ {| part_inlineData := None; part_text := Some "Here is your image." |};
         {| part_inlineData := Some {| blob_data := Some "DDDD";
                                       blob_mimeType := Some "image/png" |};
            part_text := None |} ]
       = before ++ part :: after
       /\ part_inlineData part = Some blob
       /\ blob_mimeType blob = Some "image/png"
       /\ Forall (fun p => is_image_part p = Some false) before.
Proof.
  split; [reflexivity|].
  edestruct (edit_returns_first_image Scenario.provider "AAAA" "image/png" "add a hat"
               (Scenario.browser Scenario.editing ∅))
    as (before & part & after & blob & H1 & H2 & H3 & _ & _ & H6).
  - reflexivity.
  - exists before, part, after, blob. split; [by injection H1|].
    split; [exact H2|]. split; [exact H3|exact H6].
Defined.

(** An answer that is only text fails with the no-image message. *)
Example edit_of_a_text_answer :
  (GeminiService.editImageWithPrompt Scenario.provider "AAAA" "image/png" "add a hat"
     (Scenario.browser (Examples.editing_fails (inr Examples.text_only)) ∅)).1
  = Rejected (ErrorObj
      "Failed to generate image: No image found in the Gemini API response.").
Proof. reflexivity. Qed.

(** An answer whose first candidate has no content: the edit fails with the
    [TypeError] of the unguarded read, not with the no-image message. *)
Example edit_of_a_blocked_answer :
  (GeminiService.editImageWithPrompt Scenario.provider "AAAA" "image/png" "add a hat"
     (Scenario.browser (Examples.editing_fails (inr Examples.blocked)) ∅)).1
  = Rejected (ErrorObj
      "Failed to generate image: Cannot read properties of undefined (reading 'parts')").
Proof. reflexivity. Qed.

Lemma undecodable_result_fails_the_edit_witness :
  let st := ImageEditor.setOutputFormat ImageEditor.JPEG Scenario.session in
  let b := Scenario.browser Scenario.editing Scenario.session_store in
  let page := ImageEditor.handleSubmit Scenario.provider Examples.blind Ecma.lib (st, b) in
  ImageEditor.error page.1 = Some ImageEditor.msg_image_loading_failed
  /\ ImageEditor.history page.1 = [Scenario.first_result; Scenario.second_result]
  /\ ImageEditor.editedImage page.1 = Some Scenario.second_result
  /\ localStorage page.2 = Scenario.session_store.
Proof.
  edestruct (undecodable_result_fails_the_edit Scenario.provider Examples.blind Ecma.lib
               (ImageEditor.setOutputFormat ImageEditor.JPEG Scenario.session)
               (Scenario.browser Scenario.editing Scenario.session_store))
    as (H1 & H2 & H3 & H4 & _).
  - reflexivity.
  - reflexivity.
  - reflexivity.
  - simpl. discriminate.
  - left. reflexivity.
  - split; [exact H1|]. split; [exact H2|]. split; [exact H3|exact H4].
Defined.


Lemma reload_restores_the_session_witness :
  let b := Scenario.browser Scenario.editing Scenario.session_store in
  let page := ImageEditor.load Ecma.lib (ImageEditor.initial, b) in
  ImageEditor.originalImage page.1 = Some Scenario.photo
  /\ ImageEditor.editedImage page.1 = Some Scenario.second_result
  /\ ImageEditor.history page.1 = [Scenario.first_result; Scenario.second_result]
  /\ page.2 = b.
Proof.
  destruct (reload_restores_the_session Ecma.lib Scenario.session
              (Scenario.browser Scenario.editing Scenario.session_store)
              (Scenario.browser Scenario.editing Scenario.session_store))
    as (H1 & H2 & H3 & H4).
  - repeat split; vm_compute; reflexivity.
  - reflexivity.
  - discriminate.
  - intros img [= <-]. split; vm_compute; reflexivity.
  - split; vm_compute; reflexivity.
  - split; [exact H1|]. split; [exact H2|]. split; [exact H3|exact H4].
Defined.


Lemma png_conversion_keeps_transparency_witness :
  let r := ImageEditor.convertImageFormat Scenario.decoder "DDDD" "image/png"
             ImageEditor.PNG (Scenario.browser Scenario.editing ∅) in
  r.1 = Resolved (Scenario.encode "image/png" (9, 10)%Z
                    (ImageEditor.rendered ImageEditor.PNG Scenario.two_pixels))
  /\ map Canvas.alpha
       (Canvas.pixels (ImageEditor.rendered ImageEditor.PNG Scenario.two_pixels))
     = [0; 255]%Z
  /\ Canvas.pixels (ImageEditor.rendered ImageEditor.PNG Scenario.two_pixels) !! 1
     = Some {| Canvas.red := 200; Canvas.green := 100; Canvas.blue := 0;
               Canvas.alpha := 255 |}.
Proof.
  destruct (png_conversion_keeps_transparency Scenario.decoder "DDDD" "image/png"
              Scenario.two_pixels (Scenario.browser Scenario.editing ∅))
    as (H1 & _ & H3 & H4).
  - reflexivity.
  - reflexivity.
  - reflexivity.
  - repeat constructor; simpl; lia.
  - split; [exact H1|]. split; [exact H3|].
    by apply (H4 1 {| Canvas.red := 200; Canvas.green := 100; Canvas.blue := 0;
                      Canvas.alpha := 255 |}).
Defined.

Lemma failed_generation_leaves_no_video_witness :
  let view := VideoGenerator.handleSubmit Scenario.provider 1
                (Scenario.ready,
                 Scenario.browser (Scenario.rejecting Scenario.quota_exceeded) ∅) in
  VideoGenerator.videoUrl view.1 = None
  /\ VideoGenerator.error view.1
     = Some "Failed to generate video: Quota exceeded for quota metric."
  /\ VideoGenerator.isLoading view.1 = false.
Proof.
  edestruct (failed_generation_leaves_no_video Scenario.provider 1 Scenario.ready
               (Scenario.browser (Scenario.rejecting Scenario.quota_exceeded) ∅))
    as (H1 & _ & (m & Hm & H3) & H4 & _).
  - reflexivity.
  - reflexivity.
  - reflexivity.
  - split; [exact H1|]. split; [|exact H4].
    rewrite H3. f_equal. vm_compute in Hm. by injection Hm as <-.
Defined.

Lemma chat_session_is_created_once_witness :
  let r := ChatService.converse Examples.chat_backend ["Hi"; "Are you there?"; "Hello?"]
             (Examples.fresh_service Examples.talkative) in
  ChatService.chat r.2 = Some 7
  /\ ChatService.creations (ChatService.calls r.2) = 1
  /\ ChatService.sessions (ChatService.calls r.2) = [7; 7; 7].
Proof.
  destruct (chat_session_is_created_once Examples.chat_backend
              ["Hi"; "Are you there?"; "Hello?"]
              (Examples.fresh_service Examples.talkative) 7 Examples.talkative)
    as (H1 & _ & _ & _).
  - reflexivity.
  - reflexivity.
  - discriminate.
  - split; [exact H1|]. split; reflexivity.
Defined.

Lemma failed_session_creation_is_retried_witness :
  let s := {| ChatService.chat := None; ChatService.world := tt;
              ChatService.calls := [] |} in
  let r := ChatService.converse Examples.unreachable ["Hi"; "Hello?"] s in
  ChatService.chat r.2 = None
  /\ ChatService.calls r.2
     = [ChatService.Create "gemini-2.5-flash"; ChatService.Create "gemini-2.5-flash"]
  /\ r.1 = [Rejected (ErrorObj "network unreachable");
            Rejected (ErrorObj "network unreachable")].
Proof.
  destruct (failed_session_creation_is_retried Examples.unreachable ["Hi"; "Hello?"]
              {| ChatService.chat := None; ChatService.world := tt;
                 ChatService.calls := [] |})
    as (H1 & H2 & _ & _).
  - intros w. by eexists _, _.
  - reflexivity.
  - split; [exact H1|]. split; [exact H2|reflexivity].
Defined.

Lemma send_appends_question_and_one_answer_witness :
  let pg := ChatBot.step Examples.chat_backend Examples.trim (ChatBot.Type_ " Hi ")
              (ChatBot.start (Examples.fresh_service Examples.talkative)) in
  let pg' := ChatBot.handleSend Examples.chat_backend Examples.trim pg in
  ChatBot.messages (ChatBot.view pg')
  = [ ChatBot.greeting;
      {| ChatBot.role := ChatBot.user; ChatBot.content := " Hi " |};
      {| ChatBot.role := ChatBot.model; ChatBot.content := "Hello!" |} ]
  /\ ChatBot.input (ChatBot.view pg') = EmptyString
  /\ ChatBot.isLoading (ChatBot.view pg') = false.
Proof.
  destruct (send_appends_question_and_one_answer Examples.chat_backend Examples.trim
              (ChatBot.step Examples.chat_backend Examples.trim (ChatBot.Type_ " Hi ")
                 (ChatBot.start (Examples.fresh_service Examples.talkative))))
    as (_ & H2 & H3 & _ & H5 & _).
  - reflexivity.
  - split; [exact H5|]. split; [exact H2|exact H3].
Defined.
